(** * specbridge: a shallow embedding of the ASEQ spectrometer bridge

    The development follows the three translation units of the bridge:
    - [main.cpp]: [explode], [Trim] and [ReadCalData] (the calibration store);
    - [AseqSCPIServer.cpp]: [OnQuery], [OnCommand] and the acquisition
      callbacks (the control plane);
    - [WaveformServerThread.cpp]: [WaveformServerThread] (the data plane),
      in the version that triggers, fetches and sends a frame per
      iteration (the repository also holds an earlier version of the
      same function whose loop only sleeps).

    Conventions.  A C++ [int] is a [Z]; a [std::string] is a [string]; a
    [std::vector<T>] is a [list T] and [v[i]] is [vec_at v i], which is
    undefined behaviour out of range; a [float] or [double] is a
    [spec_float] of the matching format, and a [cfloat] where it is
    printed, which keeps the sign bit of a NaN as well.  Functions that
    can leave through [exit], through a C++ exception or through
    undefined behaviour return an [outcome]. *)

From Stdlib Require Import ZArith NArith List String Ascii Bool Lia.
From Stdlib Require Import Floats.SpecFloat.
Import ListNotations.

Local Open Scope string_scope.
Local Open Scope list_scope.
Local Open Scope Z_scope.

(* ------------------------------------------------------------------ *)
(** ** Outcomes of fallible code                                       *)
(* ------------------------------------------------------------------ *)

(** The two exceptions [std::stod] can throw. *)
Inductive exn : Type :=
| invalid_argument
| out_of_range.

Inductive outcome (A : Type) : Type :=
| Ret (a : A)          (* the code ran to completion *)
| Exit (code : Z)      (* the process left through [exit(code)] *)
| Raise (e : exn)      (* a C++ exception left the function *)
| Undefined.           (* [operator[]] out of range: undefined behaviour *)

Arguments Ret {A} a.
Arguments Exit {A} code.
Arguments Raise {A} e.
Arguments Undefined {A}.

Definition bind {A B : Type} (m : outcome A) (k : A -> outcome B) : outcome B :=
  match m with
  | Ret a => k a
  | Exit c => Exit c
  | Raise e => Raise e
  | Undefined => Undefined
  end.

Declare Scope outcome_scope.
Delimit Scope outcome_scope with outcome.
Notation "x <- m ;; k" := (bind m (fun x => k))
  (at level 61, m at next level, right associativity) : outcome_scope.
Local Open Scope outcome_scope.

(** [v[i]] on a [std::vector]: no bounds check in the source, so an index
    outside [0, size) is undefined behaviour. *)
Definition vec_at {A : Type} (v : list A) (i : Z) : outcome A :=
  if i <? 0 then Undefined
  else match nth_error v (Z.to_nat i) with
       | Some x => Ret x
       | None => Undefined
       end.

(* ------------------------------------------------------------------ *)
(** ** main.cpp: string helpers                                        *)
(* ------------------------------------------------------------------ *)

Definition is_empty (s : string) : bool :=
  match s with
  | EmptyString => true
  | String _ _ => false
  end.

(** [tmp += c] *)
Definition push_char (tmp : string) (c : ascii) : string :=
  String.append tmp (String c EmptyString).

(** The [for(auto c : str)] loop of [explode], with the pending token
    [tmp]; the trailing [if(!tmp.empty())] is the [EmptyString] case. *)
Fixpoint explode_from (str : string) (separator : ascii) (tmp : string)
  : list string :=
  match str with
  | EmptyString => if is_empty tmp then [] else [tmp]
  | String c rest =>
      if Ascii.eqb c separator then
        if is_empty tmp then explode_from rest separator EmptyString
        else tmp :: explode_from rest separator EmptyString
      else explode_from rest separator (push_char tmp c)
  end.

Definition explode (str : string) (separator : ascii) : list string :=
  explode_from str separator EmptyString.

(** [isspace] in the C locale: space, and the controls 9 to 13. *)
Definition isspace (c : ascii) : bool :=
  let n := N_of_ascii c in
  (N.eqb n 32 || (N.leb 9 n && N.leb n 13))%bool.

(** First loop of [Trim]: skip leading spaces. *)
Fixpoint skip_spaces (str : string) : string :=
  match str with
  | EmptyString => EmptyString
  | String c rest => if isspace c then skip_spaces rest else str
  end.

(** Second loop of [Trim]: [ret] is the result so far, [tmp] the spaces
    seen since the last non-space. *)
Fixpoint trim_loop (str ret tmp : string) : string :=
  match str with
  | EmptyString => ret
  | String c rest =>
      if negb (isspace c) then trim_loop rest (push_char (String.append ret tmp) c) EmptyString
      else trim_loop rest ret (push_char tmp c)
  end.

Definition Trim (str : string) : string :=
  trim_loop (skip_spaces str) EmptyString EmptyString.

(** [std::string sbuf(buf)]: construction from a C string stops at the
    first NUL. *)
Fixpoint c_str (buf : string) : string :=
  match buf with
  | EmptyString => EmptyString
  | String c rest => if Ascii.eqb c zero then EmptyString else String c (c_str rest)
  end.

Definition newline : ascii := ascii_of_N 10.
Definition space : ascii := ascii_of_N 32.

(* ------------------------------------------------------------------ *)
(** ** main.cpp: the calibration store                                 *)
(* ------------------------------------------------------------------ *)

(** A floating-point value of the calibration record.  [spec_float] has
    a single NaN; the C value has a sign bit also when it is a NaN, and
    [printf] shows it ([-nan]), so the sign of a NaN is kept beside the
    value. *)
Record cfloat : Type := mkFloat {
  num : spec_float;
  nan_sign : bool
}.

(** A value whose NaN sign bit, if it is a NaN, is clear. *)
Definition plain (x : spec_float) : cfloat := {| num := x; nan_sign := false |}.

(** The globals of [main.cpp] that hold the calibration record, and the
    two irradiance globals that [AseqSCPIServer.cpp] reads.  The source
    of [g_absResponse] and [g_absCal] gives only their uses
    ([g_absResponse[i]] printed with [%.3f], [to_string(g_absCal)]);
    [ReadCalData] never writes them. *)
Record caldata : Type := mkCal {
  g_model : string;
  g_serial : string;
  g_numPixels : Z;
  g_wavelengths : list cfloat;
  g_sensorResponse : list cfloat;
  g_absResponse : list cfloat;
  g_absCal : cfloat
}.

(** The globals as they are when [main] starts: empty strings and
    vectors, [g_numPixels = 3653]. *)
Definition initial_caldata : caldata :=
  {| g_model := ""; g_serial := ""; g_numPixels := 3653;
     g_wavelengths := []; g_sensorResponse := [];
     g_absResponse := []; g_absCal := plain (S754_zero false) |}.

Section Calibration.

(** [atof] followed by the narrowing to [float] that [push_back] on a
    [vector<float>] performs. *)
Variable atof : string -> cfloat.

(** [for(int i=0; i<g_numPixels; i++) vec.push_back(atof(lines[i+off].c_str()))],
    with [count] iterations left. *)
Fixpoint read_table (lines : list string) (off : Z) (count : nat) (i : Z)
         (vec : list cfloat) : outcome (list cfloat) :=
  match count with
  | O => Ret vec
  | S k =>
      line <- vec_at lines (i + off) ;;
      read_table lines off k (i + 1) (vec ++ [atof line])
  end.

(** [ReadCalData], from the buffer on.  [g0] holds the globals at the
    call. The arguments of the [LogDebug] calls are evaluated whatever
    the log level is, so their indexing is part of the behaviour. *)
Definition parse_cal (buf : string) (g0 : caldata) : outcome caldata :=
  let P := g_numPixels g0 in
  let lines := explode (c_str buf) newline in
  first <- vec_at lines 0 ;;
  let firstFields := explode first space in
  f0 <- vec_at firstFields 0 ;;
  f2 <- vec_at firstFields 2 ;;
  f1 <- vec_at firstFields 1 ;;
  let hasAbsCal := String.eqb f1 "c.Y" in
  wl <- read_table lines 12 (Z.to_nat P) 0 (g_wavelengths g0) ;;
  _ <- vec_at wl 0 ;;
  _ <- vec_at wl (P - 1) ;;
  sr <- read_table lines (13 + P) (Z.to_nat P) 0 (g_sensorResponse g0) ;;
  _ <- vec_at sr 0 ;;
  _ <- vec_at sr 2365 ;;
  _ <- vec_at sr (P - 1) ;;
  Ret {| g_model := Trim f0; g_serial := Trim f2; g_numPixels := P;
         g_wavelengths := wl; g_sensorResponse := sr;
         g_absResponse := g_absResponse g0; g_absCal := g_absCal g0 |}.

(** [ReadCalData].  [flash] is what [readFlash] returned: its error code
    and the [ncal] bytes it stored in [buf]. *)
Definition ReadCalData (flash : Z * string) (g0 : caldata) : outcome caldata :=
  let (err, buf) := flash in
  if negb (err =? 0) then Exit 1
  else parse_cal buf g0.

End Calibration.

(* ------------------------------------------------------------------ *)
(** ** Floating-point values and their text                            *)
(* ------------------------------------------------------------------ *)

(** A [float] is an IEEE 754 binary32 value, a [double] a binary64 one,
    both as [spec_float]s: a finite value [S754_finite s m e] is
    [(-1)^s * m * 2^e]. *)
Definition is_float (x : cfloat) : bool := valid_binary 24 128 (num x).
Definition is_double (x : spec_float) : bool := valid_binary 53 1024 x.

Definition is_finite (x : cfloat) : bool :=
  match num x with
  | S754_zero _ | S754_finite _ _ _ => true
  | S754_infinity _ | S754_nan => false
  end.

(** The conversion of an integer to [float] (exact below [2^24]). *)
Definition float_of_Z (n : Z) : spec_float := binary_normalize 24 128 n 0 false.
Definition double_of_Z (n : Z) : spec_float := binary_normalize 53 1024 n 0 false.

(** The narrowing conversion from [double] to [float]. *)
Definition float_of_double (x : spec_float) : spec_float :=
  match x with
  | S754_finite s m e => binary_normalize 24 128 (cond_Zopp s (Zpos m)) e s
  | _ => x
  end.

Definition digit_char (d : N) : ascii := ascii_of_N (48 + d).

Definition is_digit (c : ascii) : bool :=
  let n := N_of_ascii c in (N.leb 48 n && N.leb n 57)%bool.

(** The decimal digits of [n], least significant first. *)
Fixpoint dec_rev (fuel : nat) (n : N) : list ascii :=
  match fuel with
  | O => []
  | S f =>
      digit_char (n mod 10) ::
      (if (n / 10 =? 0)%N then [] else dec_rev f (n / 10))
  end.

Definition dec_digits (n : N) : list ascii :=
  rev (dec_rev (S (N.to_nat (N.log2 n))) n).

(** Exactly [prec] digits of [f], most significant first, zero padded. *)
Fixpoint frac_digits (prec : nat) (f : N) : list ascii :=
  match prec with
  | O => []
  | S k => digit_char ((f / 10 ^ N.of_nat k) mod 10) :: frac_digits k f
  end.

(** Rounding of [num/den] to the nearest integer, ties to even: the
    rounding of [printf] under the default rounding mode. *)
Definition round_half_even (num den : N) : N :=
  let q := (num / den)%N in
  let r := (num mod den)%N in
  match (2 * r ?= den)%N with
  | Lt => q
  | Gt => (q + 1)%N
  | Eq => if N.even q then q else (q + 1)%N
  end.

(** [m * 2^e * 10^prec], rounded to an integer. *)
Definition scaled (prec : nat) (m : positive) (e : Z) : N :=
  let num := (Npos m * 10 ^ N.of_nat prec)%N in
  match e with
  | Z0 => num
  | Zpos p => (num * 2 ^ Npos p)%N
  | Zneg p => round_half_even num (2 ^ Npos p)
  end.

Definition fixed_digits (prec : nat) (q : N) : list ascii :=
  dec_digits (q / 10 ^ N.of_nat prec) ++
  match prec with
  | O => []
  | S _ => "."%char :: frac_digits prec (q mod 10 ^ N.of_nat prec)
  end.

Definition sign_chars (s : bool) : list ascii :=
  if s then ["-"%char] else [].

(** The conversion [%.<prec>f] of [printf]: the sign, also of a zero,
    an infinity or a NaN ([-nan] when its sign bit is set), then the
    digits or [inf] or [nan]. *)
Definition fmt_fixed (prec : nat) (x : cfloat) : list ascii :=
  match num x with
  | S754_zero s => sign_chars s ++ fixed_digits prec 0
  | S754_infinity s => sign_chars s ++ ["i"; "n"; "f"]%char
  | S754_nan => sign_chars (nan_sign x) ++ ["n"; "a"; "n"]%char
  | S754_finite s m e => sign_chars s ++ fixed_digits prec (scaled prec m e)
  end.

(** [snprintf(tmp, sizeof(tmp), ...)] with [char tmp[128]]: at most 127
    characters are stored. *)
Definition snprintf_128 (formatted : list ascii) : string :=
  string_of_list_ascii (firstn 127 formatted).

(** [snprintf(tmp, sizeof(tmp), "%.3f,", x)] *)
Definition snprintf_3f_comma (x : cfloat) : string :=
  snprintf_128 (fmt_fixed 3 x ++ [","%char]).

(** [std::to_string] of an [int] and of a floating-point value ([%d] and
    [%f], in a buffer that is large enough). *)
Definition to_string_int (n : Z) : string :=
  string_of_list_ascii
    (match n with
     | Z0 => dec_digits 0
     | Zpos p => dec_digits (Npos p)
     | Zneg p => "-"%char :: dec_digits (Npos p)
     end).

Definition to_string_float (x : cfloat) : string :=
  string_of_list_ascii (fmt_fixed 6 x).

(** *** A decimal reader

    [strtod_decimal] is [strtod] on strings of the form
    [[sign] digits [. digits]] with at most 15 digits: there the integer
    made of the digits and the power of ten are exact doubles, so one
    correctly rounded division gives the [strtod] result.  Other strings
    are outside its domain ([None]).  [atof_decimal] adds the narrowing
    to [float] of [push_back] on a [vector<float>]. *)
Fixpoint read_digits (cs : list ascii) (acc : Z) (count : nat)
  : Z * nat * list ascii :=
  match cs with
  | c :: rest =>
      if is_digit c
      then read_digits rest (10 * acc + (Z.of_N (N_of_ascii c) - 48)) (S count)
      else (acc, count, cs)
  | [] => (acc, count, cs)
  end.

Definition strtod_decimal (line : string) : option spec_float :=
  let cs := list_ascii_of_string line in
  let '(neg, cs1) :=
    match cs with
    | "-"%char :: r => (true, r)
    | "+"%char :: r => (false, r)
    | _ => (false, cs)
    end in
  let '(ip, n1, cs2) := read_digits cs1 0 0 in
  let '(all, n2, cs3) :=
    match cs2 with
    | "."%char :: r => read_digits r ip 0
    | _ => (ip, O, cs2)
    end in
  match cs3 with
  | [] =>
      if ((0 <? n1 + n2) && (n1 + n2 <=? 15))%nat%bool then
        let q := SFdiv 53 1024 (double_of_Z all) (double_of_Z (10 ^ Z.of_nat n2)) in
        Some (if neg then SFopp q else q)
      else None
  | _ => None
  end.

Definition atof_decimal (line : string) : option spec_float :=
  option_map float_of_double (strtod_decimal line).

(** An instance of [atof] for running the model on blobs whose table
    lines are short decimals.  A line outside the domain of
    [atof_decimal] reads as [0.0] here: that is what [atof] returns
    when it finds no number, but not what it returns for a number in
    another notation (an exponent, [inf], [nan]); the sample blobs
    have no such line. *)
Definition sample_atof (line : string) : cfloat :=
  match atof_decimal line with
  | Some x => plain x
  | None => plain (S754_zero false)
  end.

(* ------------------------------------------------------------------ *)
(** ** AseqSCPIServer.cpp: queries                                     *)
(* ------------------------------------------------------------------ *)

Inductive severity : Type := ERROR | WARNING | NOTICE | VERBOSE | DEBUG.

(** What a handler does to the outside: a reply on the control socket
    or a line in the log. *)
Inductive effect : Type :=
| SendReply (reply : string)
| Log (level : severity) (text : string).

(** The loop shared by [WAVELENGTHS?], [FLATCAL?] and [IRRCAL?]:
    [for(int i=0; i<g_numPixels; i++) { snprintf(tmp, ..., "%.3f,", vec[i]); acc += tmp; }]
    with [count] iterations left. *)
Fixpoint print_table (vec : list cfloat) (count : nat) (i : Z) (acc : string)
  : outcome string :=
  match count with
  | O => Ret acc
  | S k =>
      x <- vec_at vec i ;;
      print_table vec k (i + 1) (String.append acc (snprintf_3f_comma x))
  end.

(** [AseqSCPIServer::OnQuery].  [base_handled] is the result of the call
    to [BridgeSCPIServer::OnQuery], which is tried first.  The result is
    the returned [bool] and what was sent and logged. *)
Definition OnQuery (g : caldata) (base_handled : bool) (line cmd : string)
  : outcome (bool * list effect) :=
  if base_handled then Ret (true, [])
  else if String.eqb cmd "POINTS" then
    Ret (false, [SendReply (to_string_int (g_numPixels g))])
  else if String.eqb cmd "WAVELENGTHS" then
    wavelengths <- print_table (g_wavelengths g) (Z.to_nat (g_numPixels g)) 0 "" ;;
    Ret (false, [SendReply wavelengths])
  else if String.eqb cmd "FLATCAL" then
    flatcal <- print_table (g_sensorResponse g) (Z.to_nat (g_numPixels g)) 0 "" ;;
    Ret (false, [SendReply flatcal])
  else if String.eqb cmd "IRRCOEFF" then
    Ret (false, [SendReply (to_string_float (g_absCal g))])
  else if String.eqb cmd "IRRCAL" then
    irrcal <- print_table (g_absResponse g) (Z.to_nat (g_numPixels g)) 0 "" ;;
    Ret (false, [SendReply irrcal])
  else
    Ret (false, [Log DEBUG (String.append "Unrecognized query received: "
                              (String.append line (String newline "")))]).

(** *** Reading a reply back

    [split_tokens] cuts a reply at its commas; it fails when the last
    token is not terminated by a comma. *)
Fixpoint tokens_from (reply : list ascii) (tmp : list ascii)
  : option (list (list ascii)) :=
  match reply with
  | [] => match tmp with [] => Some [] | _ :: _ => None end
  | c :: rest =>
      if Ascii.eqb c ","%char
      then option_map (cons tmp) (tokens_from rest [])
      else tokens_from rest (tmp ++ [c])
  end.

Definition split_tokens (reply : string) : option (list (list ascii)) :=
  tokens_from (list_ascii_of_string reply) [].

(** A token in fixed notation with three decimals: an optional minus
    sign, at least one digit, a point, three digits. *)
Definition strip_minus (token : list ascii) : list ascii :=
  match token with
  | "-"%char :: r => r
  | _ => token
  end.

Definition unsigned_three_decimals (body : list ascii) : bool :=
  match rev body with
  | d3 :: d2 :: d1 :: p :: ip =>
      (is_digit d3 && is_digit d2 && is_digit d1 && Ascii.eqb p "."%char
       && negb (Nat.eqb (List.length ip) 0) && forallb is_digit ip)%bool
  | _ => false
  end.

Definition three_decimals (token : list ascii) : bool :=
  unsigned_three_decimals (strip_minus token).

(** The number a run of decimal digits stands for, continuing from
    [acc]; [None] when a character is no digit. *)
Fixpoint digits_value (cs : list ascii) (acc : N) : option N :=
  match cs with
  | [] => Some acc
  | c :: rest =>
      if is_digit c then digits_value rest (10 * acc + (N_of_ascii c - 48))
      else None
  end.

(** A token in fixed notation with three decimals read back, without
    the printer: whether it has a minus sign, and its digits as a
    number of thousandths. *)
Definition read_thousandths (token : list ascii) : option (bool * N) :=
  let neg := match token with "-"%char :: _ => true | _ => false end in
  match rev (strip_minus token) with
  | d3 :: d2 :: d1 :: p :: ip =>
      if (Ascii.eqb p "."%char && negb (Nat.eqb (List.length ip) 0))%bool
      then option_map (pair neg) (digits_value (rev ip ++ [d1; d2; d3]) 0)
      else None
  | _ => None
  end.

(** [q] thousandths are a value nearest to [m * 2^e]: equal to it when
    [e] is not negative, and no further than half a thousandth from it
    when it is ([|2 * (1000 * m - q * 2^p)| <= 2^p] for [e = -p]). *)
Definition nearest_thousandth (m : positive) (e : Z) (q : N) : bool :=
  match e with
  | Zneg p =>
      let d := (2 ^ Npos p)%N in
      ((2 * (1000 * Npos m) <=? 2 * (q * d) + d)
       && (2 * (q * d) <=? 2 * (1000 * Npos m) + d))%N
  | _ => (q =? 1000 * Npos m * 2 ^ Z.to_N e)%N
  end.

(** [token] is the text of [x] under [%.3f]: for a zero or a finite
    value, fixed notation that reads back as the sign bit of [x] and a
    number of thousandths nearest to its magnitude; for an infinity or
    a NaN, [inf] or [nan] after a minus sign when the sign bit is
    set. *)
Definition token_of (x : cfloat) (token : list ascii) : bool :=
  match num x with
  | S754_zero s =>
      match read_thousandths token with
      | Some (neg, q) => (Bool.eqb neg s && (q =? 0)%N)%bool
      | None => false
      end
  | S754_finite s m e =>
      match read_thousandths token with
      | Some (neg, q) => (Bool.eqb neg s && nearest_thousandth m e q)%bool
      | None => false
      end
  | S754_infinity s =>
      String.eqb (string_of_list_ascii token) (if s then "-inf" else "inf")
  | S754_nan =>
      String.eqb (string_of_list_ascii token) (if nan_sign x then "-nan" else "nan")
  end.

(** No comma inside a token. *)
Definition no_comma (l : list ascii) : bool :=
  forallb (fun c => negb (Ascii.eqb c ","%char)) l.

(** The concatenation of the pieces appended to a reply, in order. *)
Definition join_all (pieces : list string) : string :=
  fold_right String.append "" pieces.

(** The table a per-pixel query prints. *)
Definition table_of (g : caldata) (cmd : string) : list cfloat :=
  if String.eqb cmd "WAVELENGTHS" then g_wavelengths g
  else if String.eqb cmd "FLATCAL" then g_sensorResponse g
  else g_absResponse g.

Definition table_queries : list string := ["WAVELENGTHS"; "FLATCAL"; "IRRCAL"].

(* ------------------------------------------------------------------ *)
(** ** A calibration blob to run the model on                          *)
(* ------------------------------------------------------------------ *)

Definition carriage_return : ascii := ascii_of_N 13.

(** [lines] joined with [\n], each line terminated. *)
Definition unlines (lines : list string) : string :=
  join_all (map (fun l => String.append l (String newline "")) lines).

(** The layout [ReadCalData] expects for [P] pixels: a header line, 11
    more lines, the wavelengths, a separator line that is not empty (a
    lone carriage return: [explode] drops empty lines), the sensor
    response.  All wavelengths are [wl], all coefficients [sr]. *)
Definition blob_lines (P : nat) (wl sr : string) : list string :=
  "AS-5216 c.N 00042" :: repeat "#" 11
  ++ repeat wl P ++ [String carriage_return ""] ++ repeat sr P.

Definition sample_blob : string := unlines (blob_lines 3653 "500.5" "1.25").

(** A blob that stops after the wavelength table. *)
Definition short_blob : string :=
  unlines ("AS-5216 c.N 00042" :: repeat "#" 11 ++ repeat "500.5" 3653).

(* ------------------------------------------------------------------ *)
(** ** WaveformServerThread.cpp: the frame on the wire                 *)
(* ------------------------------------------------------------------ *)

(** [const int framesize = 3699]; the valid pixels start after 32 dummy
    pixels ([framePixels[i+32]]). *)
Definition framesize : Z := 3699.
Definition dummy_pixels : Z := 32.

(** [for(int i=0; i<g_numPixels; i++) frameFlattened[i] = framePixels[i+32];]
    with [count] iterations left; [acc] is [frameFlattened[0..i)].  The
    samples are [uint16_t], the assignment converts them to [float]. *)
Fixpoint flatten_loop (framePixels : list Z) (count : nat) (i : Z)
         (acc : list spec_float) : outcome (list spec_float) :=
  match count with
  | O => Ret acc
  | S k =>
      px <- vec_at framePixels (i + dummy_pixels) ;;
      flatten_loop framePixels k (i + 1) (acc ++ [float_of_Z px])
  end.

(** The binary32 encoding of a [float]. *)
Definition float_bits (x : spec_float) : Z :=
  let sign (s : bool) := if s then Z.shiftl 1 31 else 0 in
  match x with
  | S754_zero s => sign s
  | S754_infinity s => Z.lor (sign s) (Z.shiftl 255 23)
  | S754_nan => Z.lor (Z.shiftl 255 23) (Z.shiftl 1 22)
  | S754_finite s m e =>
      if Zpos m <? 2 ^ 23 then Z.lor (sign s) (Zpos m)
      else Z.lor (sign s) (Z.lor (Z.shiftl (e + 150) 23) (Zpos m - 2 ^ 23))
  end.

Definition byte_of_Z (z : Z) : Byte.byte :=
  match Byte.of_N (Z.to_N (Z.land z 255)) with
  | Some b => b
  | None => Byte.x00
  end.

(** The four bytes of a 32-bit word in memory, on a little-endian host. *)
Definition le_bytes32 (w : Z) : list Byte.byte :=
  [byte_of_Z w; byte_of_Z (Z.shiftr w 8);
   byte_of_Z (Z.shiftr w 16); byte_of_Z (Z.shiftr w 24)].

(** [(uint8_t* )frameFlattened], [g_numPixels * sizeof(float)] bytes. *)
Definition float_array_bytes (a : list spec_float) : list Byte.byte :=
  flat_map (fun x => le_bytes32 (float_bits x)) a.

(** The bytes one iteration hands to [SendLooped]. *)
Definition frame_bytes (P : Z) (framePixels : list Z) : outcome (list Byte.byte) :=
  frameFlattened <- flatten_loop framePixels (Z.to_nat P) 0 [] ;;
  Ret (float_array_bytes frameFlattened).

(** *** Reading the wire format back *)






(* ------------------------------------------------------------------ *)
(** ** AseqSCPIServer.cpp: the shared acquisition state                *)
(* ------------------------------------------------------------------ *)

(** The two threads of a session. *)
Inductive tid : Type := Streamer | Control.

Definition tid_eqb (a b : tid) : bool :=
  match a, b with
  | Streamer, Streamer | Control, Control => true
  | _, _ => false
  end.

(** The globals the two threads share: the flags and [g_mutex] with its
    owner, if it is locked. *)
Record shared : Type := mkShared {
  g_triggerArmed : bool;
  g_triggerOneShot : bool;
  g_waveformThreadQuit : bool;
  g_mutex : option tid
}.

Definition set_triggerArmed (b : bool) (sh : shared) : shared :=
  {| g_triggerArmed := b; g_triggerOneShot := g_triggerOneShot sh;
     g_waveformThreadQuit := g_waveformThreadQuit sh; g_mutex := g_mutex sh |}.

Definition set_triggerOneShot (b : bool) (sh : shared) : shared :=
  {| g_triggerArmed := g_triggerArmed sh; g_triggerOneShot := b;
     g_waveformThreadQuit := g_waveformThreadQuit sh; g_mutex := g_mutex sh |}.

Definition set_waveformThreadQuit (b : bool) (sh : shared) : shared :=
  {| g_triggerArmed := g_triggerArmed sh; g_triggerOneShot := g_triggerOneShot sh;
     g_waveformThreadQuit := b; g_mutex := g_mutex sh |}.

Definition set_mutex (o : option tid) (sh : shared) : shared :=
  {| g_triggerArmed := g_triggerArmed sh; g_triggerOneShot := g_triggerOneShot sh;
     g_waveformThreadQuit := g_waveformThreadQuit sh; g_mutex := o |}.

(** The acquisition callbacks, as the base dispatcher calls them: two
    assignments in [AcquisitionStart], one in the others, no lock. *)
Definition AcquisitionStart (oneShot : bool) (sh : shared) : shared :=
  set_triggerOneShot oneShot (set_triggerArmed true sh).

Definition AcquisitionForceTrigger (sh : shared) : shared :=
  set_triggerArmed true sh.

Definition AcquisitionStop (sh : shared) : shared :=
  set_triggerArmed false sh.

Definition IsTriggerArmed (sh : shared) : bool := true.

(* ------------------------------------------------------------------ *)
(** ** AseqSCPIServer.cpp: commands                                    *)
(* ------------------------------------------------------------------ *)

(** What a thread does to the device, the lock and the sockets. *)
Inductive event : Type :=
| EvLock (t : tid)                          (* [lock_guard] constructed *)
| EvUnlock (t : tid)                        (* [lock_guard] destroyed *)
| EvTrigger (err : Z)                       (* [triggerAcquisition] returned [err] *)
| EvGetFrame (err : Z)                      (* [getFrame] returned [err] *)
| EvSetExposure (exposure : spec_float) (err : Z)  (* [setExposure] returned [err] *)
| EvSend (bytes : list Byte.byte) (ok : bool)      (* [SendLooped] on the data socket *)
| EvSleep                                   (* [sleep_for(1000us)] *)
| EvEffect (e : effect).                    (* a reply or a log line *)

(** The double [1e-10]. *)
Definition double_1e_10 : spec_float := S754_finite false 7737125245533627 (-86).

Fixpoint skip_spaces_list (cs : list ascii) : list ascii :=
  match cs with
  | c :: rest => if isspace c then skip_spaces_list rest else cs
  | [] => []
  end.

Definition lower (c : ascii) : ascii :=
  let n := N_of_ascii c in
  if (N.leb 65 n && N.leb n 90)%bool then ascii_of_N (n + 32) else c.

(** Whether [strtod] finds a number at the start of [str]: after white
    space and an optional sign, a digit, a point followed by a digit, or
    [inf] or [nan] in any case. *)
Definition starts_with_number (str : string) : bool :=
  let cs := skip_spaces_list (list_ascii_of_string str) in
  let cs := match cs with
            | "+"%char :: r | "-"%char :: r => r
            | _ => cs
            end in
  match cs with
  | c :: rest =>
      if is_digit c then true
      else if Ascii.eqb c "."%char then
        match rest with
        | d :: _ => is_digit d
        | [] => false
        end
      else
        match map lower (firstn 3 cs) with
        | ["i"; "n"; "f"]%char | ["n"; "a"; "n"]%char => true
        | _ => false
        end
  | [] => false
  end.

(** [msg] followed by the decimal [code] and a newline: the text of
    [LogError("... code %d\n", err)]. *)
Definition error_with_code (msg : string) (code : Z) : effect :=
  Log ERROR (String.append msg
               (String.append (to_string_int code) (String newline ""))).

Section Commands.

(** The value [strtod] converts a string that starts with a number to;
    [None] when it reports a range error. *)
Variable strtod_number : string -> option spec_float.

(** [std::stod]: [invalid_argument] when no conversion can be
    performed, [out_of_range] on a range error. *)
Definition stod (str : string) : outcome spec_float :=
  if starts_with_number str then
    match strtod_number str with
    | Some v => Ret v
    | None => Raise out_of_range
    end
  else Raise invalid_argument.

(** [double exposure = stod(args[0]) * 1e-10;] *)
Definition exposure_argument (args : list string) : outcome spec_float :=
  a <- vec_at args 0 ;;
  v <- stod a ;;
  Ret (SFmul 53 1024 v double_1e_10).

(** [if(0 != (err = setExposure(...))) LogError(...)] *)
Definition setExposure_events (exposure : spec_float) (err : Z) : list event :=
  EvSetExposure exposure err ::
  (if err =? 0 then []
   else [EvEffect (error_with_code "failed to set exposure, code " err)]).

(** [AseqSCPIServer::OnCommand], run without interruption.
    [base_handled] is the result of [BridgeSCPIServer::OnCommand],
    which is tried first; [err] is what [setExposure] returns if it is
    called.  The [lock_guard] is released when the block is left,
    also by an exception. *)
Definition OnCommand (base_handled : bool) (line cmd : string)
           (args : list string) (err : Z) : outcome bool * list event :=
  if base_handled then (Ret true, [])
  else if String.eqb cmd "EXPOSURE" then
    match exposure_argument args with
    | Ret exposure =>
        (Ret true,
         [EvLock Control] ++ setExposure_events exposure err ++ [EvUnlock Control])
    | Raise e => (Raise e, [EvLock Control; EvUnlock Control])
    | Exit c => (Exit c, [EvLock Control])
    | Undefined => (Undefined, [EvLock Control])
    end
  else
    (Ret true,
     [EvEffect (Log ERROR (String.append "Unrecognized command "
                             (String.append line (String newline ""))))]).

End Commands.

(* ------------------------------------------------------------------ *)
(** ** The two threads of a session                                    *)
(* ------------------------------------------------------------------ *)

(** Where [WaveformServerThread] stands. *)
Inductive streamer_pc : Type :=
| S_NotRunning   (* no data thread: not yet spawned, or joined *)
| S_Accept       (* [g_dataSocket.Accept()] *)
| S_LoopHead     (* [while(!g_waveformThreadQuit)] *)
| S_Poll         (* [if(!g_triggerArmed)] *)
| S_Lock         (* [lock_guard<mutex> lock(g_mutex)] *)
| S_Trigger      (* [triggerAcquisition] *)
| S_GetFrame     (* [getFrame] *)
| S_OneShot      (* [if(g_triggerOneShot)]: the flag is read *)
| S_Disarm       (* [g_triggerArmed = false;]: the flag was read set *)
| S_Unlock       (* end of the locked block *)
| S_Send         (* the flattening loop and [SendLooped] *)
| S_Exited.      (* the thread function has returned *)

(** What the control client sends next, as the base dispatcher hands it
    on: a call of an acquisition callback, a command the base class does
    not handle, a query, or the end of the connection. *)
Inductive request : Type :=
| ReqStart (oneShot : bool)
| ReqForceTrigger
| ReqStop
| ReqCommand (line cmd : string) (args : list string)
| ReqQuery (base_handled : bool) (line cmd : string)
| ReqNoOp
| ReqDisconnect.

(** Where the main thread stands: in [main]'s accept loop, in
    [MainLoop], or inside a handler. *)
Inductive control_pc : Type :=
| C_Accept                          (* [g_scpiSocket.Accept()], then spawn the data thread *)
| C_ReadLine                        (* [MainLoop] waits for a line *)
| C_StartOneShot (oneShot : bool)   (* [AcquisitionStart]: [g_triggerOneShot = oneShot] *)
| C_ExpLock (args : list string)    (* [OnCommand]: [lock_guard<mutex> lock(g_mutex)] *)
| C_ExpConvert (args : list string) (* [stod(args[0]) * 1e-10] *)
| C_ExpSet (exposure : spec_float)  (* [setExposure] *)
| C_ExpUnlock                       (* end of the locked block *)
| C_Raised (e : exn)                (* an exception is leaving [OnCommand] *)
| C_SetQuit                         (* [g_waveformThreadQuit = true] *)
| C_Join                            (* [dataThread.join()] *)
| C_ClearQuit.                      (* [g_waveformThreadQuit = false] *)

(** What the outside supplies to one step. *)
Record env : Type := mkEnv {
  in_valid : bool;        (* [Accept] gave a valid socket *)
  in_request : request;   (* the next request of the control client *)
  in_err : Z;             (* the code the device call returns *)
  in_frame : list Z;      (* the samples [getFrame] stores *)
  in_sent : bool          (* [SendLooped] succeeded *)
}.

Record state : Type := mkState {
  sh : shared;
  spc : streamer_pc;
  cpc : control_pc;
  framePixels : list Z;   (* the data thread's frame buffer *)
  halted : bool           (* the process is gone: [exit] or undefined behaviour *)
}.

Definition with_sh (f : shared -> shared) (st : state) : state :=
  {| sh := f (sh st); spc := spc st; cpc := cpc st;
     framePixels := framePixels st; halted := halted st |}.

Definition at_s (pc : streamer_pc) (st : state) : state :=
  {| sh := sh st; spc := pc; cpc := cpc st;
     framePixels := framePixels st; halted := halted st |}.

Definition at_c (pc : control_pc) (st : state) : state :=
  {| sh := sh st; spc := spc st; cpc := pc;
     framePixels := framePixels st; halted := halted st |}.

Definition with_frame (frame : list Z) (st : state) : state :=
  {| sh := sh st; spc := spc st; cpc := cpc st;
     framePixels := frame; halted := halted st |}.

Definition halt (st : state) : state :=
  {| sh := sh st; spc := spc st; cpc := cpc st;
     framePixels := framePixels st; halted := true |}.

(** The state when [main] reaches its accept loop.  The source has no
    initialiser for [g_triggerArmed], so its first value is a parameter. *)
Definition initial_state (armed0 : bool) : state :=
  {| sh := {| g_triggerArmed := armed0; g_triggerOneShot := false;
              g_waveformThreadQuit := false; g_mutex := None |};
     spc := S_NotRunning; cpc := C_Accept; framePixels := []; halted := false |}.

Section Threads.

Variable strtod_number : string -> option spec_float.

(** The calibration globals, which no thread writes. *)
Variable cal : caldata.

(** One step of [WaveformServerThread]; [None] when the thread cannot
    move (it waits for the mutex, or it is not running). *)
Definition streamer_step (e : env) (st : state) : option (state * list event) :=
  match spc st with
  | S_NotRunning | S_Exited => None
  | S_Accept =>
      if in_valid e then Some (at_s S_LoopHead st, [])
      else Some (at_s S_Exited st, [])
  | S_LoopHead =>
      if g_waveformThreadQuit (sh st) then Some (at_s S_Exited st, [])
      else Some (at_s S_Poll st, [])
  | S_Poll =>
      if negb (g_triggerArmed (sh st)) then Some (at_s S_LoopHead st, [EvSleep])
      else Some (at_s S_Lock st, [])
  | S_Lock =>
      match g_mutex (sh st) with
      | None => Some (at_s S_Trigger (with_sh (set_mutex (Some Streamer)) st),
                      [EvLock Streamer])
      | Some _ => None
      end
  | S_Trigger =>
      Some (at_s S_GetFrame st,
            EvTrigger (in_err e) ::
            (if in_err e =? 0 then []
             else [EvEffect (error_with_code "failed to trigger acquisition, code "
                               (in_err e))]))
  | S_GetFrame =>
      if in_err e =? 0 then
        Some (at_s S_OneShot
                (with_frame (firstn (Z.to_nat framesize) (in_frame e)) st),
              [EvGetFrame 0])
      else
        Some (at_s S_Exited (with_sh (set_mutex None) st),
              [EvGetFrame (in_err e);
               EvEffect (error_with_code "failed to get frame, code " (in_err e));
               EvUnlock Streamer])
  | S_OneShot =>
      if g_triggerOneShot (sh st)
      then Some (at_s S_Disarm st, [])
      else Some (at_s S_Unlock st, [])
  | S_Disarm =>
      Some (at_s S_Unlock (with_sh (set_triggerArmed false) st), [])
  | S_Unlock =>
      Some (at_s S_Send (with_sh (set_mutex None) st), [EvUnlock Streamer])
  | S_Send =>
      match frame_bytes (g_numPixels cal) (framePixels st) with
      | Ret bytes =>
          Some (at_s (if in_sent e then S_LoopHead else S_Exited) st,
                [EvSend bytes (in_sent e)])
      | _ => Some (halt st, [])
      end
  end.

(** One step of the main thread. *)
Definition control_step (e : env) (st : state) : option (state * list event) :=
  match cpc st with
  | C_Accept =>
      if in_valid e then Some (at_c C_ReadLine (at_s S_Accept st), [])
      else Some (halt st, [])
  | C_ReadLine =>
      match in_request e with
      | ReqStart oneShot =>
          Some (at_c (C_StartOneShot oneShot) (with_sh (set_triggerArmed true) st), [])
      | ReqForceTrigger => Some (with_sh AcquisitionForceTrigger st, [])
      | ReqStop => Some (with_sh AcquisitionStop st, [])
      | ReqCommand line cmd args =>
          if String.eqb cmd "EXPOSURE" then Some (at_c (C_ExpLock args) st, [])
          else Some (st, snd (OnCommand strtod_number false line cmd args 0))
      | ReqQuery base_handled line cmd =>
          match OnQuery cal base_handled line cmd with
          | Ret (_, effects) => Some (st, map EvEffect effects)
          | _ => Some (halt st, [])
          end
      | ReqNoOp => Some (st, [])
      | ReqDisconnect => Some (at_c C_SetQuit st, [])
      end
  | C_StartOneShot oneShot =>
      Some (at_c C_ReadLine (with_sh (set_triggerOneShot oneShot) st), [])
  | C_ExpLock args =>
      match g_mutex (sh st) with
      | None => Some (at_c (C_ExpConvert args) (with_sh (set_mutex (Some Control)) st),
                      [EvLock Control])
      | Some _ => None
      end
  | C_ExpConvert args =>
      match exposure_argument strtod_number args with
      | Ret exposure => Some (at_c (C_ExpSet exposure) st, [])
      | Raise x => Some (at_c (C_Raised x) (with_sh (set_mutex None) st),
                         [EvUnlock Control])
      | _ => Some (halt st, [])
      end
  | C_ExpSet exposure =>
      Some (at_c C_ExpUnlock st, setExposure_events exposure (in_err e))
  | C_ExpUnlock =>
      Some (at_c C_ReadLine (with_sh (set_mutex None) st), [EvUnlock Control])
  | C_Raised _ => None
  | C_SetQuit =>
      Some (at_c C_Join (with_sh (set_waveformThreadQuit true) st), [])
  | C_Join =>
      match spc st with
      | S_Exited => Some (at_c C_ClearQuit (at_s S_NotRunning st), [])
      | _ => None
      end
  | C_ClearQuit =>
      Some (at_c C_Accept (with_sh (set_waveformThreadQuit false) st), [])
  end.

Definition step (t : tid) (e : env) (st : state) : option (state * list event) :=
  if halted st then None
  else match t with
       | Streamer => streamer_step e st
       | Control => control_step e st
       end.

(** An execution under a schedule: the steps that were taken, each
    with the state it led to and its events.  A thread that cannot
    move when it is scheduled is skipped. *)
Fixpoint exec (sched : list (tid * env)) (st : state)
  : list (state * list event) :=
  match sched with
  | [] => []
  | (t, e) :: rest =>
      match step t e st with
      | Some (st', evs) => (st', evs) :: exec rest st'
      | None => exec rest st
      end
  end.

Definition final (st : state) (steps : list (state * list event)) : state :=
  last (map fst steps) st.

Definition events (steps : list (state * list event)) : list event :=
  flat_map snd steps.

Definition reachable (st : state) : Prop :=
  exists armed0 sched, final (initial_state armed0) (exec sched (initial_state armed0)) = st.

End Threads.

(** *** Properties of traces *)

(** The lock discipline on a trace: [owner] holds the mutex, [in_flight]
    says that an acquisition has been triggered and not yet fetched.  A
    trigger and its fetch happen under the data thread's lock, with no
    other trigger in between; [setExposure] happens under the main
    thread's lock; the lock is not released during an acquisition. *)
Fixpoint well_locked (owner : option tid) (in_flight : bool) (tr : list event)
  : bool :=
  match tr with
  | [] => true
  | EvLock t :: rest =>
      match owner with
      | None => well_locked (Some t) in_flight rest
      | Some _ => false
      end
  | EvUnlock t :: rest =>
      match owner with
      | Some t' => tid_eqb t t' && negb in_flight && well_locked None in_flight rest
      | None => false
      end
  | EvTrigger _ :: rest =>
      match owner with
      | Some Streamer => negb in_flight && well_locked owner true rest
      | _ => false
      end
  | EvGetFrame _ :: rest =>
      match owner with
      | Some Streamer => in_flight && well_locked owner false rest
      | _ => false
      end
  | EvSetExposure _ _ :: rest =>
      match owner with
      | Some Control => negb in_flight && well_locked owner in_flight rest
      | _ => false
      end
  | _ :: rest => well_locked owner in_flight rest
  end.

(** A call of [triggerAcquisition] or [getFrame]. *)
Definition is_acquisition (ev : event) : bool :=
  match ev with
  | EvTrigger _ | EvGetFrame _ => true
  | _ => false
  end.

(** The data thread is before the locked block or past the device
    calls. *)
Definition before_acquisition (pc : streamer_pc) : bool :=
  match pc with
  | S_Lock | S_Trigger | S_GetFrame => false
  | _ => true
  end.

(** *** The lock invariant *)

Definition streamer_holds (pc : streamer_pc) : bool :=
  match pc with
  | S_Trigger | S_GetFrame | S_OneShot | S_Disarm | S_Unlock => true
  | _ => false
  end.

Definition control_holds (pc : control_pc) : bool :=
  match pc with
  | C_ExpConvert _ | C_ExpSet _ | C_ExpUnlock => true
  | _ => false
  end.

Definition no_data_thread (pc : control_pc) : bool :=
  match pc with
  | C_Accept | C_ClearQuit => true
  | _ => false
  end.

Definition acquiring (pc : streamer_pc) : bool :=
  match pc with
  | S_GetFrame => true
  | _ => false
  end.

(** The mutex is held exactly by the thread that is inside its locked
    block, the two threads are never both inside, and [main] spawns a
    data thread only when none is running. *)
Definition lock_inv (st : state) : Prop :=
  g_mutex (sh st)
  = (if streamer_holds (spc st) then Some Streamer
     else if control_holds (cpc st) then Some Control else None)
  /\ (streamer_holds (spc st) && control_holds (cpc st))%bool = false
  /\ (no_data_thread (cpc st) = true -> spc st = S_NotRunning).

(** *** Schedules to run the machine on *)

Definition quiet : env :=
  {| in_valid := true; in_request := ReqNoOp; in_err := 0;
     in_frame := []; in_sent := true |}.

(** The control client sends [r]. *)
Definition client (r : request) : env :=
  {| in_valid := true; in_request := r; in_err := 0;
     in_frame := []; in_sent := true |}.

(** The device call returns [err], and [getFrame] stores [frame]. *)
Definition device (err : Z) (frame : list Z) : env :=
  {| in_valid := true; in_request := ReqNoOp; in_err := err;
     in_frame := frame; in_sent := true |}.

(** Both clients connect. *)
Definition session_start : list (tid * env) :=
  [(Control, quiet); (Streamer, quiet)].

(** A repeating start, a poll that reads the flag set, then a stop
    before the data thread takes the lock. *)
Definition stop_race_schedule : list (tid * env) :=
  session_start ++
  [(Control, client (ReqStart false)); (Control, quiet);
   (Streamer, quiet); (Streamer, quiet);
   (Control, client ReqStop);
   (Streamer, quiet)].

(** A force-trigger, then one iteration of the data thread up to the
    end of its one-shot test: loop head, poll, lock, trigger (returning
    [trig_err]), a successful fetch of [frame], the test, and the
    assignment that follows a test which reads the flag set. *)
Definition force_trigger_cycle (trig_err : Z) (frame : list Z) : list (tid * env) :=
  [(Control, client ReqForceTrigger);
   (Streamer, quiet); (Streamer, quiet); (Streamer, quiet);
   (Streamer, device trig_err []);
   (Streamer, device 0 frame);
   (Streamer, quiet); (Streamer, quiet)].

(** A one-shot start and one iteration of the data thread, after which
    the one-shot test is next. *)
Definition one_shot_schedule (frame : list Z) : list (tid * env) :=
  session_start ++
  [(Control, client (ReqStart true)); (Control, quiet);
   (Streamer, quiet); (Streamer, quiet); (Streamer, quiet);
   (Streamer, device 0 []);
   (Streamer, device 0 frame)].

Definition is_fetch (ev : event) : bool :=
  match ev with
  | EvGetFrame _ => true
  | _ => false
  end.


(** [SendLooped] returns [ok]. *)
Definition socket (ok : bool) : env :=
  {| in_valid := true; in_request := ReqNoOp; in_err := 0;
     in_frame := []; in_sent := ok |}.

(** One iteration of the data thread's loop with the trigger armed,
    step by step: loop head, poll, lock, trigger (returning
    [trig_err]), fetch (returning [frame_err] and storing [frame]),
    one-shot test, the assignment to the armed flag when the test
    reads the one-shot flag set ([oneShot]), unlock, send (returning
    [sent]). *)
Definition iteration (oneShot : bool) (trig_err frame_err : Z) (frame : list Z)
           (sent : bool) : list (tid * env) :=
  [(Streamer, quiet); (Streamer, quiet); (Streamer, quiet);
   (Streamer, device trig_err []);
   (Streamer, device frame_err frame);
   (Streamer, quiet)]
  ++ (if oneShot then [(Streamer, quiet)] else [])
  ++ [(Streamer, quiet); (Streamer, socket sent)].

(** [if(0 != (err = triggerAcquisition(...))) LogError(...)] *)
Definition trigger_events (err : Z) : list event :=
  EvTrigger err ::
  (if err =? 0 then []
   else [EvEffect (error_with_code "failed to trigger acquisition, code " err)]).


(** *** Calibration records to run the queries on *)

(** Four pixels, all three tables present. *)
Definition sample_cal4 : caldata :=
  {| g_model := "AS-5216"; g_serial := "00042"; g_numPixels := 4;
     g_wavelengths := map sample_atof ["500.0"; "500.5"; "501.0"; "501.5"];
     g_sensorResponse := map sample_atof ["1.0"; "1.25"; "0.5"; "2.0"];
     g_absResponse := map sample_atof ["0.001"; "0.002"; "0.003"; "0.004"];
     g_absCal := sample_atof "1.5" |}.

(** [sample_cal4] with an infinite first wavelength, as [atof] returns
    it for a line such as [inf] or [1e999]. *)
Definition overflow_cal4 : caldata :=
  {| g_model := "AS-5216"; g_serial := "00042"; g_numPixels := 4;
     g_wavelengths :=
       plain (S754_infinity false)
       :: map sample_atof ["500.5"; "501.0"; "501.5"];
     g_sensorResponse := map sample_atof ["1.0"; "1.25"; "0.5"; "2.0"];
     g_absResponse := [];
     g_absCal := plain (S754_zero false) |}.

(** A first parse and a second one on the globals it left: both
    return, the first leaves [n] entries in each vector, the second
    [2 * n]. *)
Definition two_parses_check (n : Z) (first : outcome caldata)
           (again : caldata -> outcome caldata) : bool :=
  match first with
  | Ret g1 =>
      match again g1 with
      | Ret g2 =>
          (Z.of_nat (List.length (g_wavelengths g1)) =? n)
          && (Z.of_nat (List.length (g_sensorResponse g1)) =? n)
          && (Z.of_nat (List.length (g_wavelengths g2)) =? 2 * n)
          && (Z.of_nat (List.length (g_sensorResponse g2)) =? 2 * n)
      | _ => false
      end
  | _ => false
  end.

(** The layout of [sample_blob] followed by one more line. *)
Definition long_blob : string :=
  unlines (blob_lines 3653 "500.5" "1.25" ++ ["trailer"]).

Definition is_Ret {A : Type} (o : outcome A) : bool :=
  match o with
  | Ret _ => true
  | _ => false
  end.


(** A full frame: 32 dummy pixels, the samples 100, 200, 300 and 65535,
    and dummy pixels up to [framesize]. *)
Definition sample_frame : list Z :=
  repeat 7 32 ++ [100; 200; 300; 65535] ++ repeat 9 3663.

(** *** States to run the machine on *)

(** The state [stop_race_schedule] leads to. *)
Definition stop_race_state : state :=
  final (initial_state false)
    (exec strtod_decimal initial_caldata stop_race_schedule (initial_state false)).



(** Both clients are connected and a repeating acquisition was started
    on a four-pixel device. *)
Definition streaming_state : state :=
  final (initial_state false)
    (exec strtod_decimal sample_cal4
       (session_start ++ [(Control, client (ReqStart false)); (Control, quiet)])
       (initial_state false)).

(** The four pixels of [sample_frame] as they leave: 100.0, 200.0,
    300.0 and 65535.0, little-endian. *)
Definition sample_bytes : list Byte.byte :=
  [Byte.x00; Byte.x00; Byte.xc8; Byte.x42;
   Byte.x00; Byte.x00; Byte.x48; Byte.x43;
   Byte.x00; Byte.x00; Byte.x96; Byte.x43;
   Byte.x00; Byte.xff; Byte.x7f; Byte.x47].


(** A one-shot start and one full iteration of the data thread on a
    four-pixel device: the frame has been sent, the flag is cleared. *)
Definition after_one_shot_state : state :=
  final (initial_state false)
    (exec strtod_decimal sample_cal4
       (one_shot_schedule sample_frame
        ++ [(Streamer, quiet); (Streamer, quiet); (Streamer, quiet);
            (Streamer, quiet)])
       (initial_state false)).

(** The data thread is idle at its loop head and the flag is false; it
    polls twice while the client sends a stop. *)
Definition idle_state : state :=
  final (initial_state false)
    (exec strtod_decimal initial_caldata
       (session_start ++ [(Streamer, quiet)]) (initial_state false)).

Definition idle_schedule : list (tid * env) :=
  [(Streamer, quiet); (Streamer, quiet); (Control, client ReqStop);
   (Streamer, quiet); (Streamer, quiet)].

(** A trace in which [setExposure] falls between a trigger and its
    fetch. *)
Definition interleaved_trace : list event :=
  [EvLock Streamer; EvTrigger 0; EvSetExposure double_1e_10 0;
   EvGetFrame 0; EvUnlock Streamer].

(* ------------------------------------------------------------------ *)
(** ** Strings: what the helpers are checked against                   *)
(* ------------------------------------------------------------------ *)

(** [c] occurs in [s]. *)
Fixpoint contains (c : ascii) (s : string) : bool :=
  match s with
  | EmptyString => false
  | String x rest => Ascii.eqb x c || contains c rest
  end.

(** The fields with [sep] between them. *)
Fixpoint join_with (sep : ascii) (fields : list string) : string :=
  match fields with
  | [] => EmptyString
  | [f] => f
  | f :: rest => String.append f (String sep (join_with sep rest))
  end.

(** A token [explode] can return: not empty, without the separator. *)
Definition is_token (sep : ascii) (t : string) : bool :=
  negb (is_empty t) && negb (contains sep t).

Fixpoint all_space (s : string) : bool :=
  match s with
  | EmptyString => true
  | String c rest => isspace c && all_space rest
  end.

Definition starts_nonspace (s : string) : bool :=
  match s with
  | EmptyString => false
  | String c _ => negb (isspace c)
  end.

Fixpoint ends_nonspace (s : string) : bool :=
  match s with
  | EmptyString => false
  | String c EmptyString => negb (isspace c)
  | String _ rest => ends_nonspace rest
  end.

(** A string with nothing to trim: empty, or with a non-space at both
    ends. *)
Definition trimmed (s : string) : bool :=
  is_empty s || (starts_nonspace s && ends_nonspace s).

(* ------------------------------------------------------------------ *)
(** ** Calibration blobs with a given layout                           *)
(* ------------------------------------------------------------------ *)

(** A line that survives the trip through the flash buffer and
    [explode]: no NUL (the C string would end there) and no newline. *)
Definition clean_line (l : string) : bool :=
  negb (contains zero l) && negb (contains newline l).

(** The layout of [blob_lines] with a separator line that is empty. *)
Definition blank_separator_blob (P : nat) (wl sr : string) : string :=
  unlines ("AS-5216 c.N 00042" :: repeat "#" 11
           ++ repeat wl P ++ [""] ++ repeat sr P).

(* ------------------------------------------------------------------ *)
(** ** Replies and traces: what the handlers are checked against       *)
(* ------------------------------------------------------------------ *)

(** The integer a decimal numeral stands for: an optional minus sign
    and at least one digit, nothing else. *)
Definition Z_of_decimal (s : string) : option Z :=
  match list_ascii_of_string s with
  | [] => None
  | c :: rest =>
      if Ascii.eqb c "-"%char then
        match rest with
        | [] => None
        | _ :: _ => option_map (fun n => - Z.of_N n) (digits_value rest 0)
        end
      else option_map Z.of_N (digits_value (c :: rest) 0)
  end.

Definition is_reply (e : effect) : bool :=
  match e with
  | SendReply _ => true
  | Log _ _ => false
  end.

(** An event that reaches the control client. *)
Definition event_replies (ev : event) : bool :=
  match ev with
  | EvEffect e => is_reply e
  | _ => false
  end.

(** Who holds the mutex after a trace, [owner] holding it before. *)
Fixpoint owner_after (owner : option tid) (tr : list event) : option tid :=
  match tr with
  | [] => owner
  | EvLock t :: rest => owner_after (Some t) rest
  | EvUnlock _ :: rest => owner_after None rest
  | _ :: rest => owner_after owner rest
  end.

(** A call into the device SDK. *)
Definition is_device_call (ev : event) : bool :=
  match ev with
  | EvTrigger _ | EvGetFrame _ | EvSetExposure _ _ => true
  | _ => false
  end.

(* ------------------------------------------------------------------ *)
(** ** Iterations and sessions of the two threads                      *)
(* ------------------------------------------------------------------ *)

(** A one-shot start whose two assignments are separated by a whole
    iteration of the data thread, followed by one more iteration. *)
Definition split_start (frame1 frame2 : list Z) : list (tid * env) :=
  [(Control, client (ReqStart true))]
  ++ iteration false 0 0 frame1 true
  ++ [(Control, quiet)]
  ++ iteration true 0 0 frame2 true.

(** [main] is between raising the quit flag and lowering it again. *)
Definition tearing_down (pc : control_pc) : bool :=
  match pc with
  | C_Join | C_ClearQuit => true
  | _ => false
  end.

Definition not_running (pc : streamer_pc) : bool :=
  match pc with
  | S_NotRunning => true
  | _ => false
  end.

(** How many of its own steps the data thread needs at most to return
    once the quit flag is up. *)
Definition steps_to_exit (pc : streamer_pc) : nat :=
  match pc with
  | S_NotRunning | S_Exited => 0
  | S_LoopHead => 1
  | S_Accept | S_Send => 2
  | S_Unlock => 3
  | S_Disarm => 4
  | S_OneShot => 5
  | S_GetFrame => 6
  | S_Trigger => 7
  | S_Lock => 8
  | S_Poll => 9
  end.

(** [t] scheduled once for each of [envs]. *)
Definition alone (t : tid) (envs : list env) : list (tid * env) :=
  map (pair t) envs.

(** A session that is closed by the control client while the trigger
    is armed: both clients connect, a repeating start, the data thread
    polls, the client disconnects, [main] raises the quit flag. *)
Definition disconnect_schedule : list (tid * env) :=
  session_start ++
  [(Control, client (ReqStart false)); (Control, quiet);
   (Streamer, quiet); (Streamer, quiet);
   (Control, client ReqDisconnect); (Control, quiet)].

(** The data thread waits for the lock while the handler of [EXPOSURE]
    holds it. *)
Definition contended_schedule : list (tid * env) :=
  session_start ++
  [(Control, client (ReqStart false)); (Control, quiet);
   (Streamer, quiet); (Streamer, quiet);
   (Control, client (ReqCommand "EXPOSURE 1000" "EXPOSURE" ["1000"]));
   (Control, quiet)].

(** The quit flag is up exactly while [main] tears a session down, and
    a data thread exists exactly while [main] is past its [Accept] and
    before the end of its [join]. *)
Definition session_inv (st : state) : Prop :=
  g_waveformThreadQuit (sh st) = tearing_down (cpc st)
  /\ not_running (spc st) = no_data_thread (cpc st).

(** How many steps the thread that holds the mutex needs at most to
    leave its locked block. *)
Definition steps_to_unlock (st : state) : nat :=
  match spc st with
  | S_Trigger => 5
  | S_GetFrame => 4
  | S_OneShot => 3
  | S_Disarm => 2
  | S_Unlock => 1
  | _ =>
      match cpc st with
      | C_ExpConvert _ => 3
      | C_ExpSet _ => 2
      | C_ExpUnlock => 1
      | _ => 0
      end
  end.

(** One iteration after the other, one for each frame the device
    delivers; every call succeeds. *)
Definition free_run (frames : list (list Z)) : list (tid * env) :=
  flat_map (fun frame => iteration false 0 0 frame true) frames.

(** What one successful iteration does with the device and the data
    socket. *)
Definition frame_events (bytes : list Byte.byte) : list event :=
  [EvLock Streamer; EvTrigger 0; EvGetFrame 0; EvUnlock Streamer;
   EvSend bytes true].

(** *** States and data to run the iterations on *)

(** Both clients are connected and the trigger has not been armed. *)
Definition connected_state : state :=
  final (initial_state false)
    (exec strtod_decimal sample_cal4 session_start (initial_state false)).

(** The state [contended_schedule] leads to: the handler of [EXPOSURE]
    holds the mutex, the data thread waits for it. *)
Definition contended_state : state :=
  final (initial_state false)
    (exec strtod_decimal sample_cal4 contended_schedule (initial_state false)).

(** The state [disconnect_schedule] leads to: [main] waits in [join]. *)
Definition disconnected_state : state :=
  final (initial_state false)
    (exec strtod_decimal sample_cal4 disconnect_schedule (initial_state false)).

(* ------------------------------------------------------------------ *)
(** ** The command line of [main]                                      *)
(* ------------------------------------------------------------------ *)

(** What [help] writes to [stderr]. *)
Definition help_text : string :=
  unlines
    ["specbridge [general options] [logger options]";
     "";
     "  [general options]:";
     "    --help                        : this message...";
     "    --scpi-port port              : specifies the SCPI control plane port (default 5025)";
     "    --waveform-port port          : specifies the binary waveform data port (default 5026)";
     "";
     "  [logger options]:";
     "    levels: ERROR, WARNING, NOTICE, VERBOSE, DEBUG";
     "    --quiet|-q                    : reduce logging level by one step";
     "    --verbose                     : set logging level to VERBOSE";
     "    --debug                       : set logging level to DEBUG";
     "    --trace <classname>|          : name of class with tracing messages. (Only relevant when logging level is DEBUG.)";
     "            <classname::function>";
     "    --logfile|-l <filename>       : output log messages to file";
     "    --logfile-lines|-L <filename> : output log messages to file, with line buffering";
     "    --stdout-only                 : writes errors/warnings to stdout instead of stderr"].

Definition double_quote : ascii := ascii_of_N 34.

(** The text of
    [fprintf(stderr, "Unrecognized command-line argument \"%s\", use --help\n", s.c_str())]. *)
Definition unrecognized_text (s : string) : string :=
  String.append "Unrecognized command-line argument "
    (String double_quote
       (String.append s
          (String double_quote
             (String.append ", use --help" (String newline ""))))).

(** The locals of [main] that the command line sets; the two ports are
    [uint16_t]. *)
Record options : Type := mkOptions {
  console_verbosity : severity;
  scpi_port : Z;
  waveform_port : Z
}.

Definition initial_options : options :=
  {| console_verbosity := NOTICE; scpi_port := 5025; waveform_port := 5026 |}.

Definition set_console_verbosity (v : severity) (o : options) : options :=
  {| console_verbosity := v; scpi_port := scpi_port o;
     waveform_port := waveform_port o |}.

Definition set_scpi_port (p : Z) (o : options) : options :=
  {| console_verbosity := console_verbosity o; scpi_port := p;
     waveform_port := waveform_port o |}.

Definition set_waveform_port (p : Z) (o : options) : options :=
  {| console_verbosity := console_verbosity o; scpi_port := scpi_port o;
     waveform_port := p |}.

(** The conversion of an [int] to [uint16_t]. *)
Definition uint16_of_int (n : Z) : Z := n mod 65536.

Section CommandLine.

(** [ParseLoggerArguments(i, argc, argv, console_verbosity)] of the
    logging library: whether it took the argument at [i], and the
    values it leaves in [i] and [console_verbosity], which it gets by
    reference. *)
Variable ParseLoggerArguments : Z -> list string -> severity -> bool * Z * severity.

Variable atoi : string -> Z.

(** The loop [for(int i=1; i<argc; i++)] of [main] from index [i] on,
    with at most [fuel] iterations: what [main] returns there ([Exit]),
    or the options when the loop ends ([Ret]), and what it wrote to
    [stderr].  [None] when [fuel] iterations do not end the loop. *)
Fixpoint parse_args (fuel : nat) (argv : list string) (i : Z) (o : options)
  : option (outcome options * list string) :=
  match fuel with
  | O => None
  | S fuel' =>
      if i <? Z.of_nat (List.length argv) then
        match vec_at argv i with
        | Ret s =>
            let '(handled, i1, v1) :=
              ParseLoggerArguments i argv (console_verbosity o) in
            let o1 := set_console_verbosity v1 o in
            if handled then parse_args fuel' argv (i1 + 1) o1
            else if String.eqb s "--help" then
              Some (Exit 0, [help_text])
            else if String.eqb s "--scpi-port" then
              if i1 + 1 <? Z.of_nat (List.length argv) then
                match vec_at argv (i1 + 1) with
                | Ret a =>
                    parse_args fuel' argv (i1 + 1 + 1)
                               (set_scpi_port (uint16_of_int (atoi a)) o1)
                | _ => Some (Undefined, [])
                end
              else parse_args fuel' argv (i1 + 1) o1
            else if String.eqb s "--waveform-port" then
              if i1 + 1 <? Z.of_nat (List.length argv) then
                match vec_at argv (i1 + 1) with
                | Ret a =>
                    parse_args fuel' argv (i1 + 1 + 1)
                               (set_waveform_port (uint16_of_int (atoi a)) o1)
                | _ => Some (Undefined, [])
                end
              else parse_args fuel' argv (i1 + 1) o1
            else Some (Exit 1, [unrecognized_text s])
        | _ => Some (Undefined, [])
        end
      else Some (Ret o, [])
  end.

(** The command-line part of [main]: [argc] iterations are enough when
    the logging library never moves [i] backwards. *)
Definition parse_command_line (argv : list string)
  : option (outcome options * list string) :=
  parse_args (List.length argv) argv 1 initial_options.

End CommandLine.

(** The two options of [main] that take a value. *)
Inductive port_option : Type := ScpiPort | WaveformPort.

Definition option_name (p : port_option) : string :=
  match p with
  | ScpiPort => "--scpi-port"
  | WaveformPort => "--waveform-port"
  end.

(** The words of a command line that gives each option of [given] its
    value. *)
Definition option_words (given : list (port_option * string)) : list string :=
  flat_map (fun pv => [option_name (fst pv); snd pv]) given.

Definition apply_option (atoi : string -> Z) (o : options)
           (pv : port_option * string) : options :=
  match fst pv with
  | ScpiPort => set_scpi_port (uint16_of_int (atoi (snd pv))) o
  | WaveformPort => set_waveform_port (uint16_of_int (atoi (snd pv))) o
  end.

(** Whether [s] is one of the three options [main] knows. *)
Definition is_main_option (s : string) : bool :=
  String.eqb s "--help" || String.eqb s "--scpi-port"
  || String.eqb s "--waveform-port".

(** A logging library that takes no argument. *)
Definition no_logger_option (i : Z) (argv : list string) (v : severity)
  : bool * Z * severity :=
  (false, i, v).


(** An instance of [atoi] for running the model on words that are
    decimal numerals and fit an [int]: it is [atoi] on those, and the
    sample command lines give no other word as a value. *)
Definition sample_atoi (s : string) : Z :=
  match Z_of_decimal s with
  | Some z => z
  | None => 0
  end.


(* ================================================================== *)
(** * Properties                                                       *)
(* ================================================================== *)

(** ** Vector indexing *)

Lemma vec_at_Ret {A : Type} (v : list A) (i : Z) (x : A) :
  vec_at v i = Ret x <-> 0 <= i /\ nth_error v (Z.to_nat i) = Some x.
Proof.
  unfold vec_at. destruct (Z.ltb_spec i 0) as [Hneg | Hpos].
  - split; [discriminate | intros [H _]; lia].
  - destruct (nth_error v (Z.to_nat i)) as [y |].
    + split; [intros [= ->]; auto | intros [_ [= ->]]; reflexivity].
    + split; [discriminate | intros [_ H]; discriminate].
Qed.

Lemma vec_at_in_range {A : Type} (v : list A) (i : Z) :
  0 <= i < Z.of_nat (List.length v) -> exists x, vec_at v i = Ret x.
Proof.
  intros Hi. unfold vec_at.
  destruct (Z.ltb_spec i 0) as [Hneg | _]; [lia |].
  destruct (nth_error v (Z.to_nat i)) as [x |] eqn:E; [eauto |].
  apply nth_error_None in E. lia.
Qed.

Lemma vec_at_out_of_range {A : Type} (v : list A) (i : Z) :
  i < 0 \/ Z.of_nat (List.length v) <= i -> vec_at v i = Undefined.
Proof.
  intros Hi. unfold vec_at.
  destruct (Z.ltb_spec i 0) as [Hneg | Hpos]; [reflexivity |].
  destruct (nth_error v (Z.to_nat i)) as [x |] eqn:E; [| reflexivity].
  assert (nth_error v (Z.to_nat i) <> None) as Hn by congruence.
  apply nth_error_Some in Hn. lia.
Qed.


(** ** The outcome monad *)

Lemma bind_Ret_inv {A B : Type} (m : outcome A) (k : A -> outcome B) (b : B) :
  (x <- m ;; k x) = Ret b -> exists a, m = Ret a /\ k a = Ret b.
Proof. destruct m as [a | c | e |]; simpl; try discriminate. eauto. Qed.

Ltac bind_inv H :=
  let a := fresh "a" in
  let Ha := fresh "H" a in
  apply bind_Ret_inv in H; destruct H as (a & Ha & H).

Lemma vec_at_cases {A : Type} (v : list A) (i : Z) :
  (exists x, vec_at v i = Ret x) \/ vec_at v i = Undefined.
Proof.
  unfold vec_at. destruct (i <? 0); [now right |].
  destruct (nth_error v (Z.to_nat i)); eauto.
Qed.

Lemma vec_at_app_l {A : Type} (v w : list A) (i : Z) (x : A) :
  vec_at v i = Ret x -> vec_at (v ++ w) i = Ret x.
Proof.
  rewrite !vec_at_Ret. intros [Hi Hx]. split; [exact Hi |].
  rewrite nth_error_app1; [exact Hx |].
  apply nth_error_Some. congruence.
Qed.

(** ** The calibration store *)

Section CalibrationFacts.

Variable atof : string -> cfloat.

(** A table read appends [count] values that depend on the lines only. *)
Lemma read_table_appends (lines : list string) (off : Z) (count : nat) :
  forall (i : Z) (vec vec' : list cfloat),
    read_table atof lines off count i vec = Ret vec' ->
    exists added,
      vec' = vec ++ added /\ List.length added = count /\
      forall other, read_table atof lines off count i other = Ret (other ++ added).
Proof.
  induction count as [| k IH]; intros i vec vec' H.
  - injection H as <-. exists []. rewrite app_nil_r.
    repeat split. intros other. simpl. now rewrite app_nil_r.
  - cbn [read_table] in H. bind_inv H.
    destruct (IH _ _ _ H) as (added & -> & Hlen & Hother).
    exists (atof a :: added). rewrite <- app_assoc. repeat split.
    + simpl. now rewrite Hlen.
    + intros other. cbn [read_table]. rewrite Ha. cbn [bind].
      rewrite Hother, <- app_assoc. reflexivity.
Qed.

Lemma read_table_cases (lines : list string) (off : Z) (count : nat) :
  forall (i : Z) (vec : list cfloat),
    (exists vec', read_table atof lines off count i vec = Ret vec')
    \/ read_table atof lines off count i vec = Undefined.
Proof.
  induction count as [| k IH]; intros i vec; [left; simpl; eauto |].
  cbn [read_table].
  destruct (vec_at_cases lines (i + off)) as [[x ->] | ->]; [apply IH | now right].
Qed.

(** A table that runs past the last line cannot be read. *)
Lemma read_table_past_end (lines : list string) (off : Z) (count : nat) :
  forall (i : Z) (vec : list cfloat),
    Z.of_nat (List.length lines) < i + off + Z.of_nat count ->
    (0 < count)%nat ->
    read_table atof lines off count i vec = Undefined.
Proof.
  induction count as [| k IH]; intros i vec Hlen Hpos; [lia |].
  cbn [read_table].
  destruct (Z.lt_ge_cases (i + off) (Z.of_nat (List.length lines))) as [Hin | Hout].
  - destruct (vec_at_cases lines (i + off)) as [[x ->] | ->]; [| reflexivity].
    cbn [bind]. apply IH; lia.
  - rewrite vec_at_out_of_range by lia. reflexivity.
Qed.

Lemma parse_cal_cases (buf : string) (g0 : caldata) :
  (exists g, parse_cal atof buf g0 = Ret g) \/ parse_cal atof buf g0 = Undefined.
Proof.
  unfold parse_cal.
  repeat match goal with
         | |- context [bind (vec_at ?v ?i) _] =>
             destruct (vec_at_cases v i) as [[? ->] | ->]; [cbn [bind] | now right]
         | |- context [bind (read_table atof ?l ?o ?c ?i ?v) _] =>
             destruct (read_table_cases l o c i v) as [[? ->] | ->];
             [cbn [bind] | now right]
         end.
  left. eauto.
Qed.

(** The blob's line count is never checked: with fewer lines than the
    two tables need, [ReadCalData] indexes [lines] out of range. *)
Lemma parse_cal_too_few_lines (buf : string) (g0 : caldata) :
  1 <= g_numPixels g0 ->
  Z.of_nat (List.length (explode (c_str buf) newline)) < 2 * g_numPixels g0 + 13 ->
  parse_cal atof buf g0 = Undefined.
Proof.
  intros HP Hlen.
  destruct (parse_cal_cases buf g0) as [[g H] | H]; [exfalso | exact H].
  unfold parse_cal in H. do 7 bind_inv H.
  rewrite read_table_past_end in H; [discriminate | lia | lia].
Qed.

Lemma parse_cal_frame (buf : string) (g0 g1 : caldata) :
  parse_cal atof buf g0 = Ret g1 ->
  g_numPixels g1 = g_numPixels g0 /\
  g_absResponse g1 = g_absResponse g0 /\
  g_absCal g1 = g_absCal g0.
Proof.
  unfold parse_cal. intros H. do 11 bind_inv H. injection H as <-. now simpl.
Qed.

Lemma parse_cal_twice (buf : string) (g0 g1 : caldata) :
  parse_cal atof buf g0 = Ret g1 ->
  exists w s,
    g_wavelengths g1 = g_wavelengths g0 ++ w /\
    g_sensorResponse g1 = g_sensorResponse g0 ++ s /\
    List.length w = Z.to_nat (g_numPixels g0) /\
    List.length s = Z.to_nat (g_numPixels g0) /\
    exists g2,
      parse_cal atof buf g1 = Ret g2 /\
      g_wavelengths g2 = g_wavelengths g1 ++ w /\
      g_sensorResponse g2 = g_sensorResponse g1 ++ s.
Proof.
  unfold parse_cal. intros H. do 11 bind_inv H. injection H as <-.
  destruct (read_table_appends _ _ _ _ _ _ Ha3) as (w & -> & Hw & Hw').
  destruct (read_table_appends _ _ _ _ _ _ Ha6) as (s & -> & Hs & Hs').
  exists w, s. cbn [g_wavelengths g_sensorResponse g_numPixels].
  split; [reflexivity |]. split; [reflexivity |].
  split; [exact Hw |]. split; [exact Hs |].
  rewrite Ha. cbn [bind]. rewrite Ha0, Ha1, Ha2. cbn [bind].
  rewrite Hw'. cbn [bind].
  rewrite (vec_at_app_l _ w _ _ Ha4), (vec_at_app_l _ w _ _ Ha5). cbn [bind].
  rewrite Hs'. cbn [bind].
  rewrite (vec_at_app_l _ s _ _ Ha7), (vec_at_app_l _ s _ _ Ha8),
    (vec_at_app_l _ s _ _ Ha9). cbn [bind].
  eexists. split; [reflexivity |]. now simpl.
Qed.

End CalibrationFacts.

(** ** Decimal digits *)

Lemma is_digit_digit_char (d : N) : (d < 10)%N -> is_digit (digit_char d) = true.
Proof.
  intros Hd. unfold is_digit, digit_char.
  rewrite N_ascii_embedding by lia.
  apply andb_true_iff. split; apply N.leb_le; lia.
Qed.

Lemma digit_char_mod10 (n : N) : is_digit (digit_char (n mod 10)) = true.
Proof. apply is_digit_digit_char. apply N.mod_lt. discriminate. Qed.

Lemma dec_rev_all_digits (fuel : nat) (n : N) :
  forallb is_digit (dec_rev fuel n) = true.
Proof.
  revert n. induction fuel as [| f IH]; intros n; simpl; [reflexivity |].
  rewrite digit_char_mod10. simpl.
  destruct (n / 10 =? 0)%N; [reflexivity | apply IH].
Qed.

Lemma dec_rev_length (fuel k : nat) (n : N) :
  (n < 10 ^ N.of_nat (S k))%N -> (List.length (dec_rev fuel n) <= S k)%nat.
Proof.
  revert k n. induction fuel as [| f IH]; intros k n Hn; simpl; [lia |].
  destruct (N.eqb_spec (n / 10) 0) as [Hz | Hnz]; simpl; [lia |].
  destruct k as [| k].
  - exfalso. apply Hnz. apply N.div_small. simpl in Hn. exact Hn.
  - apply le_n_S. apply IH.
    apply N.Div0.div_lt_upper_bound.
    replace (10 * 10 ^ N.of_nat (S k))%N with (10 ^ N.of_nat (S (S k)))%N; [exact Hn |].
    rewrite (Nnat.Nat2N.inj_succ (S k)). rewrite N.pow_succ_r'. reflexivity.
Qed.

Lemma forallb_rev_true {A : Type} (f : A -> bool) (l : list A) :
  forallb f l = true -> forallb f (rev l) = true.
Proof.
  rewrite !forallb_forall. intros H x Hx. apply H. now apply in_rev.
Qed.

Lemma dec_digits_all_digits (n : N) : forallb is_digit (dec_digits n) = true.
Proof.
  unfold dec_digits. apply forallb_rev_true. apply dec_rev_all_digits.
Qed.

Lemma dec_digits_length (k : nat) (n : N) :
  (n < 10 ^ N.of_nat (S k))%N -> (1 <= List.length (dec_digits n) <= S k)%nat.
Proof.
  intros Hn. unfold dec_digits. rewrite length_rev. split.
  - simpl. lia.
  - apply dec_rev_length. exact Hn.
Qed.

Lemma frac_digits_length (prec : nat) (f : N) :
  List.length (frac_digits prec f) = prec.
Proof. induction prec as [| k IH]; simpl; [reflexivity | now rewrite IH]. Qed.

Lemma frac_digits_all_digits (prec : nat) (f : N) :
  forallb is_digit (frac_digits prec f) = true.
Proof.
  induction prec as [| k IH]; simpl; [reflexivity |].
  rewrite digit_char_mod10. exact IH.
Qed.

(** ** The text of a floating-point value *)

Lemma is_digit_not_comma (c : ascii) :
  is_digit c = true -> negb (Ascii.eqb c ","%char) = true.
Proof.
  intros Hc. destruct (Ascii.eqb_spec c ","%char) as [-> | _]; [discriminate | reflexivity].
Qed.

Lemma all_digits_no_comma (l : list ascii) :
  forallb is_digit l = true -> no_comma l = true.
Proof.
  unfold no_comma. rewrite !forallb_forall. intros H c Hc.
  apply is_digit_not_comma. now apply H.
Qed.

Lemma no_comma_app (l1 l2 : list ascii) :
  no_comma (l1 ++ l2) = (no_comma l1 && no_comma l2)%bool.
Proof. apply forallb_app. Qed.

Lemma sign_chars_no_comma (s : bool) : no_comma (sign_chars s) = true.
Proof. now destruct s. Qed.

Lemma fixed_digits_no_comma (prec : nat) (q : N) :
  no_comma (fixed_digits prec q) = true.
Proof.
  unfold fixed_digits. rewrite no_comma_app.
  rewrite (all_digits_no_comma _ (dec_digits_all_digits _)). simpl.
  destruct prec as [| k]; [reflexivity |].
  change (no_comma ("."%char :: frac_digits (S k) (q mod 10 ^ N.of_nat (S k))) = true).
  unfold no_comma. cbn [forallb]. 
  change (forallb (fun c => negb (Ascii.eqb c ","%char)) (frac_digits (S k) (q mod 10 ^ N.of_nat (S k))))
    with (no_comma (frac_digits (S k) (q mod 10 ^ N.of_nat (S k)))).
  rewrite (all_digits_no_comma _ (frac_digits_all_digits _ _)). reflexivity.
Qed.

Lemma fmt_fixed_no_comma (prec : nat) (x : cfloat) :
  no_comma (fmt_fixed prec x) = true.
Proof.
  destruct x as [[s | s | | s m e] ns]; unfold fmt_fixed; cbn [num nan_sign];
    rewrite ?no_comma_app, ?sign_chars_no_comma, ?fixed_digits_no_comma; reflexivity.
Qed.

(** Fixed notation with three decimals has the shape that
    [three_decimals] recognises. *)
Lemma strip_minus_digit (d : ascii) (rest : list ascii) :
  is_digit d = true -> strip_minus (d :: rest) = d :: rest.
Proof.
  intros Hd. unfold strip_minus.
  destruct (Ascii.eqb_spec d "-"%char) as [-> | Hne]; [discriminate |].
  destruct d as [[] [] [] [] [] [] [] []]; try reflexivity. now elim Hne.
Qed.

Lemma unsigned_three_decimals_fixed (q : N) :
  unsigned_three_decimals (fixed_digits 3 q) = true.
Proof.
  unfold fixed_digits, unsigned_three_decimals.
  set (ip := dec_digits (q / 10 ^ N.of_nat 3)).
  assert (Hip : forallb is_digit ip = true) by apply dec_digits_all_digits.
  assert (Hlen : (1 <= List.length ip)%nat).
  { unfold ip, dec_digits. rewrite length_rev. simpl. lia. }
  cbn [frac_digits]. rewrite rev_app_distr. cbn [rev app].
  rewrite !digit_char_mod10. cbn [andb Ascii.eqb Bool.eqb].
  rewrite length_rev. rewrite (forallb_rev_true _ _ Hip).
  destruct (List.length ip); [lia | reflexivity].
Qed.

Lemma fixed_digits_head (prec : nat) (q : N) :
  exists d rest, fixed_digits prec q = d :: rest /\ is_digit d = true.
Proof.
  unfold fixed_digits.
  pose proof (dec_digits_all_digits (q / 10 ^ N.of_nat prec)) as Hd.
  assert (Hlen : (1 <= List.length (dec_digits (q / 10 ^ N.of_nat prec)))%nat).
  { unfold dec_digits. rewrite length_rev. simpl. lia. }
  destruct (dec_digits (q / 10 ^ N.of_nat prec)) as [| d ds]; [simpl in Hlen; lia |].
  simpl in Hd. apply andb_true_iff in Hd. destruct Hd as [Hd _].
  exists d. eexists. split; [reflexivity | exact Hd].
Qed.

Lemma three_decimals_fixed (s : bool) (q : N) :
  three_decimals (sign_chars s ++ fixed_digits 3 q) = true.
Proof.
  unfold three_decimals. destruct s; cbn [sign_chars app strip_minus].
  - apply unsigned_three_decimals_fixed.
  - destruct (fixed_digits_head 3 q) as (d & rest & E & Hd).
    rewrite E, (strip_minus_digit d rest Hd), <- E.
    apply unsigned_three_decimals_fixed.
Qed.

Lemma fmt_fixed_three_decimals (x : cfloat) :
  is_finite x = true -> three_decimals (fmt_fixed 3 x) = true.
Proof.
  destruct x as [[s | s | | s m e] ns]; unfold is_finite, fmt_fixed; cbn [num];
    try discriminate; intros _; apply three_decimals_fixed.
Qed.

(** ** Reading fixed notation back *)

Lemma digits_value_app (a b : list ascii) :
  forall acc,
    digits_value (a ++ b) acc
    = match digits_value a acc with
      | Some v => digits_value b v
      | None => None
      end.
Proof.
  induction a as [| c a IH]; intros acc; [reflexivity |].
  cbn [app digits_value]. destruct (is_digit c); [apply IH | reflexivity].
Qed.

Lemma digit_char_value (d : N) : (d < 10)%N -> (N_of_ascii (digit_char d) - 48 = d)%N.
Proof.
  intros Hd. unfold digit_char. rewrite N_ascii_embedding by lia. lia.
Qed.

Lemma dec_rev_value (fuel : nat) :
  forall n, (n < 2 ^ N.of_nat fuel)%N ->
            digits_value (rev (dec_rev fuel n)) 0 = Some n.
Proof.
  induction fuel as [| f IH]; intros n Hn.
  - cbn in Hn. assert (n = 0%N) by lia. subst. reflexivity.
  - cbn [dec_rev].
    assert (Hd : (n mod 10 < 10)%N) by (apply N.mod_lt; discriminate).
    assert (Hsplit : n = (10 * (n / 10) + n mod 10)%N) by (apply N.div_mod; discriminate).
    destruct (N.eqb_spec (n / 10) 0) as [Hz | Hnz].
    + cbn [rev app digits_value]. rewrite (is_digit_digit_char _ Hd).
      rewrite digit_char_value by exact Hd. f_equal. lia.
    + cbn [rev]. rewrite digits_value_app.
      rewrite IH.
      * cbn [digits_value]. rewrite (is_digit_digit_char _ Hd).
        rewrite digit_char_value by exact Hd. f_equal. lia.
      * rewrite Nnat.Nat2N.inj_succ, N.pow_succ_r' in Hn.
        apply N.Div0.div_lt_upper_bound. lia.
Qed.

Lemma dec_digits_value (n : N) : digits_value (dec_digits n) 0 = Some n.
Proof.
  unfold dec_digits. apply dec_rev_value.
  rewrite Nnat.Nat2N.inj_succ, Nnat.N2Nat.id.
  destruct n as [| p]; [reflexivity |].
  apply N.log2_lt_pow2; lia.
Qed.

Lemma frac_digits_3_value (ip : list ascii) (a f : N) :
  digits_value ip 0 = Some a -> (f < 1000)%N ->
  digits_value (ip ++ frac_digits 3 f) 0 = Some (1000 * a + f)%N.
Proof.
  intros Ha Hf. rewrite digits_value_app, Ha. cbn [frac_digits digits_value].
  change (10 ^ N.of_nat 2)%N with 100%N. change (10 ^ N.of_nat 1)%N with 10%N.
  change (10 ^ N.of_nat 0)%N with 1%N.
  rewrite !digit_char_mod10.
  rewrite !digit_char_value by (apply N.mod_lt; discriminate).
  f_equal.
  assert (H1 : (f / 1 = f)%N) by apply N.div_1_r.
  assert (H2 : f = (10 * (f / 10) + f mod 10)%N) by (apply N.div_mod; discriminate).
  assert (H3 : (f / 10 = 10 * (f / 10 / 10) + (f / 10) mod 10)%N)
    by (apply N.div_mod; discriminate).
  assert (H4 : (f / 100 = f / 10 / 10)%N)
    by (rewrite N.Div0.div_div; reflexivity).
  assert (H5 : (f / 100 < 10)%N) by (apply N.Div0.div_lt_upper_bound; lia).
  assert (H6 : ((f / 100) mod 10 = f / 100)%N) by (apply N.mod_small; exact H5).
  rewrite H1, H6, H4. lia.
Qed.

Lemma read_unsigned_fixed (q : N) :
  exists d3 d2 d1 ip,
    rev (fixed_digits 3 q) = d3 :: d2 :: d1 :: "."%char :: ip /\
    (1 <= List.length ip)%nat /\
    digits_value (rev ip ++ [d1; d2; d3]) 0 = Some q.
Proof.
  unfold fixed_digits.
  set (a := (q / 10 ^ N.of_nat 3)%N). set (f := (q mod 10 ^ N.of_nat 3)%N).
  assert (Hf : (f < 1000)%N) by (apply N.mod_lt; discriminate).
  assert (Hq : q = (1000 * a + f)%N) by (apply N.div_mod; discriminate).
  pose proof (frac_digits_3_value (dec_digits a) a f (dec_digits_value a) Hf) as Hv.
  cbn [frac_digits] in *. rewrite rev_app_distr. cbn [rev app].
  do 4 eexists. split; [reflexivity |]. split.
  - unfold dec_digits. rewrite !length_rev. simpl. lia.
  - rewrite rev_involutive, Hv, <- Hq. reflexivity.
Qed.

Lemma read_thousandths_fixed (s : bool) (q : N) :
  read_thousandths (sign_chars s ++ fixed_digits 3 q) = Some (s, q).
Proof.
  destruct (read_unsigned_fixed q) as (d3 & d2 & d1 & ip & Hrev & Hlen & Hv).
  destruct (fixed_digits_head 3 q) as (d & rest & E & Hd).
  assert (Hbody : strip_minus (sign_chars s ++ fixed_digits 3 q) = fixed_digits 3 q).
  { destruct s; cbn [sign_chars app strip_minus]; [reflexivity |].
    rewrite E. apply strip_minus_digit. exact Hd. }
  assert (Hneg : match sign_chars s ++ fixed_digits 3 q with
                 | "-"%char :: _ => true
                 | _ => false
                 end = s).
  { destruct s; cbn [sign_chars app]; [reflexivity |]. rewrite E.
    destruct (Ascii.eqb_spec d "-"%char) as [-> | Hne]; [discriminate Hd |].
    destruct d as [[] [] [] [] [] [] [] []]; try reflexivity. now elim Hne. }
  unfold read_thousandths. rewrite Hbody, Hneg, Hrev.
  cbn [Ascii.eqb Bool.eqb andb].
  destruct (List.length ip) as [| n] eqn:El; [lia |].
  cbn [Nat.eqb negb]. rewrite Hv. reflexivity.
Qed.

Lemma round_half_even_nearest (num den : N) :
  (0 < den)%N ->
  let q := round_half_even num den in
  (2 * num <= 2 * (q * den) + den)%N /\ (2 * (q * den) <= 2 * num + den)%N.
Proof.
  intros Hden. unfold round_half_even.
  assert (Hsplit : num = (den * (num / den) + num mod den)%N)
    by (apply N.div_mod; lia).
  assert (Hr : (num mod den < den)%N) by (apply N.mod_lt; lia).
  set (k := (num / den)%N) in *. set (r := (num mod den)%N) in *.
  destruct (N.compare_spec (2 * r) den) as [He | Hl | Hg];
    [destruct (N.even k) | |]; cbn zeta; nia.
Qed.

Lemma scaled_3_nearest (m : positive) (e : Z) :
  nearest_thousandth m e (scaled 3 m e) = true.
Proof.
  unfold nearest_thousandth, scaled. change (10 ^ N.of_nat 3)%N with 1000%N.
  destruct e as [| p | p].
  - apply N.eqb_eq. cbn. lia.
  - apply N.eqb_eq. cbn [Z.to_N]. lia.
  - assert (Hden : (0 < 2 ^ Npos p)%N).
    { apply N.neq_0_lt_0. apply N.pow_nonzero. discriminate. }
    destruct (round_half_even_nearest (Npos m * 1000) (2 ^ Npos p) Hden) as [H1 H2].
    apply andb_true_iff. split; apply N.leb_le; lia.
Qed.

(** The text [fmt_fixed] gives reads back as the value it was given. *)
Lemma fmt_fixed_token_of (x : cfloat) : token_of x (fmt_fixed 3 x) = true.
Proof.
  destruct x as [[s | s | | s m e] ns]; unfold token_of, fmt_fixed; cbn [num nan_sign].
  - rewrite read_thousandths_fixed. rewrite Bool.eqb_reflx. reflexivity.
  - destruct s; reflexivity.
  - destruct ns; reflexivity.
  - rewrite read_thousandths_fixed. rewrite Bool.eqb_reflx, scaled_3_nearest. reflexivity.
Qed.

(** ** Bounds on a binary32 value and on the length of its text *)

Lemma digits2_pos_size (m : positive) : digits2_pos m = Pos.size m.
Proof. induction m as [p IH | p IH |]; simpl; now rewrite ?IH. Qed.

Lemma is_float_finite_bounds (s : bool) (m : positive) (e : Z) :
  valid_binary 24 128 (S754_finite s m e) = true -> Zpos m < 2 ^ 24 /\ e <= 104.
Proof.
  unfold valid_binary, bounded, canonical_mantissa, fexp, emin.
  intros H. apply andb_true_iff in H. destruct H as [Hc He].
  apply Z.eqb_eq in Hc. apply Z.leb_le in He.
  rewrite digits2_pos_size in Hc.
  split; [| lia].
  assert (Hs : Zpos (Pos.size m) <= 24) by lia.
  pose proof (Pos.size_gt m) as Hgt.
  apply Pos2Z.pos_lt_pos in Hgt. rewrite Pos2Z.inj_pow in Hgt.
  eapply Z.lt_le_trans; [exact Hgt |].
  apply Z.pow_le_mono_r; lia.
Qed.

Lemma round_half_even_le (num den : N) :
  (round_half_even num den <= num / den + 1)%N.
Proof.
  unfold round_half_even.
  destruct (2 * (num mod den) ?= den)%N; [destruct (N.even (num / den)) | |]; lia.
Qed.

Lemma scaled_3_bound (m : positive) (e : Z) :
  Zpos m < 2 ^ 24 -> e <= 104 -> (scaled 3 m e < 10 ^ 42)%N.
Proof.
  intros Hm He. unfold scaled.
  assert (Hm' : (Npos m < 2 ^ 24)%N).
  { apply N2Z.inj_lt. rewrite N2Z.inj_pow. exact Hm. }
  assert (Hnum : (Npos m * 10 ^ N.of_nat 3 < 2 ^ 24 * 1000)%N).
  { change (10 ^ N.of_nat 3)%N with 1000%N. lia. }
  destruct e as [| p | p].
  - eapply N.lt_trans; [exact Hnum |]. reflexivity.
  - assert (Hp : (2 ^ Npos p <= 2 ^ 104)%N).
    { apply N.pow_le_mono_r; [discriminate | lia]. }
    eapply N.le_lt_trans.
    + apply N.mul_le_mono; [apply N.lt_le_incl; exact Hnum | exact Hp].
    + reflexivity.
  - eapply N.le_lt_trans; [apply round_half_even_le |].
    assert (Hdiv : (Npos m * 10 ^ N.of_nat 3 / 2 ^ Npos p <= Npos m * 10 ^ N.of_nat 3)%N).
    { apply N.Div0.div_le_upper_bound.
      assert (H1 : (1 <= 2 ^ Npos p)%N).
      { change 1%N with (2 ^ 0)%N at 1. apply N.pow_le_mono_r; [discriminate | lia]. }
      nia. }
    eapply N.le_lt_trans; [apply N.add_le_mono_r; exact Hdiv |].
    eapply N.lt_trans; [apply N.add_lt_mono_r; exact Hnum |]. reflexivity.
Qed.

Lemma fixed_digits_3_length (q : N) :
  (q < 10 ^ 42)%N -> (List.length (fixed_digits 3 q) <= 43)%nat.
Proof.
  intros Hq. unfold fixed_digits. rewrite length_app. cbn [List.length].
  rewrite frac_digits_length.
  assert (Hip : (q / 10 ^ N.of_nat 3 < 10 ^ N.of_nat 39)%N).
  { apply N.Div0.div_lt_upper_bound. exact Hq. }
  pose proof (dec_digits_length 38 _ Hip). lia.
Qed.

Lemma fmt_fixed_3_length (x : cfloat) :
  is_float x = true -> (List.length (fmt_fixed 3 x) <= 44)%nat.
Proof.
  intros Hx. destruct x as [[s | s | | s m e] ns]; unfold is_float in Hx;
    unfold fmt_fixed; cbn [num nan_sign] in *; rewrite ?length_app.
  - assert (H0 : (0 < 10 ^ 42)%N) by reflexivity.
    pose proof (fixed_digits_3_length 0 H0). destruct s; simpl sign_chars; simpl List.length; lia.
  - destruct s; simpl; lia.
  - destruct ns; simpl; lia.
  - destruct (is_float_finite_bounds s m e Hx) as [Hm He].
    pose proof (fixed_digits_3_length _ (scaled_3_bound m e Hm He)).
    destruct s; simpl sign_chars; simpl List.length; lia.
Qed.

Lemma snprintf_3f_comma_fits (x : cfloat) :
  is_float x = true ->
  snprintf_3f_comma x = string_of_list_ascii (fmt_fixed 3 x ++ [","%char]).
Proof.
  intros Hx. unfold snprintf_3f_comma, snprintf_128.
  rewrite firstn_all2; [reflexivity |].
  rewrite length_app. pose proof (fmt_fixed_3_length x Hx). simpl. lia.
Qed.

(** ** Replies of the per-pixel queries *)

Lemma append_assoc (a b c : string) :
  String.append (String.append a b) c = String.append a (String.append b c).
Proof. induction a as [| x a IH]; simpl; [reflexivity | now rewrite IH]. Qed.

Lemma append_empty_r (a : string) : String.append a "" = a.
Proof. induction a as [| x a IH]; simpl; [reflexivity | now rewrite IH]. Qed.

Lemma list_ascii_of_append (a b : string) :
  list_ascii_of_string (String.append a b)
  = list_ascii_of_string a ++ list_ascii_of_string b.
Proof. induction a as [| x a IH]; simpl; [reflexivity | now rewrite IH]. Qed.

Lemma print_table_in_range (vec : list cfloat) (count : nat) :
  forall (i : nat) (acc : string),
    (i + count <= List.length vec)%nat ->
    print_table vec count (Z.of_nat i) acc
    = Ret (String.append acc
             (join_all (map snprintf_3f_comma (firstn count (skipn i vec))))).
Proof.
  induction count as [| k IH]; intros i acc Hlen.
  - simpl. now rewrite append_empty_r.
  - cbn [print_table].
    destruct (nth_error vec i) as [x |] eqn:Ex.
    2:{ apply nth_error_None in Ex. lia. }
    assert (Hx : vec_at vec (Z.of_nat i) = Ret x).
    { apply vec_at_Ret. rewrite Nat2Z.id. split; [lia | exact Ex]. }
    rewrite Hx. cbn [bind].
    replace (Z.of_nat i + 1) with (Z.of_nat (S i)) by lia.
    rewrite IH by lia.
    assert (Hskip : skipn i vec = x :: skipn (S i) vec).
    { clear - Ex. revert vec Ex. induction i as [| j IHj]; intros [| y vec] Ex;
        simpl in *; try discriminate.
      - now injection Ex as ->.
      - now apply IHj. }
    rewrite Hskip. cbn [firstn map join_all fold_right].
    now rewrite append_assoc.
Qed.

Lemma print_table_out_of_range (vec : list cfloat) (count : nat) :
  forall (i : nat) (acc : string),
    (i <= List.length vec < i + count)%nat ->
    print_table vec count (Z.of_nat i) acc = Undefined.
Proof.
  induction count as [| k IH]; intros i acc Hlen; [lia |].
  cbn [print_table].
  destruct (Nat.lt_ge_cases i (List.length vec)) as [Hin | Hout].
  - destruct (vec_at_in_range vec (Z.of_nat i)) as [x Hx]; [lia |].
    rewrite Hx. cbn [bind].
    replace (Z.of_nat i + 1) with (Z.of_nat (S i)) by lia.
    apply IH. lia.
  - rewrite vec_at_out_of_range by lia. reflexivity.
Qed.

Lemma tokens_from_token (tok rest tmp : list ascii) :
  no_comma tok = true ->
  tokens_from (tok ++ ","%char :: rest) tmp
  = option_map (cons (tmp ++ tok)) (tokens_from rest []).
Proof.
  revert tmp. induction tok as [| c tok IH]; intros tmp Hnc.
  - simpl. now rewrite app_nil_r.
  - simpl in Hnc. apply andb_true_iff in Hnc. destruct Hnc as [Hc Hnc].
    cbn [app tokens_from]. apply negb_true_iff in Hc. rewrite Hc.
    rewrite IH by exact Hnc. now rewrite <- app_assoc.
Qed.

Lemma split_tokens_join (vec : list cfloat) :
  forallb is_float vec = true ->
  split_tokens (join_all (map snprintf_3f_comma vec))
  = Some (map (fmt_fixed 3) vec).
Proof.
  unfold split_tokens. induction vec as [| x vec IH]; intros Hv; [reflexivity |].
  simpl in Hv. apply andb_true_iff in Hv. destruct Hv as [Hx Hv].
  cbn [map join_all fold_right]. rewrite list_ascii_of_append.
  rewrite (snprintf_3f_comma_fits x Hx), list_ascii_of_string_of_list_ascii.
  rewrite <- app_assoc. cbn [app].
  rewrite tokens_from_token by apply fmt_fixed_no_comma.
  fold (join_all (map snprintf_3f_comma vec)). rewrite (IH Hv). reflexivity.
Qed.

Lemma forallb_firstn {A : Type} (f : A -> bool) (n : nat) (l : list A) :
  forallb f l = true -> forallb f (firstn n l) = true.
Proof.
  revert l. induction n as [| k IH]; intros [| x l] H; simpl in *; try reflexivity.
  apply andb_true_iff in H. destruct H as [Hx Hl]. now rewrite Hx, IH.
Qed.

Lemma OnQuery_table (g : caldata) (line cmd : string) :
  In cmd table_queries ->
  OnQuery g false line cmd
  = (reply <- print_table (table_of g cmd) (Z.to_nat (g_numPixels g)) 0 "" ;;
     Ret (false, [SendReply reply])).
Proof.
  intros [<- | [<- | [<- | []]]]; reflexivity.
Qed.

(** C5, as amended.  For a pixel count [P] and a table that holds at
    least [P] binary32 values, each of [WAVELENGTHS?], [FLATCAL?] and
    [IRRCAL?] sends one reply that splits at its commas into exactly
    [P] tokens, each terminated by its comma, one per entry in storage
    order (no token is cut by the 128-byte buffer).  Token [i] is the
    [%.3f] text of entry [i]: read back without the printer, a finite
    entry gives its sign bit and a number of thousandths nearest to its
    magnitude, in fixed notation with three decimals; an infinity or a
    NaN gives [inf] or [nan] after its sign, which is no such number. *)
Theorem table_query_reply_tokens (g : caldata) (line cmd : string) :
  In cmd table_queries ->
  0 <= g_numPixels g ->
  (Z.to_nat (g_numPixels g) <= List.length (table_of g cmd))%nat ->
  forallb is_float (table_of g cmd) = true ->
  exists reply tokens,
    OnQuery g false line cmd = Ret (false, [SendReply reply]) /\
    split_tokens reply = Some tokens /\
    Z.of_nat (List.length tokens) = g_numPixels g /\
    tokens = map (fmt_fixed 3) (firstn (Z.to_nat (g_numPixels g)) (table_of g cmd)) /\
    Forall2 (fun x token => token_of x token = true)
            (firstn (Z.to_nat (g_numPixels g)) (table_of g cmd)) tokens /\
    (forallb is_finite (firstn (Z.to_nat (g_numPixels g)) (table_of g cmd)) = true ->
     forallb three_decimals tokens = true).
Proof.
  intros Hcmd HP Hlen Hfloat.
  set (P := Z.to_nat (g_numPixels g)) in *.
  set (vec := table_of g cmd) in *.
  exists (join_all (map snprintf_3f_comma (firstn P vec))).
  exists (map (fmt_fixed 3) (firstn P vec)).
  split; [| split; [| split; [| split; [| split]]]].
  - rewrite (OnQuery_table g line cmd Hcmd). fold vec. fold P.
    change 0 with (Z.of_nat 0). rewrite print_table_in_range by exact Hlen.
    reflexivity.
  - apply split_tokens_join. now apply forallb_firstn.
  - rewrite length_map, length_firstn. unfold P in *. lia.
  - reflexivity.
  - induction (firstn P vec) as [| x l IH]; cbn [map]; constructor;
      [apply fmt_fixed_token_of | exact IH].
  - intros Hfin. apply forallb_forall. intros tok Htok. apply in_map_iff in Htok.
    destruct Htok as (x & <- & Hx). apply fmt_fixed_three_decimals.
    apply (proj1 (forallb_forall _ _) Hfin). exact Hx.
Qed.

(** ** The frame on the wire *)




Lemma skipn_nth_cons {A : Type} (l : list A) :
  forall (i : nat) (x : A), nth_error l i = Some x -> skipn i l = x :: skipn (S i) l.
Proof.
  induction l as [| y l IH]; intros [| i] x H; simpl in *; try discriminate.
  - now injection H as ->.
  - now apply IH.
Qed.





(** ** The lock, the armed flag and the data socket *)

Section ThreadFacts.

Variable strtod_number : string -> option spec_float.
Variable cal : caldata.

Abbreviation Step := (step strtod_number cal).
Abbreviation Exec := (exec strtod_number cal).
Abbreviation StreamerStep := (streamer_step cal).
Abbreviation ControlStep := (control_step strtod_number cal).

Lemma initial_lock_inv (armed0 : bool) : lock_inv (initial_state armed0).
Proof. repeat split. Qed.

Ltac step_cases H :=
  repeat match type of H with
         | (if ?c then _ else _) = Some _ => destruct c eqn:?
         | match ?x with _ => _ end = Some _ => destruct x eqn:?
         | Some _ = Some _ => injection H as <- <-
         | None = Some _ => discriminate H
         end.

Lemma streamer_step_lock (e : env) (st st' : state) (evs : list event) :
  lock_inv st -> halted st = false ->
  StreamerStep e st = Some (st', evs) ->
  lock_inv st' /\
  forall rest,
    well_locked (g_mutex (sh st')) (acquiring (spc st')) rest = true ->
    well_locked (g_mutex (sh st)) (acquiring (spc st)) (evs ++ rest) = true.
Proof.
  destruct st as [[armed oneShot quit mutex] s c frame h].
  unfold lock_inv, StreamerStep. cbn [sh spc cpc g_mutex halted framePixels
    g_triggerArmed g_triggerOneShot g_waveformThreadQuit].
  intros (Hm & Hex & Hnd) _ H.
  destruct s; cbn [streamer_holds] in Hm, Hex; step_cases H;
    cbn [with_sh at_s at_c with_frame halt sh spc cpc g_mutex set_mutex
           set_triggerArmed streamer_holds acquiring app well_locked andb negb tid_eqb];
    subst;
    (split; [repeat split; try assumption; try discriminate;
             try (intros Hc; specialize (Hnd Hc); discriminate)
            | intros rest Hr; try rewrite Hm; try exact Hr]).
  all: try destruct (control_holds c) eqn:?; try destruct (in_sent e);
    try destruct (in_err e =? 0); cbn in *; try congruence; try assumption.
Qed.

Lemma well_locked_effects (owner : option tid) (fl : bool)
      (effects : list effect) (rest : list event) :
  well_locked owner fl (map EvEffect effects ++ rest) = well_locked owner fl rest.
Proof. induction effects as [| x l IH]; [reflexivity | exact IH]. Qed.

Lemma control_step_lock (e : env) (st st' : state) (evs : list event) :
  lock_inv st -> halted st = false ->
  ControlStep e st = Some (st', evs) ->
  lock_inv st' /\
  forall rest,
    well_locked (g_mutex (sh st')) (acquiring (spc st')) rest = true ->
    well_locked (g_mutex (sh st)) (acquiring (spc st)) (evs ++ rest) = true.
Proof.
  destruct st as [[armed oneShot quit mutex] s c frame h].
  unfold lock_inv, ControlStep. cbn [sh spc cpc g_mutex halted framePixels
    g_triggerArmed g_triggerOneShot g_waveformThreadQuit].
  intros (Hm & Hex & Hnd) _ H.
  destruct c; cbn [control_holds no_data_thread] in Hm, Hex, Hnd;
    try (specialize (Hnd eq_refl); subst s);
    step_cases H.
  all: try match goal with
           | Hc : String.eqb ?cmd "EXPOSURE" = false |- _ =>
               unfold OnCommand; rewrite Hc; cbn [snd]
           end.
  all: cbn [with_sh at_s at_c with_frame halt sh spc cpc g_mutex set_mutex
              set_triggerArmed set_triggerOneShot set_waveformThreadQuit
              AcquisitionForceTrigger AcquisitionStop
              streamer_holds control_holds no_data_thread acquiring].
  all: split;
    [ try destruct s; cbn in *; repeat split; congruence
    | intros rest Hr; rewrite ?well_locked_effects; unfold setExposure_events;
      try destruct s; try destruct (in_err e =? 0); cbn in *; subst;
      try congruence; try assumption ].
Qed.

Lemma step_lock (t : tid) (e : env) (st st' : state) (evs : list event) :
  lock_inv st ->
  Step t e st = Some (st', evs) ->
  lock_inv st' /\
  forall rest,
    well_locked (g_mutex (sh st')) (acquiring (spc st')) rest = true ->
    well_locked (g_mutex (sh st)) (acquiring (spc st)) (evs ++ rest) = true.
Proof.
  intros Hinv H. unfold step in H.
  destruct (halted st) eqn:Hh; [discriminate |].
  destruct t; [eapply streamer_step_lock | eapply control_step_lock]; eassumption.
Qed.

Lemma last_cons_default {A : Type} (l : list A) :
  forall a d, last (a :: l) d = last l a.
Proof.
  induction l as [| b l IH]; intros a d; [reflexivity |].
  change (last (a :: b :: l) d) with (last (b :: l) d).
  now rewrite !IH.
Qed.

Lemma final_cons (st st' : state) (evs : list event)
      (steps : list (state * list event)) :
  final st ((st', evs) :: steps) = final st' steps.
Proof. unfold final. cbn [map fst]. apply last_cons_default. Qed.

Lemma exec_lock (sched : list (tid * env)) :
  forall st,
    lock_inv st ->
    lock_inv (final st (Exec sched st)) /\
    well_locked (g_mutex (sh st)) (acquiring (spc st)) (events (Exec sched st)) = true.
Proof.
  induction sched as [| [t e] rest IH]; intros st Hinv.
  - split; [exact Hinv | reflexivity].
  - cbn [exec]. destruct (Step t e st) as [[st' evs] |] eqn:Hstep.
    + destruct (step_lock t e st st' evs Hinv Hstep) as [Hinv' Hwl].
      destruct (IH st' Hinv') as [Hfin Htr]. split.
      * rewrite final_cons. exact Hfin.
      * unfold events in *. cbn [flat_map snd]. apply Hwl. exact Htr.
    + apply IH. exact Hinv.
Qed.

Lemma reachable_lock_inv (st : state) :
  reachable strtod_number cal st -> lock_inv st.
Proof.
  intros (armed0 & sched & <-).
  apply exec_lock. apply initial_lock_inv.
Qed.

(** C1.  Device access is serialized by [g_mutex].  In every execution
    of the two threads, under any schedule and any answers of the
    device and the clients, the trace obeys the lock discipline of
    [well_locked]: a trigger and its fetch happen under one hold of
    the lock by the data thread with no second trigger in between (at
    most one acquisition in flight), every [setExposure] happens under
    the main thread's hold of the lock, so it falls entirely before a
    trigger or entirely after its fetch; and in the state reached the
    two threads are not both inside their locked blocks. *)
Theorem device_access_serialized (armed0 : bool) (sched : list (tid * env)) :
  well_locked None false (events (Exec sched (initial_state armed0))) = true /\
  (streamer_holds (spc (final (initial_state armed0)
                          (Exec sched (initial_state armed0))))
   && control_holds (cpc (final (initial_state armed0)
                            (Exec sched (initial_state armed0)))))%bool = false.
Proof.
  destruct (exec_lock sched (initial_state armed0) (initial_lock_inv armed0))
    as [(_ & Hex & _) Htr].
  split; [exact Htr | exact Hex].
Qed.

(** *** The armed flag *)

Lemma events_no_acquisition_effects (effects : list effect) :
  forallb (fun ev => negb (is_acquisition ev)) (map EvEffect effects) = true.
Proof. induction effects as [| x l IH]; [reflexivity | exact IH]. Qed.

(** A step of a data thread that is not between its poll and its
    fetch, taken while the flag is false, calls neither
    [triggerAcquisition] nor [getFrame] and does not enter the locked
    block. *)
Lemma step_unarmed (t : tid) (e : env) (st st' : state) (evs : list event) :
  before_acquisition (spc st) = true ->
  g_triggerArmed (sh st) = false ->
  Step t e st = Some (st', evs) ->
  before_acquisition (spc st') = true /\
  forallb (fun ev => negb (is_acquisition ev)) evs = true.
Proof.
  destruct st as [[armed oneShot quit mutex] s c frame h].
  unfold step, streamer_step, control_step.
  cbn [sh spc cpc g_mutex halted framePixels
         g_triggerArmed g_triggerOneShot g_waveformThreadQuit].
  intros Hb Ha H. subst armed.
  destruct h; [discriminate |].
  destruct t.
  - destruct s; try discriminate Hb; step_cases H;
      cbn [with_sh at_s at_c with_frame halt spc]; try destruct (in_sent e);
      try discriminate; split; reflexivity.
  - destruct c; step_cases H;
      try match goal with
          | Hc : String.eqb ?cmd "EXPOSURE" = false |- _ =>
              unfold OnCommand; rewrite Hc; cbn [snd]
          end;
      cbn [with_sh at_s at_c with_frame halt spc]; unfold setExposure_events;
      try destruct (in_err e =? 0);
      (split; [try exact Hb; reflexivity
              | try apply events_no_acquisition_effects; reflexivity]).
Qed.

Lemma exec_unarmed (sched : list (tid * env)) :
  forall st,
    before_acquisition (spc st) = true ->
    g_triggerArmed (sh st) = false ->
    Forall (fun s => g_triggerArmed (sh (fst s)) = false) (Exec sched st) ->
    forallb (fun ev => negb (is_acquisition ev)) (events (Exec sched st)) = true.
Proof.
  induction sched as [| [t e] rest IH]; intros st Hb Ha Hall; [reflexivity |].
  cbn [exec] in *.
  destruct (Step t e st) as [[st' evs] |] eqn:Hstep; [| now apply IH].
  destruct (step_unarmed t e st st' evs Hb Ha Hstep) as [Hb' Hevs].
  inversion Hall as [| x l Hx Hl]; subst.
  unfold events. cbn [flat_map snd]. rewrite forallb_app, Hevs.
  apply IH; assumption.
Qed.






Lemma one_shot_written_by (t : tid) (e : env) (st st' : state) (evs : list event) :
  Step t e st = Some (st', evs) ->
  g_triggerOneShot (sh st') <> g_triggerOneShot (sh st) ->
  t = Control /\ cpc st = C_StartOneShot (g_triggerOneShot (sh st')).
Proof.
  destruct st as [[armed oneShot quit mutex] s c frame h].
  unfold step, streamer_step, control_step.
  cbn [sh spc cpc g_mutex halted framePixels
         g_triggerArmed g_triggerOneShot g_waveformThreadQuit].
  intros H Hne. destruct h; [discriminate |].
  destruct t.
  - destruct s; step_cases H; cbn in Hne; congruence.
  - destruct c; step_cases H; cbn in Hne; try congruence.
    split; reflexivity.
Qed.


(** C10.  [AcquisitionForceTrigger] and [AcquisitionStop] are one
    assignment to the armed flag and leave the one-shot flag as it is;
    [AcquisitionStart] writes it; no step of either thread changes the
    one-shot flag except the second assignment of [AcquisitionStart].
    So from a state left by a one-shot start (one-shot flag set, data
    thread at its loop head, lock free), a force-trigger arms the
    trigger, keeps the one-shot flag, and the iteration that follows
    fetches exactly one frame and ends with the armed flag cleared. *)
Theorem force_trigger_keeps_one_shot
        (st : state) (trig_err : Z) (frame : list Z) :
  cpc st = C_ReadLine -> spc st = S_LoopHead ->
  g_mutex (sh st) = None -> g_waveformThreadQuit (sh st) = false ->
  halted st = false ->
  g_triggerOneShot (sh st) = true ->
  let steps := Exec (force_trigger_cycle trig_err frame) st in
  (forall sh0,
      AcquisitionForceTrigger sh0 = set_triggerArmed true sh0 /\
      AcquisitionStop sh0 = set_triggerArmed false sh0 /\
      g_triggerOneShot (AcquisitionForceTrigger sh0) = g_triggerOneShot sh0 /\
      g_triggerOneShot (AcquisitionStop sh0) = g_triggerOneShot sh0 /\
      forall b, g_triggerOneShot (AcquisitionStart b sh0) = b) /\
  (forall t e s s' evs,
      Step t e s = Some (s', evs) ->
      g_triggerOneShot (sh s') <> g_triggerOneShot (sh s) ->
      t = Control /\ cpc s = C_StartOneShot (g_triggerOneShot (sh s'))) /\
  g_triggerArmed (sh (final st (firstn 1 steps))) = true /\
  g_triggerOneShot (sh (final st (firstn 1 steps))) = true /\
  g_triggerArmed (sh (final st steps)) = false /\
  List.length (filter is_fetch (events steps)) = 1%nat.
Proof.
  destruct st as [[armed oneShot quit mutex] s c fr h].
  cbn [sh spc cpc g_mutex halted framePixels
         g_triggerArmed g_triggerOneShot g_waveformThreadQuit].
  intros -> -> -> -> -> ->.
  split; [| split].
  - intros sh0. repeat split.
  - intros t e s s' evs. apply one_shot_written_by.
  - cbn. destruct (trig_err =? 0); cbn; repeat split.
Qed.

(** C7, as amended.  While the armed flag stays false, a data thread
    that is not already between its poll and its fetch calls neither
    [triggerAcquisition] nor [getFrame], under any schedule; and a
    poll that reads the flag false only sleeps and goes back to the
    loop head. *)
Theorem unarmed_streamer_only_polls (sched : list (tid * env)) (st : state) :
  before_acquisition (spc st) = true ->
  g_triggerArmed (sh st) = false ->
  Forall (fun s => g_triggerArmed (sh (fst s)) = false) (Exec sched st) ->
  forallb (fun ev => negb (is_acquisition ev)) (events (Exec sched st)) = true /\
  (forall e s,
      spc s = S_Poll -> g_triggerArmed (sh s) = false -> halted s = false ->
      Step Streamer e s = Some (at_s S_LoopHead s, [EvSleep])).
Proof.
  intros Hb Ha Hall. split; [now apply exec_unarmed |].
  intros e s Hpc Hs Hh. unfold step. rewrite Hh.
  unfold streamer_step. rewrite Hpc, Hs. reflexivity.
Qed.

(** *** The data socket *)


Lemma send_step (e : env) (st : state) (bytes : list Byte.byte) :
  spc st = S_Send -> halted st = false ->
  frame_bytes (g_numPixels cal) (framePixels st) = Ret bytes ->
  Step Streamer e st
  = Some (at_s (if in_sent e then S_LoopHead else S_Exited) st,
          [EvSend bytes (in_sent e)]).
Proof.
  intros Hpc Hh Hb. unfold step. rewrite Hh.
  unfold streamer_step. rewrite Hpc, Hb. reflexivity.
Qed.

(** *** Runs of the machine *)

Lemma exec_cons_step (t : tid) (e : env) (rest : list (tid * env))
      (st st' : state) (evs : list event) :
  Step t e st = Some (st', evs) ->
  Exec ((t, e) :: rest) st = (st', evs) :: Exec rest st'.
Proof. intros H. cbn [exec]. now rewrite H. Qed.

Lemma exec_cons_skip (t : tid) (e : env) (rest : list (tid * env)) (st : state) :
  Step t e st = None -> Exec ((t, e) :: rest) st = Exec rest st.
Proof. intros H. cbn [exec]. now rewrite H. Qed.

Lemma exec_app (s1 s2 : list (tid * env)) :
  forall st,
    Exec (s1 ++ s2) st = Exec s1 st ++ Exec s2 (final st (Exec s1 st)).
Proof.
  induction s1 as [| [t e] s1 IH]; intros st; [reflexivity |].
  cbn [app exec]. destruct (Step t e st) as [[st' evs] |].
  - rewrite IH, final_cons. reflexivity.
  - apply IH.
Qed.

Lemma final_app (st : state) (a b : list (state * list event)) :
  final st (a ++ b) = final (final st a) b.
Proof.
  revert st. induction a as [| [s evs] a IH]; intros st; [reflexivity |].
  cbn [app]. rewrite !final_cons. apply IH.
Qed.

Lemma events_app (a b : list (state * list event)) :
  events (a ++ b) = events a ++ events b.
Proof. unfold events. apply flat_map_app. Qed.

(** One iteration of the data thread that nothing interrupts. *)
Lemma iteration_run
        (st : state) (trig_err : Z) (frame : list Z) (sent : bool)
        (bytes : list Byte.byte) :
  spc st = S_LoopHead -> halted st = false ->
  g_waveformThreadQuit (sh st) = false -> g_triggerArmed (sh st) = true ->
  g_mutex (sh st) = None ->
  frame_bytes (g_numPixels cal) (firstn (Z.to_nat framesize) frame) = Ret bytes ->
  let steps :=
    Exec (iteration (g_triggerOneShot (sh st)) trig_err 0 frame sent) st in
  events steps
  = [EvLock Streamer] ++ trigger_events trig_err
    ++ [EvGetFrame 0; EvUnlock Streamer; EvSend bytes sent] /\
  final st steps
  = {| sh := set_triggerArmed (negb (g_triggerOneShot (sh st))) (sh st);
       spc := if sent then S_LoopHead else S_Exited;
       cpc := cpc st;
       framePixels := firstn (Z.to_nat framesize) frame;
       halted := false |}.
Proof.
  destruct st as [[armed oneShot quit mutex] s c fr h].
  cbn [sh spc cpc g_mutex halted framePixels
         g_triggerArmed g_triggerOneShot g_waveformThreadQuit].
  intros -> -> -> -> -> Hb. unfold iteration.
  destruct oneShot; cbn [app].
  1: do 8 (erewrite exec_cons_step by reflexivity).
  2: do 7 (erewrite exec_cons_step by reflexivity).
  all: erewrite exec_cons_step by (apply send_step; [reflexivity | reflexivity | exact Hb]).
  all: cbn [exec]; unfold events, trigger_events; cbn [flat_map snd app].
  all: rewrite !final_cons; unfold final; cbn [map last].
  all: cbn [in_err in_sent device socket].
  all: destruct sent, (trig_err =? 0); split; reflexivity.
Qed.


End ThreadFacts.

(** ** Runs on the sample data *)

Example wavelengths_reply :
  OnQuery sample_cal4 false "WAVELENGTHS?" "WAVELENGTHS"
  = Ret (false, [SendReply "500.000,500.500,501.000,501.500,"]).
Proof. vm_compute. reflexivity. Qed.

Example points_reply :
  OnQuery sample_cal4 false "POINTS?" "POINTS" = Ret (false, [SendReply "4"]).
Proof. vm_compute. reflexivity. Qed.

Lemma two_parses_check_spec (n : Z) (first : outcome caldata)
      (again : caldata -> outcome caldata) :
  two_parses_check n first again = true ->
  exists g1 g2,
    first = Ret g1 /\ again g1 = Ret g2 /\
    Z.of_nat (List.length (g_wavelengths g1)) = n /\
    Z.of_nat (List.length (g_sensorResponse g1)) = n /\
    Z.of_nat (List.length (g_wavelengths g2)) = 2 * n /\
    Z.of_nat (List.length (g_sensorResponse g2)) = 2 * n.
Proof.
  unfold two_parses_check. intros H.
  destruct first as [g1 | | |]; try discriminate H.
  destruct (again g1) as [g2 | | |] eqn:E2; try discriminate H.
  apply andb_true_iff in H. destruct H as [H H4].
  apply andb_true_iff in H. destruct H as [H H3].
  apply andb_true_iff in H. destruct H as [H1 H2].
  exists g1, g2. repeat split; try assumption; now apply Z.eqb_eq.
Qed.

Lemma sample_blob_checked :
  two_parses_check 3653
    (ReadCalData sample_atof (0, sample_blob) initial_caldata)
    (ReadCalData sample_atof (0, sample_blob)) = true.
Proof. vm_compute. reflexivity. Qed.

Lemma sample_blob_parses :
  exists g1 g2,
    ReadCalData sample_atof (0, sample_blob) initial_caldata = Ret g1 /\
    ReadCalData sample_atof (0, sample_blob) g1 = Ret g2 /\
    Z.of_nat (List.length (g_wavelengths g1)) = 3653 /\
    Z.of_nat (List.length (g_sensorResponse g1)) = 3653 /\
    Z.of_nat (List.length (g_wavelengths g2)) = 2 * 3653 /\
    Z.of_nat (List.length (g_sensorResponse g2)) = 2 * 3653.
Proof. exact (two_parses_check_spec _ _ _ sample_blob_checked). Qed.

(** ** The calibration store: line count and repeated parsing *)

(** C6.  The line count of the blob is never validated.  A blob with
    fewer lines than the header block and the two tables need (12 lines,
    [P] wavelengths, a separator, [P] coefficients) does not make
    [ReadCalData] fail with a format error: it indexes [lines] out of
    range, which is undefined behaviour. *)
Theorem short_blob_indexes_out_of_range
        (atof : string -> cfloat) (buf : string) (g0 : caldata) :
  1 <= g_numPixels g0 ->
  Z.of_nat (List.length (explode (c_str buf) newline)) < 2 * g_numPixels g0 + 13 ->
  ReadCalData atof (0, buf) g0 = Undefined.
Proof.
  intros HP Hlen. unfold ReadCalData. cbn [negb Z.eqb].
  now apply parse_cal_too_few_lines.
Qed.

Lemma short_blob_line_count :
  Z.of_nat (List.length (explode (c_str short_blob) newline))
  < 2 * g_numPixels initial_caldata + 13.
Proof. vm_compute. reflexivity. Qed.

Lemma short_blob_indexes_out_of_range_witness :
  1 <= g_numPixels initial_caldata /\
  Z.of_nat (List.length (explode (c_str short_blob) newline))
  < 2 * g_numPixels initial_caldata + 13 /\
  ReadCalData sample_atof (0, short_blob) initial_caldata = Undefined.
Proof.
  split; [cbn; lia |]. split; [exact short_blob_line_count |].
  apply (short_blob_indexes_out_of_range sample_atof short_blob initial_caldata).
  - cbn; lia.
  - exact short_blob_line_count.
Defined.

(** A blob with a line too many is accepted as it is. *)
Lemma long_blob_accepted :
  is_Ret (ReadCalData sample_atof (0, long_blob) initial_caldata) = true.
Proof. vm_compute. reflexivity. Qed.

(** C9, as stated, fails: parsing [sample_blob] a second time leaves
    vectors of 7306 entries where the first parse left 3653. *)
Lemma second_parse_doubles_the_vectors :
  exists g1 g2,
    ReadCalData sample_atof (0, sample_blob) initial_caldata = Ret g1 /\
    ReadCalData sample_atof (0, sample_blob) g1 = Ret g2 /\
    Z.of_nat (List.length (g_wavelengths g1)) = 3653 /\
    Z.of_nat (List.length (g_wavelengths g2)) = 7306 /\
    g_wavelengths g2 <> g_wavelengths g1 /\
    g_sensorResponse g2 <> g_sensorResponse g1.
Proof.
  destruct sample_blob_parses as (g1 & g2 & E1 & E2 & H1 & H2 & H3 & H4).
  exists g1, g2. repeat split; try assumption.
  - intros E. rewrite E in H3. lia.
  - intros E. rewrite E in H4. lia.
Qed.

(** C9, as amended.  A parse that returns has appended [g_numPixels]
    values to each of the two vectors, and the values depend on the
    blob only: a second parse of the same blob returns too and appends
    the same values once more. *)
Theorem ReadCalData_appends (atof : string -> cfloat) (flash : Z * string)
        (g0 g1 : caldata) :
  ReadCalData atof flash g0 = Ret g1 ->
  exists w s,
    g_wavelengths g1 = g_wavelengths g0 ++ w /\
    g_sensorResponse g1 = g_sensorResponse g0 ++ s /\
    List.length w = Z.to_nat (g_numPixels g0) /\
    List.length s = Z.to_nat (g_numPixels g0) /\
    exists g2,
      ReadCalData atof flash g1 = Ret g2 /\
      g_wavelengths g2 = g_wavelengths g1 ++ w /\
      g_sensorResponse g2 = g_sensorResponse g1 ++ s.
Proof.
  destruct flash as [err buf]. unfold ReadCalData.
  destruct (negb (err =? 0)); [discriminate |].
  apply parse_cal_twice.
Qed.

Lemma ReadCalData_appends_witness :
  exists g1,
    ReadCalData sample_atof (0, sample_blob) initial_caldata = Ret g1 /\
    exists w s,
      g_wavelengths g1 = g_wavelengths initial_caldata ++ w /\
      g_sensorResponse g1 = g_sensorResponse initial_caldata ++ s /\
      List.length w = Z.to_nat (g_numPixels initial_caldata) /\
      List.length s = Z.to_nat (g_numPixels initial_caldata) /\
      exists g2,
        ReadCalData sample_atof (0, sample_blob) g1 = Ret g2 /\
        g_wavelengths g2 = g_wavelengths g1 ++ w /\
        g_sensorResponse g2 = g_sensorResponse g1 ++ s.
Proof.
  destruct sample_blob_parses as (g1 & _ & E1 & _).
  exists g1. split; [exact E1 |].
  exact (ReadCalData_appends sample_atof (0, sample_blob) initial_caldata g1 E1).
Defined.

(** ** The queries: absent irradiance data *)

(** C4.  After [ReadCalData], whatever the blob, the irradiance vector
    is empty; [IRRCOEFF?] replies with a zero, but [IRRCAL?] reads
    [g_absResponse[0]] of the empty vector: undefined behaviour, no
    reply. *)
Theorem irrcal_without_irradiance_data
        (atof : string -> cfloat) (flash : Z * string) (g : caldata)
        (line : string) :
  ReadCalData atof flash initial_caldata = Ret g ->
  g_absResponse g = [] /\
  OnQuery g false line "IRRCOEFF" = Ret (false, [SendReply "0.000000"]) /\
  OnQuery g false line "IRRCAL" = Undefined.
Proof.
  destruct flash as [err buf]. unfold ReadCalData.
  destruct (negb (err =? 0)); [discriminate |]. intros H.
  destruct (parse_cal_frame atof buf initial_caldata g H) as (HP & Habs & Hcal).
  cbn [initial_caldata g_numPixels g_absResponse g_absCal] in HP, Habs, Hcal.
  split; [exact Habs |]. split.
  - unfold OnQuery. cbn [String.eqb Ascii.eqb Bool.eqb]. rewrite Hcal. reflexivity.
  - unfold OnQuery. cbn [String.eqb Ascii.eqb Bool.eqb]. rewrite Habs, HP.
    change 0 with (Z.of_nat 0). rewrite print_table_out_of_range; [reflexivity |].
    cbn [List.length]. lia.
Qed.

Lemma irrcal_without_irradiance_data_witness :
  exists g,
    ReadCalData sample_atof (0, sample_blob) initial_caldata = Ret g /\
    g_absResponse g = [] /\
    OnQuery g false "IRRCOEFF?" "IRRCOEFF" = Ret (false, [SendReply "0.000000"]) /\
    OnQuery g false "IRRCAL?" "IRRCAL" = Undefined.
Proof.
  destruct sample_blob_parses as (g1 & _ & E1 & _).
  exists g1. split; [exact E1 |].
  exact (irrcal_without_irradiance_data sample_atof (0, sample_blob) g1 "IRRCAL?" E1).
Defined.

Lemma table_query_reply_tokens_witness :
  exists reply tokens,
    OnQuery sample_cal4 false "IRRCAL?" "IRRCAL" = Ret (false, [SendReply reply]) /\
    split_tokens reply = Some tokens /\
    Z.of_nat (List.length tokens) = g_numPixels sample_cal4 /\
    tokens = map (fmt_fixed 3)
               (firstn (Z.to_nat (g_numPixels sample_cal4)) (table_of sample_cal4 "IRRCAL")) /\
    Forall2 (fun x token => token_of x token = true)
            (firstn (Z.to_nat (g_numPixels sample_cal4)) (table_of sample_cal4 "IRRCAL"))
            tokens /\
    (forallb is_finite
       (firstn (Z.to_nat (g_numPixels sample_cal4)) (table_of sample_cal4 "IRRCAL")) = true ->
     forallb three_decimals tokens = true).
Proof.
  apply (table_query_reply_tokens sample_cal4 "IRRCAL?" "IRRCAL").
  - simpl. auto.
  - vm_compute. discriminate.
  - vm_compute. lia.
  - vm_compute. reflexivity.
Defined.

Lemma ReadCalData_keeps_irradiance
      (atof : string -> cfloat) (flash : Z * string) (g0 g1 : caldata) :
  ReadCalData atof flash g0 = Ret g1 ->
  g_numPixels g1 = g_numPixels g0 /\ g_absResponse g1 = g_absResponse g0.
Proof.
  destruct flash as [err buf]. unfold ReadCalData.
  destruct (negb (err =? 0)); [discriminate |]. intros H.
  destruct (parse_cal_frame atof buf g0 g1 H) as (HP & Habs & _).
  split; assumption.
Qed.

Lemma irrcal_of_empty_vector (g : caldata) (line : string) :
  1 <= g_numPixels g -> g_absResponse g = [] ->
  OnQuery g false line "IRRCAL" = Undefined.
Proof.
  intros HP Habs. unfold OnQuery. cbn [String.eqb Ascii.eqb Bool.eqb].
  rewrite Habs. change 0 with (Z.of_nat 0).
  rewrite print_table_out_of_range; [reflexivity |]. cbn [List.length]. lia.
Qed.

(** C5, as stated, fails.  After [ReadCalData] the irradiance vector
    is empty and [IRRCAL?] does not reply with [g_numPixels] tokens: it
    indexes the vector out of range.  And a table entry that is not
    finite gives a token that is no number with three decimals: with an
    infinite first wavelength, [WAVELENGTHS?] replies with [inf] as its
    first token. *)
Lemma table_reply_not_always_numeric :
  (exists g,
      ReadCalData sample_atof (0, sample_blob) initial_caldata = Ret g /\
      OnQuery g false "IRRCAL?" "IRRCAL" = Undefined) /\
  OnQuery overflow_cal4 false "WAVELENGTHS?" "WAVELENGTHS"
  = Ret (false, [SendReply "inf,500.500,501.000,501.500,"]) /\
  split_tokens "inf,500.500,501.000,501.500,"
  = Some (map list_ascii_of_string ["inf"; "500.500"; "501.000"; "501.500"]) /\
  three_decimals (list_ascii_of_string "inf") = false /\
  read_thousandths (list_ascii_of_string "inf") = None.
Proof.
  split.
  - destruct sample_blob_parses as (g1 & _ & E1 & _).
    exists g1. split; [exact E1 |].
    destruct (ReadCalData_keeps_irradiance _ _ _ _ E1) as (HP & Habs).
    apply irrcal_of_empty_vector; [rewrite HP; cbn; lia | rewrite Habs; reflexivity].
  - split; [vm_compute; reflexivity |]. split; [vm_compute; reflexivity |].
    split; reflexivity.
Qed.

Example irrcal_reply :
  OnQuery sample_cal4 false "IRRCAL?" "IRRCAL"
  = Ret (false, [SendReply "0.001,0.002,0.003,0.004,"]).
Proof. vm_compute. reflexivity. Qed.

(** An infinite entry prints as [inf]: a token, but not one with three
    decimals. *)
Example infinite_entry_token :
  snprintf_3f_comma (plain (S754_infinity false)) = "inf," /\
  three_decimals (fmt_fixed 3 (plain (S754_infinity false))) = false.
Proof. split; reflexivity. Qed.

(** A NaN prints with its sign bit. *)
Example negative_nan_token :
  snprintf_3f_comma {| num := S754_nan; nan_sign := true |} = "-nan," /\
  snprintf_3f_comma {| num := S754_nan; nan_sign := false |} = "nan,".
Proof. split; reflexivity. Qed.

(** ** The commands: the argument of EXPOSURE *)

(** C8.  A malformed or missing argument of [EXPOSURE] does not fail
    the command alone.  [stod] throws [invalid_argument] on [abc]: the
    lock is released by the unwinding and the exception leaves
    [OnCommand], which has no handler; with no argument, [args[0]]
    indexes an empty vector.  No device call is made in either case. *)
Theorem exposure_bad_argument_leaves_handler
        (strtod_number : string -> option spec_float) (line : string) (err : Z) :
  OnCommand strtod_number false line "EXPOSURE" ["abc"] err
  = (Raise invalid_argument, [EvLock Control; EvUnlock Control]) /\
  OnCommand strtod_number false line "EXPOSURE" [] err
  = (Undefined, [EvLock Control]).
Proof. split; reflexivity. Qed.

(** A well-formed argument: the exposure is set under the lock; a
    device error is logged with its code, and nothing is sent to the
    client. *)
Lemma exposure_device_error_logged
      (strtod_number : string -> option spec_float) (line arg : string)
      (v : spec_float) (err : Z) :
  starts_with_number arg = true -> strtod_number arg = Some v -> err <> 0 ->
  OnCommand strtod_number false line "EXPOSURE" [arg] err
  = (Ret true,
     [EvLock Control;
      EvSetExposure (SFmul 53 1024 v double_1e_10) err;
      EvEffect (error_with_code "failed to set exposure, code " err);
      EvUnlock Control]).
Proof.
  intros Hs Hv Herr. unfold OnCommand, exposure_argument, stod, setExposure_events.
  cbn [String.eqb Ascii.eqb Bool.eqb vec_at Z.ltb Z.compare Z.to_nat nth_error bind].
  rewrite Hs, Hv. cbn [bind].
  destruct (Z.eqb_spec err 0) as [-> | _]; [now elim Herr | reflexivity].
Qed.

Example exposure_125ms :
  OnCommand strtod_decimal false "EXPOSURE 125000000000000" "EXPOSURE"
    ["125000000000000"] 7
  = (Ret true,
     [EvLock Control;
      EvSetExposure (double_of_Z 12500) 7;
      EvEffect (Log ERROR (String.append "failed to set exposure, code 7"
                             (String newline "")));
      EvUnlock Control]).
Proof. vm_compute. reflexivity. Qed.

(** In a session: the three steps of the handler on [EXPOSURE abc] end
    with the exception leaving [OnCommand], the lock free and the flags
    as they were; the main thread takes no further step. *)
Example exposure_bad_argument_in_session :
  let st0 := final (initial_state false)
               (exec strtod_decimal initial_caldata session_start (initial_state false)) in
  let steps := exec strtod_decimal initial_caldata
                 [(Control, client (ReqCommand "EXPOSURE abc" "EXPOSURE" ["abc"]));
                  (Control, quiet); (Control, quiet)] st0 in
  cpc (final st0 steps) = C_Raised invalid_argument /\
  sh (final st0 steps) = sh st0 /\
  events steps = [EvLock Control; EvUnlock Control] /\
  step strtod_decimal initial_caldata Control (client ReqStop) (final st0 steps) = None.
Proof. vm_compute. repeat split. Qed.

(** ** The data plane: a frame on the socket *)





(** The run of one iteration on [sample_frame]: the four samples 100,
    200, 300 and 65535 that the device delivered are the four values
    that leave. *)
Example sample_frame_streamed :
  events (exec strtod_decimal sample_cal4
            (iteration false 0 0 sample_frame true) streaming_state)
  = [EvLock Streamer; EvTrigger 0; EvGetFrame 0; EvUnlock Streamer;
     EvSend sample_bytes true].
Proof. vm_compute. reflexivity. Qed.

(** The four pixels of [sample_frame] as they leave: 100.0, 200.0,
    300.0 and 65535.0, little-endian. *)
Example sample_frame_bytes :
  frame_bytes 4 sample_frame
  = Ret [Byte.x00; Byte.x00; Byte.xc8; Byte.x42;
         Byte.x00; Byte.x00; Byte.x48; Byte.x43;
         Byte.x00; Byte.x00; Byte.x96; Byte.x43;
         Byte.x00; Byte.xff; Byte.x7f; Byte.x47].
Proof. vm_compute. reflexivity. Qed.

(** ** The two threads: runs of the machine *)

(** The lock discipline rejects a trace in which [setExposure] falls
    between a trigger and its fetch. *)
Example interleaved_trace_rejected : well_locked None false interleaved_trace = false.
Proof. reflexivity. Qed.





(** C7, as stated, fails: after a stop that arrives between the data
    thread's poll and its lock, the flag is false, and the data thread's
    next steps call [triggerAcquisition] and [getFrame] all the same. *)
Lemma stop_race_acquires_while_unarmed :
  reachable strtod_decimal initial_caldata stop_race_state /\
  g_triggerArmed (sh stop_race_state) = false /\
  events (exec strtod_decimal initial_caldata
            [(Streamer, quiet); (Streamer, device 0 sample_frame)] stop_race_state)
  = [EvTrigger 0; EvGetFrame 0].
Proof.
  split; [exists false, stop_race_schedule; reflexivity |].
  split; vm_compute; reflexivity.
Qed.

Lemma idle_schedule_unarmed :
  Forall (fun s => g_triggerArmed (sh (fst s)) = false)
         (exec strtod_decimal initial_caldata idle_schedule idle_state).
Proof. vm_compute. repeat constructor. Qed.

Lemma unarmed_streamer_only_polls_witness :
  before_acquisition (spc idle_state) = true /\
  g_triggerArmed (sh idle_state) = false /\
  Forall (fun s => g_triggerArmed (sh (fst s)) = false)
         (exec strtod_decimal initial_caldata idle_schedule idle_state) /\
  forallb (fun ev => negb (is_acquisition ev))
          (events (exec strtod_decimal initial_caldata idle_schedule idle_state)) = true /\
  events (exec strtod_decimal initial_caldata idle_schedule idle_state)
  = [EvSleep; EvSleep].
Proof.
  split; [reflexivity |]. split; [reflexivity |].
  split; [exact idle_schedule_unarmed |].
  split; [| reflexivity].
  apply (unarmed_streamer_only_polls strtod_decimal initial_caldata
           idle_schedule idle_state);
    [reflexivity | reflexivity | exact idle_schedule_unarmed].
Defined.

Lemma force_trigger_keeps_one_shot_witness :
  cpc after_one_shot_state = C_ReadLine /\
  spc after_one_shot_state = S_LoopHead /\
  g_triggerOneShot (sh after_one_shot_state) = true /\
  g_triggerArmed (sh after_one_shot_state) = false /\
  g_triggerArmed
    (sh (final after_one_shot_state
           (exec strtod_decimal sample_cal4 (force_trigger_cycle 0 sample_frame)
              after_one_shot_state))) = false /\
  List.length
    (filter is_fetch
       (events (exec strtod_decimal sample_cal4 (force_trigger_cycle 0 sample_frame)
                  after_one_shot_state))) = 1%nat.
Proof.
  destruct (force_trigger_keeps_one_shot strtod_decimal sample_cal4
              after_one_shot_state 0 sample_frame)
    as (_ & _ & _ & _ & Hfinal & Hone); try (vm_compute; reflexivity).
  split; [vm_compute; reflexivity |]. split; [vm_compute; reflexivity |].
  split; [vm_compute; reflexivity |]. split; [vm_compute; reflexivity |].
  split; [exact Hfinal | exact Hone].
Defined.

(* ================================================================== *)
(** * Further properties of the code                                   *)
(* ================================================================== *)

(** ** [explode] *)

Lemma contains_push_char (sep c : ascii) (tmp : string) :
  contains sep (push_char tmp c) = (contains sep tmp || Ascii.eqb c sep)%bool.
Proof.
  unfold push_char. induction tmp as [| x tmp IH]; simpl.
  - now rewrite orb_false_r.
  - rewrite IH. now rewrite orb_assoc.
Qed.

Lemma is_empty_push_char (tmp : string) (c : ascii) :
  is_empty (push_char tmp c) = false.
Proof. now destruct tmp. Qed.

Lemma explode_from_tokens (sep : ascii) (str : string) :
  forall tmp,
    contains sep tmp = false ->
    forallb (is_token sep) (explode_from str sep tmp) = true.
Proof.
  induction str as [| c rest IH]; intros tmp Htmp; cbn [explode_from].
  - destruct tmp as [| x tmp]; [reflexivity |].
    cbn [is_empty forallb]. unfold is_token. cbn [is_empty negb andb].
    now rewrite Htmp.
  - destruct (Ascii.eqb c sep) eqn:Ec.
    + destruct (is_empty tmp) eqn:Ee; [now apply IH |].
      cbn [forallb]. unfold is_token at 1. rewrite Ee, Htmp. cbn [negb andb].
      now apply IH.
    + apply IH. rewrite contains_push_char, Htmp, Ec. reflexivity.
Qed.

(** X1.  Whatever the string and the separator, every token that
    [explode] returns is non-empty and free of the separator: runs of
    separators, and separators at either end of the string, give no
    empty token. *)
Theorem explode_tokens (str : string) (sep : ascii) :
  forallb (is_token sep) (explode str sep) = true.
Proof. apply explode_from_tokens. reflexivity. Qed.

Lemma explode_from_field (sep : ascii) (f : string) :
  forall rest tmp,
    contains sep f = false ->
    explode_from (String.append f rest) sep tmp
    = explode_from rest sep (String.append tmp f).
Proof.
  induction f as [| c f IH]; intros rest tmp Hf.
  - cbn [String.append]. now rewrite append_empty_r.
  - cbn [contains] in Hf. apply orb_false_iff in Hf. destruct Hf as [Hc Hf].
    cbn [String.append explode_from]. rewrite Hc. rewrite IH by exact Hf.
    unfold push_char. rewrite append_assoc. reflexivity.
Qed.

Lemma explode_from_separator (sep : ascii) (rest tmp : string) :
  explode_from (String sep rest) sep tmp
  = if is_empty tmp then explode_from rest sep EmptyString
    else tmp :: explode_from rest sep EmptyString.
Proof. cbn [explode_from]. now rewrite Ascii.eqb_refl. Qed.

(** X2.  [explode] undoes the joining of fields.  Fields that do
    not contain the separator, joined with one separator between two
    neighbours, are split into the same fields in the same order,
    except that the empty fields are lost. *)
Theorem explode_join_with (sep : ascii) (fields : list string) :
  forallb (fun f => negb (contains sep f)) fields = true ->
  explode (join_with sep fields) sep
  = filter (fun f => negb (is_empty f)) fields.
Proof.
  unfold explode. induction fields as [| f rest IH]; intros Hf; [reflexivity |].
  cbn [forallb] in Hf. apply andb_true_iff in Hf. destruct Hf as [Hf Hrest].
  apply negb_true_iff in Hf.
  destruct rest as [| g rest].
  - cbn [join_with filter]. rewrite <- (append_empty_r f) at 1.
    rewrite explode_from_field by exact Hf. cbn [String.append explode_from].
    now destruct (is_empty f).
  - change (join_with sep (f :: g :: rest))
      with (String.append f (String sep (join_with sep (g :: rest)))).
    rewrite explode_from_field by exact Hf. cbn [String.append].
    rewrite explode_from_separator. cbn [filter].
    rewrite (IH Hrest). now destruct (is_empty f).
Qed.

Lemma explode_join_with_witness :
  forallb (fun f => negb (contains space f)) ["AS-5216"; ""; "c.N"; "00042"] = true /\
  explode (join_with space ["AS-5216"; ""; "c.N"; "00042"]) space
  = filter (fun f => negb (is_empty f)) ["AS-5216"; ""; "c.N"; "00042"].
Proof.
  split; [reflexivity |].
  apply (explode_join_with space ["AS-5216"; ""; "c.N"; "00042"]). reflexivity.
Defined.


Lemma explode_unlines (lines : list string) :
  forallb (fun l => negb (contains newline l)) lines = true ->
  explode (unlines lines) newline = filter (fun l => negb (is_empty l)) lines.
Proof.
  unfold explode, unlines. induction lines as [| l rest IH]; intros Hl; [reflexivity |].
  cbn [forallb] in Hl. apply andb_true_iff in Hl. destruct Hl as [Hl Hrest].
  apply negb_true_iff in Hl.
  cbn [map join_all fold_right]. rewrite append_assoc.
  rewrite explode_from_field by exact Hl. cbn [String.append].
  rewrite explode_from_separator. cbn [filter].
  fold (join_all (map (fun l0 => String.append l0 (String newline "")) rest)).
  rewrite (IH Hrest). now destruct (is_empty l).
Qed.

(** ** [Trim] *)

Lemma skip_spaces_lead (lead rest : string) :
  all_space lead = true ->
  skip_spaces (String.append lead rest) = skip_spaces rest.
Proof.
  induction lead as [| c lead IH]; intros H; [reflexivity |].
  cbn [all_space] in H. apply andb_true_iff in H. destruct H as [Hc H].
  cbn [String.append skip_spaces]. rewrite Hc. now apply IH.
Qed.

Lemma skip_spaces_all_space (s : string) :
  all_space s = true -> skip_spaces s = EmptyString.
Proof.
  induction s as [| c s IH]; intros H; [reflexivity |].
  cbn [all_space] in H. apply andb_true_iff in H. destruct H as [Hc H].
  cbn [skip_spaces]. rewrite Hc. now apply IH.
Qed.

Lemma skip_spaces_starts (s : string) :
  starts_nonspace s = true -> skip_spaces s = s.
Proof.
  destruct s as [| c s]; [discriminate |]. cbn. intros H.
  apply negb_true_iff in H. now rewrite H.
Qed.

Lemma trim_loop_all_space (trail : string) :
  forall ret tmp, all_space trail = true -> trim_loop trail ret tmp = ret.
Proof.
  induction trail as [| c trail IH]; intros ret tmp H; [reflexivity |].
  cbn [all_space] in H. apply andb_true_iff in H. destruct H as [Hc H].
  cbn [trim_loop]. rewrite Hc. cbn [negb]. now apply IH.
Qed.

Lemma trim_loop_core (core trail : string) :
  all_space trail = true ->
  forall ret tmp,
    ends_nonspace core = true ->
    trim_loop (String.append core trail) ret tmp
    = String.append ret (String.append tmp core).
Proof.
  intros Htrail. induction core as [| c core IH]; intros ret tmp H; [discriminate |].
  cbn [String.append trim_loop].
  destruct core as [| d core].
  - cbn [ends_nonspace] in H. rewrite H. cbn [String.append].
    rewrite trim_loop_all_space by exact Htrail.
    unfold push_char. now rewrite append_assoc.
  - assert (H' : ends_nonspace (String d core) = true) by exact H.
    destruct (isspace c); cbn [negb].
    + rewrite IH by exact H'. unfold push_char. now rewrite append_assoc.
    + rewrite IH by exact H'. unfold push_char. cbn [String.append].
      now rewrite !append_assoc.
Qed.

Lemma Trim_core (lead core trail : string) :
  all_space lead = true -> all_space trail = true -> trimmed core = true ->
  Trim (String.append lead (String.append core trail)) = core.
Proof.
  intros Hlead Htrail Hcore. unfold Trim. rewrite skip_spaces_lead by exact Hlead.
  unfold trimmed in Hcore. destruct core as [| c core].
  - cbn [String.append]. rewrite skip_spaces_all_space by exact Htrail. reflexivity.
  - cbn [is_empty orb] in Hcore. apply andb_true_iff in Hcore.
    destruct Hcore as [Hs He].
    assert (Hs' : starts_nonspace (String.append (String c core) trail) = true)
      by exact Hs.
    rewrite skip_spaces_starts by exact Hs'.
    rewrite trim_loop_core by assumption. reflexivity.
Qed.

(** X3.  [Trim] removes the white space around a core that is
    empty or that begins and ends with a character that is no white
    space, and returns the core as it is, the white space inside it
    included. *)
Theorem Trim_strips_both_ends (lead core trail : string) :
  all_space lead = true -> all_space trail = true -> trimmed core = true ->
  Trim (String.append lead (String.append core trail)) = core.
Proof. apply Trim_core. Qed.

Lemma Trim_strips_both_ends_witness :
  Trim (String.append "  " (String.append "AS 5216" " ")) = "AS 5216".
Proof. apply (Trim_strips_both_ends "  " "AS 5216" " "); reflexivity. Defined.


Lemma split_lead (s : string) :
  exists lead,
    s = String.append lead (skip_spaces s) /\ all_space lead = true /\
    (is_empty (skip_spaces s) = true \/ starts_nonspace (skip_spaces s) = true).
Proof.
  induction s as [| c s IH].
  - exists EmptyString. split; [reflexivity |]. split; [reflexivity | now left].
  - cbn [skip_spaces]. destruct (isspace c) eqn:Hc.
    + destruct IH as (lead & E & Hl & Hs). exists (String c lead).
      cbn [String.append all_space]. rewrite Hc, Hl. rewrite <- E.
      split; [reflexivity |]. split; [reflexivity | exact Hs].
    + exists EmptyString. split; [reflexivity |]. split; [reflexivity |].
      right. cbn. now rewrite Hc.
Qed.

Lemma split_trail (s : string) :
  exists core trail,
    s = String.append core trail /\ all_space trail = true /\
    (is_empty core = true \/ ends_nonspace core = true) /\
    (is_empty core = false -> starts_nonspace core = starts_nonspace s).
Proof.
  induction s as [| c s IH].
  - exists EmptyString, EmptyString.
    split; [reflexivity |]. split; [reflexivity |]. split; [now left | discriminate].
  - destruct IH as (core & trail & E & Ht & Hc & _).
    destruct core as [| d core].
    + cbn [String.append] in E. subst s. destruct (isspace c) eqn:Hsp.
      * exists EmptyString, (String c trail). cbn [String.append all_space].
        rewrite Hsp, Ht.
        split; [reflexivity |]. split; [reflexivity |]. split; [now left | discriminate].
      * exists (String c EmptyString), trail. cbn [String.append].
        split; [reflexivity |]. split; [exact Ht |].
        split; [right; cbn; now rewrite Hsp | reflexivity].
    + exists (String c (String d core)), trail. cbn [String.append].
      rewrite E. split; [reflexivity |]. split; [exact Ht |].
      split; [| reflexivity].
      right. destruct Hc as [Hc | Hc]; [discriminate | exact Hc].
Qed.

(** X4.  For every string, the result of [Trim] has no white
    space at either end, trimming it once more changes nothing, and the
    string is the result between two runs of white space: [Trim] removes
    nothing but white space at the two ends. *)
Theorem Trim_is_trimmed (s : string) :
  trimmed (Trim s) = true /\ Trim (Trim s) = Trim s /\
  exists lead trail,
    s = String.append lead (String.append (Trim s) trail) /\
    all_space lead = true /\ all_space trail = true.
Proof.
  destruct (split_lead s) as (lead & E1 & Hlead & Hstart).
  destruct (split_trail (skip_spaces s)) as (core & trail & E2 & Htrail & Hend & Hsame).
  assert (Hcore : trimmed core = true).
  { unfold trimmed. destruct (is_empty core) eqn:Hemp; [reflexivity |].
    cbn [orb]. rewrite (Hsame eq_refl).
    destruct Hend as [Hend | Hend]; [discriminate |]. rewrite Hend.
    destruct Hstart as [Hs | Hs]; [| now rewrite Hs].
    rewrite E2 in Hs. destruct core; discriminate. }
  assert (HT : Trim s = core).
  { rewrite E1 at 1. rewrite E2. now apply Trim_core. }
  rewrite HT. split; [exact Hcore |]. split.
  - rewrite <- (append_empty_r core) at 1.
    apply (Trim_core EmptyString core EmptyString); auto.
  - exists lead, trail. rewrite <- E2. auto.
Qed.

(** ** [ReadCalData]: what a successful parse holds *)

Lemma c_str_clean (s : string) : contains zero s = false -> c_str s = s.
Proof.
  induction s as [| c s IH]; intros H; [reflexivity |].
  cbn [contains] in H. apply orb_false_iff in H. destruct H as [Hc H].
  cbn [c_str]. rewrite Hc. now rewrite IH.
Qed.

Lemma c_str_stops_at_nul (a b : string) :
  contains zero a = false -> c_str (String.append a (String zero b)) = a.
Proof.
  induction a as [| c a IH]; intros H; [reflexivity |].
  cbn [contains] in H. apply orb_false_iff in H. destruct H as [Hc H].
  cbn [String.append c_str]. rewrite Hc. now rewrite IH.
Qed.

Lemma contains_append (c : ascii) (a b : string) :
  contains c (String.append a b) = (contains c a || contains c b)%bool.
Proof.
  induction a as [| x a IH]; [reflexivity |].
  cbn [String.append contains]. rewrite IH. now rewrite orb_assoc.
Qed.

Lemma unlines_no_nul (lines : list string) :
  forallb clean_line lines = true -> contains zero (unlines lines) = false.
Proof.
  unfold unlines. induction lines as [| l rest IH]; intros H; [reflexivity |].
  cbn [forallb] in H. apply andb_true_iff in H. destruct H as [Hl H].
  unfold clean_line in Hl. apply andb_true_iff in Hl. destruct Hl as [Hz _].
  apply negb_true_iff in Hz.
  cbn [map join_all fold_right]. rewrite !contains_append, Hz. cbn [contains orb].
  now apply IH.
Qed.

Lemma clean_lines_no_newline (lines : list string) :
  forallb clean_line lines = true ->
  forallb (fun l => negb (contains newline l)) lines = true.
Proof.
  induction lines as [| l rest IH]; intros H; [reflexivity |].
  cbn [forallb] in *. apply andb_true_iff in H. destruct H as [Hl H].
  unfold clean_line in Hl. apply andb_true_iff in Hl. destruct Hl as [_ Hn].
  now rewrite Hn, IH.
Qed.

(** What [explode] makes of the buffer when the flash holds clean lines. *)
Lemma lines_of_unlines (lines : list string) :
  forallb clean_line lines = true ->
  explode (c_str (unlines lines)) newline
  = filter (fun l => negb (is_empty l)) lines.
Proof.
  intros H. rewrite c_str_clean by now apply unlines_no_nul.
  apply explode_unlines. now apply clean_lines_no_newline.
Qed.

Section CalibrationLayout.

Variable atof : string -> cfloat.

Lemma read_table_in_range (lines : list string) (off : nat) (count : nat) :
  forall (i : nat) (vec : list cfloat),
    (i + off + count <= List.length lines)%nat ->
    read_table atof lines (Z.of_nat off) count (Z.of_nat i) vec
    = Ret (vec ++ map atof (firstn count (skipn (i + off) lines))).
Proof.
  induction count as [| k IH]; intros i vec Hlen.
  - simpl. now rewrite app_nil_r.
  - cbn [read_table].
    destruct (nth_error lines (i + off)) as [l |] eqn:El.
    2:{ apply nth_error_None in El. lia. }
    assert (Hat : vec_at lines (Z.of_nat i + Z.of_nat off) = Ret l).
    { apply vec_at_Ret. split; [lia |].
      replace (Z.to_nat (Z.of_nat i + Z.of_nat off)) with (i + off)%nat by lia.
      exact El. }
    rewrite Hat. cbn [bind].
    replace (Z.of_nat i + 1) with (Z.of_nat (S i)) by lia.
    rewrite IH by lia.
    rewrite (skipn_nth_cons _ _ _ El). cbn [firstn map Nat.add].
    now rewrite <- app_assoc.
Qed.

(** X5.  What a parse that succeeds stores.  When [readFlash]
    returns 0, the first of the non-empty lines of the buffer has at
    least three fields, there are at least [2 * g_numPixels + 13]
    non-empty lines and index 2365 of the response vector exists after
    the parse, [ReadCalData] returns: the model and the serial number
    are the first and the third field of the first line, trimmed;
    the lines from index 12 on, [g_numPixels] of them, converted by
    [atof], are appended to [g_wavelengths]; the lines from index
    [13 + g_numPixels] on are appended to [g_sensorResponse]; the other
    globals keep their values. *)
Theorem ReadCalData_layout (buf : string) (g0 : caldata)
        (header f0 f1 f2 : string) (more : list string) :
  let P := g_numPixels g0 in
  let lines := explode (c_str buf) newline in
  nth_error lines 0 = Some header ->
  explode header space = f0 :: f1 :: f2 :: more ->
  1 <= P ->
  2 * P + 13 <= Z.of_nat (List.length lines) ->
  2365 < Z.of_nat (List.length (g_sensorResponse g0)) + P ->
  ReadCalData atof (0, buf) g0
  = Ret {| g_model := Trim f0; g_serial := Trim f2; g_numPixels := P;
           g_wavelengths :=
             g_wavelengths g0
             ++ map atof (firstn (Z.to_nat P) (skipn 12 lines));
           g_sensorResponse :=
             g_sensorResponse g0
             ++ map atof (firstn (Z.to_nat P) (skipn (13 + Z.to_nat P) lines));
           g_absResponse := g_absResponse g0; g_absCal := g_absCal g0 |}.
Proof.
  intros P lines Hhdr Hfields HP Hlen Hmid.
  unfold ReadCalData. cbn [Z.eqb negb]. unfold parse_cal. fold P. fold lines.
  assert (H0 : vec_at lines 0 = Ret header) by (apply vec_at_Ret; split; [lia | exact Hhdr]).
  rewrite H0. cbn [bind]. rewrite Hfields.
  assert (Hf0 : vec_at (f0 :: f1 :: f2 :: more) 0 = Ret f0) by reflexivity.
  assert (Hf2 : vec_at (f0 :: f1 :: f2 :: more) 2 = Ret f2) by reflexivity.
  assert (Hf1 : vec_at (f0 :: f1 :: f2 :: more) 1 = Ret f1) by reflexivity.
  rewrite Hf0. cbn [bind]. rewrite Hf2. cbn [bind]. rewrite Hf1. cbn [bind].
  change (read_table atof lines 12 (Z.to_nat P) 0 (g_wavelengths g0))
    with (read_table atof lines (Z.of_nat 12) (Z.to_nat P) (Z.of_nat 0) (g_wavelengths g0)).
  rewrite read_table_in_range by lia. cbn [bind Nat.add].
  set (wl := g_wavelengths g0 ++ map atof (firstn (Z.to_nat P) (skipn 12 lines))).
  assert (Hwl : Z.of_nat (List.length wl) >= P).
  { unfold wl. rewrite length_app, length_map, length_firstn, length_skipn. lia. }
  destruct (vec_at_in_range wl 0) as [x0 Hx0]; [lia |].
  rewrite Hx0. cbn [bind].
  destruct (vec_at_in_range wl (P - 1)) as [x1 Hx1]; [lia |].
  rewrite Hx1. cbn [bind].
  replace (read_table atof lines (13 + P) (Z.to_nat P) 0 (g_sensorResponse g0))
    with (read_table atof lines (Z.of_nat (13 + Z.to_nat P)) (Z.to_nat P) (Z.of_nat 0)
            (g_sensorResponse g0))
    by (f_equal; lia).
  rewrite read_table_in_range by lia. cbn [bind]. rewrite Nat.add_0_l.
  set (sr := g_sensorResponse g0
             ++ map atof (firstn (Z.to_nat P) (skipn (13 + Z.to_nat P) lines))).
  assert (Hsr : Z.of_nat (List.length sr) = Z.of_nat (List.length (g_sensorResponse g0)) + P).
  { unfold sr. rewrite length_app, length_map, length_firstn, length_skipn. lia. }
  destruct (vec_at_in_range sr 0) as [y0 Hy0]; [lia |].
  rewrite Hy0. cbn [bind].
  destruct (vec_at_in_range sr 2365) as [y1 Hy1]; [lia |].
  rewrite Hy1. cbn [bind].
  destruct (vec_at_in_range sr (P - 1)) as [y2 Hy2]; [lia |].
  rewrite Hy2. cbn [bind]. reflexivity.
Qed.

Lemma ReadCalData_Ret_inv (flash : Z * string) (g0 g1 : caldata) :
  ReadCalData atof flash g0 = Ret g1 ->
  fst flash = 0 /\
  1 <= g_numPixels g0 /\
  2365 < Z.of_nat (List.length (g_sensorResponse g0)) + g_numPixels g0 /\
  2 * g_numPixels g0 + 13
  <= Z.of_nat (List.length (explode (c_str (snd flash)) newline)) /\
  (3 <= List.length (explode (hd "" (explode (c_str (snd flash)) newline)) space))%nat.
Proof.
  destruct flash as [err buf]. unfold ReadCalData. cbn [fst snd].
  destruct (Z.eqb_spec err 0) as [-> | Hne]; cbn [negb]; [| discriminate].
  intros H. split; [reflexivity |].
  assert (Hlines : 2 * g_numPixels g0 + 13
                   <= Z.of_nat (List.length (explode (c_str buf) newline)) \/ g_numPixels g0 < 1).
  { destruct (Z.lt_ge_cases (g_numPixels g0) 1) as [Hlt | Hge]; [now right |].
    destruct (Z.lt_ge_cases (Z.of_nat (List.length (explode (c_str buf) newline)))
                            (2 * g_numPixels g0 + 13)) as [Hshort | Hok]; [| now left].
    rewrite (parse_cal_too_few_lines atof buf g0 Hge Hshort) in H. discriminate. }
  unfold parse_cal in H. do 11 bind_inv H.
  destruct (read_table_appends _ _ _ _ _ _ _ Ha3) as (w & -> & Hw & _).
  destruct (read_table_appends _ _ _ _ _ _ _ Ha6) as (s & -> & Hs & _).
  apply vec_at_Ret in Ha5. destruct Ha5 as [HP _].
  apply vec_at_Ret in Ha8. destruct Ha8 as [_ Hmid].
  assert (Hmid' : nth_error (g_sensorResponse g0 ++ s) (Z.to_nat 2365) <> None) by congruence.
  apply nth_error_Some in Hmid'. rewrite length_app, Hs in Hmid'.
  assert (HP1 : 1 <= g_numPixels g0) by lia.
  split; [exact HP1 |]. split; [lia |]. split; [destruct Hlines; [assumption | lia] |].
  apply vec_at_Ret in Ha. destruct Ha as [_ Ha].
  destruct (explode (c_str buf) newline) as [| l0 ls]; [discriminate |].
  cbn in Ha. injection Ha as ->. cbn [hd].
  apply vec_at_Ret in Ha1. destruct Ha1 as [_ Ha1].
  assert (Hn : nth_error (explode a space) (Z.to_nat 2) <> None) by congruence.
  apply nth_error_Some in Hn. lia.
Qed.

(** X6.  [ReadCalData] returns only under the conditions of X5:
    [readFlash] returned 0, [g_numPixels] is positive, the response
    vector reaches index 2365 after the parse, the buffer has at least
    [2 * g_numPixels + 13] non-empty lines, and its first line has at
    least three fields.  In every other case the process exits or the
    behaviour is undefined. *)
Theorem ReadCalData_returns_only_if (flash : Z * string) (g0 g1 : caldata) :
  ReadCalData atof flash g0 = Ret g1 ->
  fst flash = 0 /\
  1 <= g_numPixels g0 /\
  2365 < Z.of_nat (List.length (g_sensorResponse g0)) + g_numPixels g0 /\
  2 * g_numPixels g0 + 13
  <= Z.of_nat (List.length (explode (c_str (snd flash)) newline)) /\
  (3 <= List.length (explode (hd "" (explode (c_str (snd flash)) newline)) space))%nat.
Proof. apply ReadCalData_Ret_inv. Qed.

(** X7.  A blob whose separator between the two tables is an
    empty line does not parse.  [explode] drops the empty line, so the
    coefficients are read one line too far down and the last of them
    past the end of [lines]: undefined behaviour, although the blob has
    the twelve header lines and both tables complete. *)
Theorem ReadCalData_blank_separator (head wl sr : list string) (g0 : caldata) :
  1 <= g_numPixels g0 ->
  List.length head = 12%nat ->
  List.length wl = Z.to_nat (g_numPixels g0) ->
  List.length sr = Z.to_nat (g_numPixels g0) ->
  forallb clean_line (head ++ wl ++ sr) = true ->
  ReadCalData atof (0, unlines (head ++ wl ++ [""] ++ sr)) g0 = Undefined.
Proof.
  intros HP Hh Hw Hs Hclean.
  unfold ReadCalData. cbn [Z.eqb negb].
  apply parse_cal_too_few_lines; [exact HP |].
  assert (Hc : forallb clean_line (head ++ wl ++ [""] ++ sr) = true).
  { rewrite !forallb_app in *. cbn [forallb]. 
    apply andb_true_iff in Hclean. destruct Hclean as [H1 H2].
    apply andb_true_iff in H2. destruct H2 as [H2 H3].
    rewrite H1, H2, H3. reflexivity. }
  rewrite (lines_of_unlines _ Hc).
  rewrite !filter_app. cbn [filter is_empty negb]. rewrite !length_app.
  pose proof (filter_length_le (fun l => negb (is_empty l)) head).
  pose proof (filter_length_le (fun l => negb (is_empty l)) wl).
  pose proof (filter_length_le (fun l => negb (is_empty l)) sr).
  cbn [List.length]. lia.
Qed.

(** X8.  The flash buffer is read as a C string: what follows
    its first NUL byte has no effect on what [ReadCalData] does. *)
Theorem ReadCalData_ignores_after_nul (a b : string) (g0 : caldata) :
  contains zero a = false ->
  ReadCalData atof (0, String.append a (String zero b)) g0
  = ReadCalData atof (0, a) g0.
Proof.
  intros Ha. unfold ReadCalData. cbn [Z.eqb negb]. unfold parse_cal.
  rewrite (c_str_stops_at_nul a b Ha), (c_str_clean a Ha). reflexivity.
Qed.

End CalibrationLayout.

(** *** Runs on the sample blobs *)

Lemma sample_blob_header :
  nth_error (explode (c_str sample_blob) newline) 0 = Some "AS-5216 c.N 00042".
Proof. vm_compute. reflexivity. Qed.

Lemma sample_blob_long_enough :
  2 * g_numPixels initial_caldata + 13
  <= Z.of_nat (List.length (explode (c_str sample_blob) newline)).
Proof. apply Z.leb_le. vm_compute. reflexivity. Qed.

Lemma ReadCalData_layout_witness :
  exists g,
    ReadCalData sample_atof (0, sample_blob) initial_caldata = Ret g /\
    g_model g = "AS-5216" /\ g_serial g = "00042" /\
    g_wavelengths g
    = map sample_atof (firstn 3653 (skipn 12 (explode (c_str sample_blob) newline))).
Proof.
  eexists. split.
  - apply (ReadCalData_layout sample_atof sample_blob initial_caldata
             "AS-5216 c.N 00042" "AS-5216" "c.N" "00042" []).
    + exact sample_blob_header.
    + reflexivity.
    + cbn. lia.
    + exact sample_blob_long_enough.
    + cbn. lia.
  - split; [reflexivity |]. split; reflexivity.
Defined.

Lemma ReadCalData_returns_only_if_witness :
  exists g1,
    ReadCalData sample_atof (0, sample_blob) initial_caldata = Ret g1 /\
    fst (0, sample_blob) = 0 /\
    1 <= g_numPixels initial_caldata /\
    2365 < Z.of_nat (List.length (g_sensorResponse initial_caldata))
           + g_numPixels initial_caldata /\
    2 * g_numPixels initial_caldata + 13
    <= Z.of_nat (List.length (explode (c_str (snd (0, sample_blob))) newline)) /\
    (3 <= List.length
            (explode (hd "" (explode (c_str (snd (0, sample_blob))) newline)) space))%nat.
Proof.
  destruct sample_blob_parses as (g1 & _ & E1 & _).
  exists g1. split; [exact E1 |].
  exact (ReadCalData_returns_only_if sample_atof (0, sample_blob) initial_caldata g1 E1).
Defined.

Lemma ReadCalData_blank_separator_witness :
  ReadCalData sample_atof
    (0, unlines (("AS-5216 c.N 00042" :: repeat "#" 11)
                 ++ repeat "500.5" 4 ++ [""] ++ repeat "1.25" 4))
    sample_cal4
  = Undefined.
Proof.
  apply (ReadCalData_blank_separator sample_atof
           ("AS-5216 c.N 00042" :: repeat "#" 11)
           (repeat "500.5" 4) (repeat "1.25" 4) sample_cal4).
  - cbn. lia.
  - reflexivity.
  - reflexivity.
  - reflexivity.
  - vm_compute. reflexivity.
Defined.

Lemma ReadCalData_ignores_after_nul_witness :
  ReadCalData sample_atof
    (0, String.append sample_blob (String zero "left over in the buffer"))
    initial_caldata
  = ReadCalData sample_atof (0, sample_blob) initial_caldata.
Proof.
  apply (ReadCalData_ignores_after_nul sample_atof sample_blob
           "left over in the buffer" initial_caldata).
  vm_compute. reflexivity.
Defined.

(** ** [OnQuery] on every input *)

Lemma table_query_answer (g : caldata) (line : string) :
  let P := Z.to_nat (g_numPixels g) in
  let answer (table : list cfloat) :=
    if (P <=? List.length table)%nat
    then Ret (false, [SendReply (join_all (map snprintf_3f_comma (firstn P table)))])
    else Undefined in
  OnQuery g false line "WAVELENGTHS" = answer (g_wavelengths g) /\
  OnQuery g false line "FLATCAL" = answer (g_sensorResponse g) /\
  OnQuery g false line "IRRCAL" = answer (g_absResponse g).
Proof.
  intros P answer.
  assert (H : forall table,
             (reply <- print_table table P 0 "" ;; Ret (false, [SendReply reply]))
             = answer table).
  { intros table. unfold answer. change 0 with (Z.of_nat 0).
    destruct (Nat.leb_spec P (List.length table)) as [Hle | Hgt].
    - rewrite print_table_in_range by exact Hle. reflexivity.
    - rewrite print_table_out_of_range by lia. reflexivity. }
  repeat split; apply H.
Qed.

(** X9.  The bounds of the three table queries.  [WAVELENGTHS?],
    [FLATCAL?] and [IRRCAL?] reply with the first [g_numPixels] entries
    of their vector, each printed with [%.3f] and a comma, when the
    vector has that many entries (an empty reply when [g_numPixels] is
    not positive); when the vector is shorter the handler indexes it
    out of range: the behaviour is undefined, and nothing is said
    about what is sent then (a build may read past the end of the
    vector and reply with what it finds). *)
Theorem table_query_bounds (g : caldata) (line : string) :
  let P := Z.to_nat (g_numPixels g) in
  let answer (table : list cfloat) :=
    if (P <=? List.length table)%nat
    then Ret (false, [SendReply (join_all (map snprintf_3f_comma (firstn P table)))])
    else Undefined in
  OnQuery g false line "WAVELENGTHS" = answer (g_wavelengths g) /\
  OnQuery g false line "FLATCAL" = answer (g_sensorResponse g) /\
  OnQuery g false line "IRRCAL" = answer (g_absResponse g).
Proof. apply table_query_answer. Qed.

Lemma OnQuery_cases (g : caldata) (line cmd : string) :
  (In cmd ("POINTS" :: "IRRCOEFF" :: table_queries) /\
   ((exists reply, OnQuery g false line cmd = Ret (false, [SendReply reply]))
    \/ (In cmd table_queries /\ OnQuery g false line cmd = Undefined)))
  \/ (~ In cmd ("POINTS" :: "IRRCOEFF" :: table_queries) /\
      exists text, OnQuery g false line cmd = Ret (false, [Log DEBUG text])).
Proof.
  pose proof (table_query_answer g line) as HT. cbv zeta in HT.
  destruct HT as (HW & HF & HI).
  unfold table_queries.
  destruct (String.eqb_spec cmd "POINTS") as [-> | N1].
  { left. split; [simpl; tauto |]. left. eexists. reflexivity. }
  destruct (String.eqb_spec cmd "WAVELENGTHS") as [-> | N2].
  { left. split; [simpl; tauto |]. rewrite HW.
    match goal with |- context [if ?c then _ else _] => destruct c end;
      [left; eauto | right; split; [simpl; tauto | reflexivity]]. }
  destruct (String.eqb_spec cmd "FLATCAL") as [-> | N3].
  { left. split; [simpl; tauto |]. rewrite HF.
    match goal with |- context [if ?c then _ else _] => destruct c end;
      [left; eauto | right; split; [simpl; tauto | reflexivity]]. }
  destruct (String.eqb_spec cmd "IRRCOEFF") as [-> | N4].
  { left. split; [simpl; tauto |]. left. eexists. reflexivity. }
  destruct (String.eqb_spec cmd "IRRCAL") as [-> | N5].
  { left. split; [simpl; tauto |]. rewrite HI.
    match goal with |- context [if ?c then _ else _] => destruct c end;
      [left; eauto | right; split; [simpl; tauto | reflexivity]]. }
  right. split.
  - simpl. intros [H | [H | [H | [H | [H | []]]]]]; congruence.
  - unfold OnQuery.
    apply String.eqb_neq in N1, N2, N3, N4, N5. rewrite N1, N2, N3, N4, N5.
    eexists. reflexivity.
Qed.

(** X10.  For every query, [OnQuery] never exits and never
    throws.  When it returns, it returns what the base class returned
    and has had at most one effect, none when the base class handled
    the query; it sends a reply only to [POINTS?], [IRRCOEFF?] and the
    three table queries, any other query is logged; its behaviour is
    undefined only in a table query that the base class left to it. *)
Theorem OnQuery_outcomes (g : caldata) (base_handled : bool) (line cmd : string) :
  match OnQuery g base_handled line cmd with
  | Ret (result, effects) =>
      result = base_handled /\
      (List.length effects <= 1)%nat /\
      (base_handled = true -> effects = []) /\
      (existsb is_reply effects = true ->
       In cmd ("POINTS" :: "IRRCOEFF" :: table_queries))
  | Undefined => base_handled = false /\ In cmd table_queries
  | Exit _ | Raise _ => False
  end.
Proof.
  destruct base_handled.
  - cbn. split; [reflexivity |]. split; [lia |]. split; [auto | discriminate].
  - destruct (OnQuery_cases g line cmd)
      as [(Hin & [[reply ->] | [Ht ->]]) | (Hnot & text & ->)].
    + split; [reflexivity |]. split; [simpl; lia |].
      split; [discriminate | intros _; exact Hin].
    + split; [reflexivity | exact Ht].
    + split; [reflexivity |]. split; [simpl; lia |].
      split; [discriminate | cbn; discriminate].
Qed.

(** ** Decimal numerals *)

Lemma dec_digits_head (n : N) :
  exists d rest, dec_digits n = d :: rest /\ is_digit d = true.
Proof.
  pose proof (dec_digits_all_digits n) as Hd.
  assert (Hlen : (1 <= List.length (dec_digits n))%nat).
  { unfold dec_digits. rewrite length_rev. simpl. lia. }
  destruct (dec_digits n) as [| d ds]; [simpl in Hlen; lia |].
  simpl in Hd. apply andb_true_iff in Hd. destruct Hd as [Hd _].
  exists d, ds. split; [reflexivity | exact Hd].
Qed.

Lemma is_digit_not_minus (c : ascii) : is_digit c = true -> Ascii.eqb c "-"%char = false.
Proof.
  intros Hc. destruct (Ascii.eqb_spec c "-"%char) as [-> | _]; [discriminate | reflexivity].
Qed.

Lemma to_string_int_round_trip (n : Z) : Z_of_decimal (to_string_int n) = Some n.
Proof.
  unfold Z_of_decimal, to_string_int. rewrite list_ascii_of_string_of_list_ascii.
  destruct n as [| p | p].
  - reflexivity.
  - destruct (dec_digits_head (Npos p)) as (d & rest & E & Hd).
    pose proof (dec_digits_value (Npos p)) as Hv. rewrite E in *.
    rewrite (is_digit_not_minus d Hd), Hv. reflexivity.
  - destruct (dec_digits_head (Npos p)) as (d & rest & E & Hd).
    pose proof (dec_digits_value (Npos p)) as Hv. rewrite E in *.
    rewrite Ascii.eqb_refl, Hv. reflexivity.
Qed.

(** X11.  The reply to [POINTS?] is the decimal numeral of
    [g_numPixels]: read back as an integer it gives [g_numPixels],
    whatever its value and sign. *)
Theorem points_reply_reads_back (g : caldata) (line : string) :
  exists reply,
    OnQuery g false line "POINTS" = Ret (false, [SendReply reply]) /\
    Z_of_decimal reply = Some (g_numPixels g).
Proof.
  exists (to_string_int (g_numPixels g)). split; [reflexivity |].
  apply to_string_int_round_trip.
Qed.

(** ** [OnCommand] on every input *)

(** X12.  For every command, [OnCommand] sends no reply.  It
    returns [true], or an exception of [stod] leaves it, or its
    behaviour is undefined ([args[0]] of an empty vector).  Unless the
    behaviour is undefined the mutex is free afterwards, also when
    [stod] throws.  The device is called only by [EXPOSURE] with an
    argument that converts, and then the trace is: lock, [setExposure]
    (with a log line when it fails), unlock. *)
Theorem OnCommand_effects
        (strtod_number : string -> option spec_float) (base_handled : bool)
        (line cmd : string) (args : list string) (err : Z) :
  let result := fst (OnCommand strtod_number base_handled line cmd args err) in
  let trace := snd (OnCommand strtod_number base_handled line cmd args err) in
  existsb event_replies trace = false /\
  (result = Ret true \/ (exists e, result = Raise e) \/ result = Undefined) /\
  (result <> Undefined -> owner_after None trace = None) /\
  (existsb is_device_call trace = true ->
   base_handled = false /\ cmd = "EXPOSURE" /\ result = Ret true /\
   exists v, exposure_argument strtod_number args = Ret v /\
             trace = [EvLock Control] ++ setExposure_events v err ++ [EvUnlock Control]).
Proof.
  unfold OnCommand. destruct base_handled.
  { cbn. split; [reflexivity |]. split; [now left |].
    split; [reflexivity | discriminate]. }
  destruct (String.eqb_spec cmd "EXPOSURE") as [-> | Hne].
  2:{ cbn. split; [reflexivity |]. split; [now left |].
      split; [reflexivity | discriminate]. }
  destruct (exposure_argument strtod_number args) as [v | c | e |] eqn:E.
  - cbn [fst snd]. split; [| split; [now left | split]].
    + unfold setExposure_events. destruct (err =? 0); reflexivity.
    + intros _. unfold setExposure_events. destruct (err =? 0); reflexivity.
    + intros _. split; [reflexivity |]. split; [reflexivity |].
      split; [reflexivity |]. exists v. split; reflexivity.
  - exfalso. unfold exposure_argument, stod in E.
    destruct (vec_at_cases args 0) as [[a Ha] | Ha]; rewrite Ha in E;
      cbn in E; try discriminate.
    destruct (starts_with_number a); cbn in E; try discriminate.
    destruct (strtod_number a); cbn in E; discriminate.
  - cbn. split; [reflexivity |]. split; [right; left; eauto |].
    split; [reflexivity | discriminate].
  - cbn. split; [reflexivity |]. split; [now right; right |].
    split; [intros H; now elim H | discriminate].
Qed.

(** ** Iterations of the data thread *)

Section IterationFacts.

Variable strtod_number : string -> option spec_float.
Variable cal : caldata.

Abbreviation RunStep := (step strtod_number cal).
Abbreviation Run := (exec strtod_number cal).

(** X13.  One iteration of the data thread, with the trigger
    armed and the mutex free, that no step of the main thread
    interrupts: lock, trigger, fetch, unlock, send, in this order.  A
    trigger that fails is logged, and the frame is fetched and sent all
    the same.  The armed flag is cleared exactly when the one-shot flag
    is set; the frame buffer holds the fetched frame; the thread is
    back at the head of its loop when [SendLooped] succeeded and has
    returned when it failed. *)
Theorem iteration_sends_one_frame
        (st : state) (trig_err : Z) (frame : list Z) (sent : bool)
        (bytes : list Byte.byte) :
  spc st = S_LoopHead -> halted st = false ->
  g_waveformThreadQuit (sh st) = false -> g_triggerArmed (sh st) = true ->
  g_mutex (sh st) = None ->
  frame_bytes (g_numPixels cal) (firstn (Z.to_nat framesize) frame) = Ret bytes ->
  let steps :=
    Run (iteration (g_triggerOneShot (sh st)) trig_err 0 frame sent) st in
  events steps
  = [EvLock Streamer] ++ trigger_events trig_err
    ++ [EvGetFrame 0; EvUnlock Streamer; EvSend bytes sent] /\
  final st steps
  = {| sh := set_triggerArmed (negb (g_triggerOneShot (sh st))) (sh st);
       spc := if sent then S_LoopHead else S_Exited;
       cpc := cpc st;
       framePixels := firstn (Z.to_nat framesize) frame;
       halted := false |}.
Proof. apply iteration_run. Qed.

(** X14.  A fetch that fails ends the data thread.  The error is
    logged with its code, the mutex is released, nothing is sent, the
    flags and the frame buffer are unchanged, and the thread takes no
    further step: no frame is streamed for the rest of the session,
    whatever the trigger returned. *)
Theorem failed_fetch_ends_the_thread
        (st : state) (oneShot : bool) (trig_err frame_err : Z) (frame : list Z)
        (sent : bool) :
  spc st = S_LoopHead -> halted st = false ->
  g_waveformThreadQuit (sh st) = false -> g_triggerArmed (sh st) = true ->
  g_mutex (sh st) = None ->
  frame_err <> 0 ->
  let steps := Run (iteration oneShot trig_err frame_err frame sent) st in
  events steps
  = [EvLock Streamer] ++ trigger_events trig_err
    ++ [EvGetFrame frame_err;
        EvEffect (error_with_code "failed to get frame, code " frame_err);
        EvUnlock Streamer] /\
  final st steps
  = {| sh := sh st; spc := S_Exited; cpc := cpc st;
       framePixels := framePixels st; halted := false |} /\
  forall e, RunStep Streamer e (final st steps) = None.
Proof.
  destruct st as [[armed flag quit mutex] s c fr h].
  cbn [sh spc cpc g_mutex halted framePixels
         g_triggerArmed g_triggerOneShot g_waveformThreadQuit].
  intros -> -> -> -> -> Herr. unfold iteration.
  apply Z.eqb_neq in Herr.
  destruct oneShot; cbn [app].
  all: do 4 (erewrite exec_cons_step by reflexivity).
  all: erewrite exec_cons_step
    by (unfold step, streamer_step; cbn [halted spc at_s with_sh in_err device];
        rewrite Herr; reflexivity).
  all: repeat (rewrite exec_cons_skip by reflexivity).
  all: cbn [exec]; unfold events, trigger_events; cbn [flat_map snd app].
  all: rewrite !final_cons; unfold final; cbn [map last].
  all: cbn [in_err in_sent device socket].
  all: destruct (trig_err =? 0); split; [reflexivity | | reflexivity |];
    (split; [reflexivity | intros e; reflexivity]).
Qed.

(** X15.  [AcquisitionStart] writes [g_triggerArmed] before
    [g_triggerOneShot], without the mutex.  When the data thread runs a
    whole iteration between the two assignments of a one-shot start
    that follows repeating mode, it sees the trigger armed and the
    one-shot flag still false: the start streams two frames before the
    trigger is disarmed. *)
Theorem split_start_sends_two_frames
        (st : state) (frame1 frame2 : list Z) (bytes1 bytes2 : list Byte.byte) :
  cpc st = C_ReadLine -> spc st = S_LoopHead -> halted st = false ->
  g_waveformThreadQuit (sh st) = false -> g_mutex (sh st) = None ->
  g_triggerOneShot (sh st) = false ->
  frame_bytes (g_numPixels cal) (firstn (Z.to_nat framesize) frame1) = Ret bytes1 ->
  frame_bytes (g_numPixels cal) (firstn (Z.to_nat framesize) frame2) = Ret bytes2 ->
  let steps := Run (split_start frame1 frame2) st in
  events steps
  = [EvLock Streamer; EvTrigger 0; EvGetFrame 0; EvUnlock Streamer;
     EvSend bytes1 true;
     EvLock Streamer; EvTrigger 0; EvGetFrame 0; EvUnlock Streamer;
     EvSend bytes2 true] /\
  g_triggerArmed (sh (final st steps)) = false /\
  g_triggerOneShot (sh (final st steps)) = true.
Proof.
  destruct st as [[armed oneShot quit mutex] s c fr h].
  cbn [sh spc cpc g_mutex halted framePixels
         g_triggerArmed g_triggerOneShot g_waveformThreadQuit].
  intros -> -> -> -> -> -> Hb1 Hb2. unfold split_start.
  set (st0 := {| sh := {| g_triggerArmed := armed; g_triggerOneShot := false;
                          g_waveformThreadQuit := false; g_mutex := None |};
                 spc := S_LoopHead; cpc := C_ReadLine;
                 framePixels := fr; halted := false |}).
  set (st1 := at_c (C_StartOneShot true) (with_sh (set_triggerArmed true) st0)).
  assert (H1 : Run [(Control, client (ReqStart true))] st0 = [(st1, [])]) by reflexivity.
  destruct (iteration_run strtod_number cal st1 0 frame1 true bytes1) as [Hev2 Hfin2];
    try reflexivity; [exact Hb1 |].
  change (g_triggerOneShot (sh st1)) with false in Hev2, Hfin2.
  set (st2 := final st1 (Run (iteration false 0 0 frame1 true) st1)) in *.
  set (st3 := at_c C_ReadLine (with_sh (set_triggerOneShot true) st2)).
  assert (H3 : Run [(Control, quiet)] st2 = [(st3, [])]).
  { unfold st3. rewrite Hfin2. reflexivity. }
  destruct (iteration_run strtod_number cal st3 0 frame2 true bytes2) as [Hev4 Hfin4];
    try (unfold st3; rewrite Hfin2; reflexivity); [exact Hb2 |].
  assert (Hflag : g_triggerOneShot (sh st3) = true)
    by (unfold st3; rewrite Hfin2; reflexivity).
  rewrite Hflag in Hev4, Hfin4.
  assert (E : Run ([(Control, client (ReqStart true))]
                   ++ iteration false 0 0 frame1 true
                   ++ [(Control, quiet)]
                   ++ iteration true 0 0 frame2 true) st0
              = [(st1, [])] ++ Run (iteration false 0 0 frame1 true) st1
                ++ [(st3, [])] ++ Run (iteration true 0 0 frame2 true) st3).
  { rewrite exec_app, H1. f_equal.
    change (final st0 [(st1, [])]) with st1.
    rewrite exec_app. f_equal. fold st2.
    rewrite exec_app, H3. reflexivity. }
  rewrite E, !events_app, !final_app, Hev2, Hev4.
  change (final st0 [(st1, [])]) with st1. fold st2.
  change (final st2 [(st3, [])]) with st3.
  rewrite Hfin4. unfold st3. rewrite Hfin2.
  split; [reflexivity |]. split; reflexivity.
Qed.

(** X16.  In repeating mode, and as long as the control thread
    does not interfere, the data thread streams every frame the device
    delivers, in order: one lock, trigger, fetch, unlock and send per
    frame.  The shared flags are unchanged afterwards and the thread is
    back at the head of its loop. *)
Theorem free_run_streams_every_frame
        (frames : list (list Z)) (sent : list (list Byte.byte)) :
  Forall2 (fun frame bytes =>
             frame_bytes (g_numPixels cal) (firstn (Z.to_nat framesize) frame)
             = Ret bytes) frames sent ->
  forall st : state,
    spc st = S_LoopHead -> halted st = false ->
    g_waveformThreadQuit (sh st) = false -> g_mutex (sh st) = None ->
    g_triggerArmed (sh st) = true -> g_triggerOneShot (sh st) = false ->
    let steps := Run (free_run frames) st in
    events steps = flat_map frame_events sent /\
    sh (final st steps) = sh st /\
    spc (final st steps) = S_LoopHead /\
    cpc (final st steps) = cpc st /\
    halted (final st steps) = false.
Proof.
  induction 1 as [| frame bytes frames sent Hb _ IH];
    intros st Hs Hh Hq Hm Ha Ho.
  - cbn. repeat split; assumption.
  - cbn zeta. unfold free_run. cbn [flat_map]. fold (free_run frames).
    destruct (iteration_run strtod_number cal st 0 frame true bytes Hs Hh Hq Ha Hm Hb)
      as [Hev Hfin].
    rewrite Ho in Hev, Hfin.
    set (st1 := final st (Run (iteration false 0 0 frame true) st)) in *.
    assert (Hsh : sh st1 = sh st).
    { rewrite Hfin. cbn [sh negb].
      destruct (sh st) as [a o q m]. cbn in Ha. subst a. reflexivity. }
    destruct (IH st1) as (Hev' & Hsh' & Hs' & Hc' & Hh');
      try (rewrite Hsh; assumption); try (rewrite Hfin; reflexivity).
    rewrite exec_app, events_app, final_app. fold st1.
    rewrite Hev, Hev'. cbn [flat_map].
    split; [reflexivity |].
    split; [rewrite Hsh'; exact Hsh |].
    split; [exact Hs' |].
    split; [rewrite Hc', Hfin; reflexivity | exact Hh'].
Qed.

(** *** Invariants of a session *)

Ltac split_step H :=
  repeat match type of H with
         | (if ?c then _ else _) = Some _ => destruct c eqn:?
         | match ?x with _ => _ end = Some _ => destruct x eqn:?
         | Some _ = Some _ => injection H as <- <-
         | None = Some _ => discriminate H
         end.

Lemma initial_session_inv (armed0 : bool) : session_inv (initial_state armed0).
Proof. split; reflexivity. Qed.

Lemma step_session (t : tid) (e : env) (st st' : state) (evs : list event) :
  session_inv st -> RunStep t e st = Some (st', evs) -> session_inv st'.
Proof.
  destruct st as [[armed oneShot quit mutex] s c frame h].
  unfold session_inv, step, streamer_step, control_step.
  cbn [sh spc cpc g_mutex halted framePixels
         g_triggerArmed g_triggerOneShot g_waveformThreadQuit].
  intros [Hq Hn] H. destruct h; [discriminate |].
  destruct t.
  - destruct s; cbn [not_running] in Hn; split_step H;
      cbn [with_sh at_s at_c with_frame halt sh spc cpc
             set_mutex set_triggerArmed g_waveformThreadQuit not_running];
      try destruct (in_sent e); split; assumption.
  - destruct c; cbn [tearing_down no_data_thread] in Hq, Hn; split_step H;
      cbn [with_sh at_s at_c with_frame halt sh spc cpc
             set_mutex set_triggerArmed set_triggerOneShot set_waveformThreadQuit
             AcquisitionForceTrigger AcquisitionStop
             g_waveformThreadQuit not_running tearing_down no_data_thread];
      split; try assumption; try reflexivity.
Qed.

Lemma exec_session (sched : list (tid * env)) :
  forall st, session_inv st -> session_inv (final st (Run sched st)).
Proof.
  induction sched as [| [t e] rest IH]; intros st Hinv; [exact Hinv |].
  cbn [exec]. destruct (RunStep t e st) as [[st' evs] |] eqn:Hstep.
  - rewrite final_cons. apply IH. eapply step_session; eassumption.
  - apply IH. exact Hinv.
Qed.

Lemma reachable_session_inv (st : state) :
  reachable strtod_number cal st -> session_inv st.
Proof.
  intros (armed0 & sched & <-). apply exec_session, initial_session_inv.
Qed.

(** X17.  In every reachable state, the quit flag is up exactly
    while [main] is between the end of [MainLoop] and the reset that
    follows [join]; and there is no data thread exactly while [main]
    is at [Accept] or between [join] and that reset: no thread is
    spawned while another one runs, and none outlives its session. *)
Theorem one_data_thread_per_session (st : state) :
  reachable strtod_number cal st ->
  g_waveformThreadQuit (sh st) = tearing_down (cpc st) /\
  not_running (spc st) = no_data_thread (cpc st).
Proof. apply reachable_session_inv. Qed.

(** *** Progress of a thread that runs alone *)

Lemma run_alone_rank (t : tid) (rank : state -> nat) (good done : state -> Prop) :
  (forall st, good st -> rank st = 0%nat -> done st) ->
  (forall st e, good st -> rank st <> 0%nat ->
     exists st' evs, RunStep t e st = Some (st', evs) /\
                     (done st' \/ (good st' /\ (rank st' < rank st)%nat))) ->
  forall n st envs,
    good st -> (rank st <= n)%nat -> (n <= List.length envs)%nat ->
    exists k, (k <= n)%nat /\
              List.length (Run (alone t (firstn k envs)) st) = k /\
              done (final st (Run (alone t (firstn k envs)) st)).
Proof.
  intros Hzero Hstep. induction n as [| n IH]; intros st envs Hg Hr Hl.
  - exists 0%nat. split; [apply le_n |]. split; [reflexivity |].
    apply Hzero; [exact Hg | apply Nat.le_0_r; exact Hr].
  - destruct (rank st) as [| r] eqn:Er.
    + exists 0%nat. split; [apply Nat.le_0_l |]. split; [reflexivity |].
      apply Hzero; assumption.
    + destruct envs as [| e envs]; [cbn in Hl; clear - Hl; lia |].
      destruct (Hstep st e Hg) as (st' & evs & Hs & Hnext);
        [rewrite Er; discriminate |].
      destruct Hnext as [Hdone | [Hg' Hlt]].
      * exists 1%nat. split; [clear; lia |].
        cbn [firstn alone map]. rewrite (exec_cons_step _ _ _ _ _ _ _ _ Hs).
        cbn [exec List.length]. split; [reflexivity |].
        rewrite final_cons. exact Hdone.
      * destruct (IH st' envs Hg') as (k & Hk & Hlen & Hfin);
          [clear - Hlt Hr Er; lia | cbn in Hl; clear - Hl; lia |].
        exists (S k). split; [clear - Hk; lia |].
        cbn [firstn alone map]. rewrite (exec_cons_step _ _ _ _ _ _ _ _ Hs).
        fold (alone t (firstn k envs)).
        cbn [List.length]. split; [now rewrite Hlen |].
        rewrite final_cons. exact Hfin.
Qed.

Lemma holder_step (t : tid) (e : env) (st : state) :
  lock_inv st -> halted st = false -> g_mutex (sh st) = Some t ->
  exists st' evs,
    RunStep t e st = Some (st', evs) /\
    ((g_mutex (sh st') = None \/ halted st' = true) \/
     (halted st' = false /\ g_mutex (sh st') = Some t /\
      (steps_to_unlock st' < steps_to_unlock st)%nat)).
Proof.
  destruct st as [[armed oneShot quit mutex] s c frame h].
  unfold lock_inv, step, streamer_step, control_step, steps_to_unlock.
  cbn [sh spc cpc g_mutex halted framePixels
         g_triggerArmed g_triggerOneShot g_waveformThreadQuit].
  intros (Hm & Hex & _) -> ->. destruct t.
  - destruct s; cbn [streamer_holds] in Hm;
      try (destruct (control_holds c); discriminate Hm).
    + do 2 eexists. split; [reflexivity |]. right.
      cbn. repeat split. lia.
    + destruct (in_err e =? 0); do 2 eexists; (split; [reflexivity |]).
      * right. cbn. repeat split. lia.
      * left. left. reflexivity.
    + destruct oneShot; do 2 eexists; (split; [reflexivity |]); right;
        cbn; repeat split; lia.
    + do 2 eexists. split; [reflexivity |]. right. cbn. repeat split. lia.
    + do 2 eexists. split; [reflexivity |]. left. left. reflexivity.
  - destruct (streamer_holds s) eqn:Hs; [discriminate Hm |].
    destruct c; cbn [control_holds] in Hm; try discriminate Hm.
    + destruct (exposure_argument strtod_number args);
        do 2 eexists; (split; [reflexivity |]).
      * right. destruct s; try discriminate Hs; cbn; repeat split; lia.
      * left. right. reflexivity.
      * left. left. reflexivity.
      * left. right. reflexivity.
    + do 2 eexists. split; [reflexivity |]. right.
      destruct s; try discriminate Hs; cbn; repeat split; lia.
    + do 2 eexists. split; [reflexivity |]. left. left. reflexivity.
Qed.

(** X18.  No thread keeps the mutex.  In a reachable state in
    which a thread holds [g_mutex], that thread is never blocked, and
    on its own it releases the mutex within at most five of its steps,
    the test of the one-shot flag and the assignment that may follow
    it being one step each (or the behaviour of the process is
    undefined by then), whatever the device returns. *)
Theorem lock_released_within_five_steps
        (st : state) (t : tid) (envs : list env) :
  reachable strtod_number cal st -> halted st = false ->
  g_mutex (sh st) = Some t -> (5 <= List.length envs)%nat ->
  exists k, (k <= 5)%nat /\
    let steps := Run (alone t (firstn k envs)) st in
    List.length steps = k /\
    (g_mutex (sh (final st steps)) = None \/ halted (final st steps) = true).
Proof.
  intros Hr Hh Hm Hl.
  apply (run_alone_rank t steps_to_unlock
           (fun s => lock_inv s /\ halted s = false /\ g_mutex (sh s) = Some t)
           (fun s => g_mutex (sh s) = None \/ halted s = true)).
  - intros s (Hinv & _ & Hms) Hz. exfalso.
    destruct Hinv as (Hmm & _ & _). rewrite Hms in Hmm.
    unfold steps_to_unlock in Hz.
    destruct (spc s); cbn in Hmm, Hz; try discriminate Hz;
      destruct (cpc s); cbn in Hmm, Hz; discriminate.
  - intros s e (Hinv & Hhs & Hms) _.
    destruct (holder_step t e s Hinv Hhs Hms) as (s' & evs & Hs & Hnext).
    exists s', evs. split; [exact Hs |].
    destruct Hnext as [Hd | (Hh' & Hm' & Hlt)]; [left; exact Hd | right].
    split; [| exact Hlt].
    split; [| split; assumption].
    exact (proj1 (step_lock strtod_number cal t e s s' evs Hinv Hs)).
  - split; [apply reachable_lock_inv with (1 := Hr) | split; assumption].
  - destruct (reachable_lock_inv _ _ st Hr) as (Hmm & _ & _).
    rewrite Hm in Hmm. unfold steps_to_unlock.
    destruct (spc st); cbn in Hmm |- *; try lia;
      destruct (cpc st); cbn in Hmm |- *; try lia; discriminate.
  - exact Hl.
Qed.

Lemma leaving_step (e : env) (st : state) :
  lock_inv st -> session_inv st -> cpc st = C_Join -> halted st = false ->
  steps_to_exit (spc st) <> 0%nat ->
  exists st' evs,
    RunStep Streamer e st = Some (st', evs) /\
    cpc st' = C_Join /\
    (halted st' = true \/
     (halted st' = false /\
      (steps_to_exit (spc st') < steps_to_exit (spc st))%nat)).
Proof.
  destruct st as [[armed oneShot quit mutex] s c frame h].
  unfold lock_inv, session_inv, step, streamer_step.
  cbn [sh spc cpc g_mutex halted framePixels
         g_triggerArmed g_triggerOneShot g_waveformThreadQuit].
  intros (Hm & _ & _) (Hq & _) -> -> Hr.
  cbn [tearing_down control_holds] in Hq, Hm. subst quit.
  destruct s; cbn [steps_to_exit streamer_holds] in Hr, Hm;
    try (exfalso; apply Hr; reflexivity); subst mutex.
  - destruct (in_valid e); do 2 eexists; (split; [reflexivity |]);
      (split; [reflexivity |]); right; cbn; split; try reflexivity; lia.
  - do 2 eexists. split; [reflexivity |]. split; [reflexivity |].
    right. cbn. split; [reflexivity | lia].
  - destruct armed; do 2 eexists; (split; [reflexivity |]);
      (split; [reflexivity |]); right; cbn; split; try reflexivity; lia.
  - do 2 eexists. split; [reflexivity |]. split; [reflexivity |].
    right. cbn. split; [reflexivity | lia].
  - do 2 eexists. split; [reflexivity |]. split; [reflexivity |].
    right. cbn. split; [reflexivity | lia].
  - destruct (in_err e =? 0); do 2 eexists; (split; [reflexivity |]);
      (split; [reflexivity |]); right; cbn; split; try reflexivity; lia.
  - destruct oneShot; do 2 eexists; (split; [reflexivity |]);
      (split; [reflexivity |]); right; cbn; split; try reflexivity; lia.
  - do 2 eexists. split; [reflexivity |]. split; [reflexivity |].
    right. cbn. split; [reflexivity | lia].
  - do 2 eexists. split; [reflexivity |]. split; [reflexivity |].
    right. cbn. split; [reflexivity | lia].
  - destruct (frame_bytes (g_numPixels cal) frame);
      do 2 eexists; (split; [reflexivity |]); (split; [reflexivity |]).
    1: right; destruct (in_sent e); cbn; split; try reflexivity; lia.
    all: left; reflexivity.
Qed.

(** X19.  [join] returns.  When [main] waits in
    [dataThread.join()], the data thread, on its own, returns within at
    most [steps_to_exit] of its steps, nine at most, a call that
    blocks ([Accept], the device calls, [SendLooped]) being one step
    when it returns; it is never blocked on the mutex; then [join]
    succeeds and [main] goes on to reset the quit flag, unless the
    flattening of a frame has run into undefined behaviour. *)
Theorem join_returns_within_nine_steps (st : state) (envs : list env) :
  reachable strtod_number cal st -> cpc st = C_Join -> halted st = false ->
  (9 <= List.length envs)%nat ->
  exists k, (k <= steps_to_exit (spc st))%nat /\
    let steps := Run (alone Streamer (firstn k envs)) st in
    List.length steps = k /\
    (halted (final st steps) = true \/
     forall e, RunStep Control e (final st steps)
               = Some (at_c C_ClearQuit (at_s S_NotRunning (final st steps)), [])).
Proof.
  intros Hr Hc Hh Hl.
  assert (Hrank : (steps_to_exit (spc st) <= 9)%nat)
    by (destruct (spc st); cbn; lia).
  destruct (run_alone_rank Streamer (fun s => steps_to_exit (spc s))
              (fun s => lock_inv s /\ session_inv s /\ cpc s = C_Join
                        /\ halted s = false)
              (fun s => halted s = true \/
                        (spc s = S_Exited /\ cpc s = C_Join /\ halted s = false)))
    with (n := steps_to_exit (spc st)) (st := st) (envs := envs)
    as (k & Hk & Hlen & Hfin).
  - intros s (_ & (_ & Hn) & Hcs & Hhs) Hz. right.
    rewrite Hcs in Hn. cbn [no_data_thread] in Hn.
    destruct (spc s); cbn in Hn, Hz; try discriminate.
    repeat split; assumption.
  - intros s e (Hinv & Hsess & Hcs & Hhs) Hnz.
    destruct (leaving_step e s Hinv Hsess Hcs Hhs Hnz)
      as (s' & evs & Hs & Hc' & Hnext).
    exists s', evs. split; [exact Hs |].
    destruct Hnext as [Hd | (Hh' & Hlt)]; [left; left; exact Hd | right].
    split; [| exact Hlt].
    split; [exact (proj1 (step_lock strtod_number cal _ e s s' evs Hinv Hs)) |].
    split; [exact (step_session _ e s s' evs Hsess Hs) |].
    split; assumption.
  - split; [apply reachable_lock_inv with (1 := Hr) |].
    split; [apply reachable_session_inv; exact Hr | split; assumption].
  - apply le_n.
  - clear - Hrank Hl. lia.
  - exists k. split; [exact Hk |]. split; [exact Hlen |].
    destruct Hfin as [Hd | (Hs & Hcf & Hhf)]; [left; exact Hd | right].
    intros e. unfold step, control_step. rewrite Hhf, Hcf, Hs. reflexivity.
Qed.

End IterationFacts.

(** *** Runs on the sample frame *)

Lemma sample_frame_flattened :
  frame_bytes (g_numPixels sample_cal4) (firstn (Z.to_nat framesize) sample_frame)
  = Ret sample_bytes.
Proof. vm_compute. reflexivity. Qed.

Lemma streaming_state_repeats : g_triggerOneShot (sh streaming_state) = false.
Proof. reflexivity. Qed.

Lemma contended_state_reachable :
  reachable strtod_decimal sample_cal4 contended_state.
Proof. exists false, contended_schedule. reflexivity. Qed.

Lemma disconnected_state_reachable :
  reachable strtod_decimal sample_cal4 disconnected_state.
Proof. exists false, disconnect_schedule. reflexivity. Qed.

Lemma iteration_sends_one_frame_witness :
  events (exec strtod_decimal sample_cal4
            (iteration (g_triggerOneShot (sh streaming_state)) 0 0 sample_frame true)
            streaming_state)
  = [EvLock Streamer] ++ trigger_events 0
    ++ [EvGetFrame 0; EvUnlock Streamer; EvSend sample_bytes true].
Proof.
  apply (iteration_sends_one_frame strtod_decimal sample_cal4 streaming_state
           0 sample_frame true sample_bytes);
    first [exact sample_frame_flattened | reflexivity].
Defined.

Lemma failed_fetch_ends_the_thread_witness :
  spc (final streaming_state
         (exec strtod_decimal sample_cal4 (iteration false 0 5 [] true)
            streaming_state))
  = S_Exited /\
  forall e,
    step strtod_decimal sample_cal4 Streamer e
      (final streaming_state
         (exec strtod_decimal sample_cal4 (iteration false 0 5 [] true)
            streaming_state))
    = None.
Proof.
  destruct (failed_fetch_ends_the_thread strtod_decimal sample_cal4 streaming_state
              false 0 5 [] true) as (_ & Hfin & Hstuck);
    try reflexivity; [discriminate |].
  split; [rewrite Hfin; reflexivity | exact Hstuck].
Defined.

Lemma split_start_sends_two_frames_witness :
  events (exec strtod_decimal sample_cal4
            (split_start sample_frame sample_frame) connected_state)
  = [EvLock Streamer; EvTrigger 0; EvGetFrame 0; EvUnlock Streamer;
     EvSend sample_bytes true;
     EvLock Streamer; EvTrigger 0; EvGetFrame 0; EvUnlock Streamer;
     EvSend sample_bytes true].
Proof.
  apply (split_start_sends_two_frames strtod_decimal sample_cal4 connected_state
           sample_frame sample_frame sample_bytes sample_bytes);
    first [exact sample_frame_flattened | reflexivity].
Defined.

Lemma free_run_streams_every_frame_witness :
  events (exec strtod_decimal sample_cal4 (free_run [sample_frame; sample_frame])
            streaming_state)
  = flat_map frame_events [sample_bytes; sample_bytes].
Proof.
  apply (free_run_streams_every_frame strtod_decimal sample_cal4
           [sample_frame; sample_frame] [sample_bytes; sample_bytes]);
    first [reflexivity | repeat constructor; exact sample_frame_flattened].
Defined.

Lemma one_data_thread_per_session_witness :
  g_waveformThreadQuit (sh disconnected_state) = tearing_down (cpc disconnected_state) /\
  not_running (spc disconnected_state) = no_data_thread (cpc disconnected_state).
Proof.
  apply (one_data_thread_per_session strtod_decimal sample_cal4 disconnected_state).
  exact disconnected_state_reachable.
Defined.

Lemma lock_released_within_five_steps_witness :
  exists k, (k <= 5)%nat /\
    List.length (exec strtod_decimal sample_cal4
                   (alone Control (firstn k (repeat quiet 5))) contended_state) = k /\
    (g_mutex (sh (final contended_state
                    (exec strtod_decimal sample_cal4
                       (alone Control (firstn k (repeat quiet 5))) contended_state)))
     = None \/
     halted (final contended_state
               (exec strtod_decimal sample_cal4
                  (alone Control (firstn k (repeat quiet 5))) contended_state))
     = true).
Proof.
  apply (lock_released_within_five_steps strtod_decimal sample_cal4
           contended_state Control (repeat quiet 5)).
  - exact contended_state_reachable.
  - reflexivity.
  - reflexivity.
  - cbn. lia.
Defined.

Lemma join_returns_within_nine_steps_witness :
  exists k, (k <= steps_to_exit (spc disconnected_state))%nat /\
    List.length (exec strtod_decimal sample_cal4
                   (alone Streamer (firstn k (repeat (device 0 sample_frame) 9)))
                   disconnected_state) = k /\
    (halted (final disconnected_state
               (exec strtod_decimal sample_cal4
                  (alone Streamer (firstn k (repeat (device 0 sample_frame) 9)))
                  disconnected_state)) = true \/
     forall e,
       step strtod_decimal sample_cal4 Control e
         (final disconnected_state
            (exec strtod_decimal sample_cal4
               (alone Streamer (firstn k (repeat (device 0 sample_frame) 9)))
               disconnected_state))
       = Some (at_c C_ClearQuit
                 (at_s S_NotRunning
                    (final disconnected_state
                       (exec strtod_decimal sample_cal4
                          (alone Streamer (firstn k (repeat (device 0 sample_frame) 9)))
                          disconnected_state))), [])).
Proof.
  apply (join_returns_within_nine_steps strtod_decimal sample_cal4
           disconnected_state (repeat (device 0 sample_frame) 9)).
  - exact disconnected_state_reachable.
  - reflexivity.
  - reflexivity.
  - cbn. lia.
Defined.

(** ** The command line *)

Section CommandLineFacts.

Variable ParseLoggerArguments : Z -> list string -> severity -> bool * Z * severity.
Variable atoi : string -> Z.

Abbreviation Parse := (parse_args ParseLoggerArguments atoi).

Lemma vec_at_middle {A : Type} (pre : list A) (x : A) (rest : list A) :
  vec_at (pre ++ x :: rest) (Z.of_nat (List.length pre)) = Ret x.
Proof.
  apply vec_at_Ret. split; [lia |].
  rewrite Nat2Z.id, nth_error_app2, Nat.sub_diag by lia. reflexivity.
Qed.

Lemma set_console_verbosity_same (o : options) :
  set_console_verbosity (console_verbosity o) o = o.
Proof. destruct o. reflexivity. Qed.

Lemma parse_given (given : list (port_option * string)) :
  forall (fuel : nat) (pre rest : list string) (o : options),
    (forall i v, ParseLoggerArguments i (pre ++ option_words given ++ rest) v
                 = (false, i, v)) ->
    Parse (List.length given + fuel) (pre ++ option_words given ++ rest)
          (Z.of_nat (List.length pre)) o
    = Parse fuel (pre ++ option_words given ++ rest)
            (Z.of_nat (List.length pre + List.length (option_words given)))
            (fold_left (apply_option atoi) given o).
Proof.
  induction given as [| [p v] given IH]; intros fuel pre rest o Hlog.
  - cbn [option_words flat_map List.length fold_left Nat.add].
    rewrite Nat.add_0_r. reflexivity.
  - cbn [List.length Nat.add parse_args].
    change (option_words ((p, v) :: given))
      with (option_name p :: v :: option_words given) in *.
    set (argv := pre ++ (option_name p :: v :: option_words given) ++ rest) in *.
    assert (Hargv : argv = (pre ++ [option_name p; v]) ++ option_words given ++ rest).
    { unfold argv. rewrite <- !app_assoc. reflexivity. }
    assert (Hlen : List.length argv
                   = (List.length pre + 2
                      + List.length (option_words given ++ rest))%nat).
    { rewrite Hargv, !length_app. cbn [List.length]. lia. }
    assert (H0 : vec_at argv (Z.of_nat (List.length pre)) = Ret (option_name p)).
    { unfold argv. cbn [app]. apply vec_at_middle. }
    assert (H1 : vec_at argv (Z.of_nat (List.length pre) + 1) = Ret v).
    { unfold argv. cbn [app].
      change (pre ++ option_name p :: v :: option_words given ++ rest)
        with (pre ++ [option_name p] ++ v :: option_words given ++ rest).
      rewrite app_assoc.
      replace (Z.of_nat (List.length pre) + 1)
        with (Z.of_nat (List.length (pre ++ [option_name p])))
        by (rewrite length_app; cbn [List.length]; lia).
      apply vec_at_middle. }
    replace (Z.of_nat (List.length pre) <? Z.of_nat (List.length argv)) with true
      by (symmetry; apply Z.ltb_lt; lia).
    rewrite H0, Hlog. cbn iota.
    rewrite set_console_verbosity_same.
    replace (Z.of_nat (List.length pre) + 1 <? Z.of_nat (List.length argv)) with true
      by (symmetry; apply Z.ltb_lt; lia).
    rewrite H1.
    replace (Z.of_nat (List.length pre) + 1 + 1)
      with (Z.of_nat (List.length (pre ++ [option_name p; v])))
      by (rewrite length_app; cbn [List.length]; lia).
    specialize (IH fuel (pre ++ [option_name p; v]) rest).
    rewrite <- Hargv in IH.
    replace (Z.of_nat (List.length pre
                       + List.length (option_name p :: v :: option_words given)))
      with (Z.of_nat (List.length (pre ++ [option_name p; v])
                      + List.length (option_words given)))
      by (rewrite length_app; cbn [List.length]; lia).
    destruct p; cbn [option_name String.eqb Ascii.eqb Bool.eqb andb];
      cbn [fold_left]; apply IH; exact Hlog.
Qed.



Lemma option_words_length (given : list (port_option * string)) :
  List.length (option_words given) = (2 * List.length given)%nat.
Proof.
  induction given as [| pv given IH]; [reflexivity |].
  cbn [option_words flat_map app List.length] in *.
  unfold option_words in IH. rewrite IH. lia.
Qed.


(** X21.  After port options with their values, the first word
    that is not a port option ends the command line, whatever follows
    it: [--help] writes the help text and [main] returns 0; any other
    word writes the message that names it and [main] returns 1. *)
Theorem command_line_stops_at_first_other_word
        (prog : string) (given : list (port_option * string))
        (s : string) (rest : list string) :
  let argv := prog :: option_words given ++ s :: rest in
  (forall i v, ParseLoggerArguments i argv v = (false, i, v)) ->
  String.eqb s "--scpi-port" = false ->
  String.eqb s "--waveform-port" = false ->
  parse_command_line ParseLoggerArguments atoi argv
  = Some (if String.eqb s "--help" then (Exit 0, [help_text])
          else (Exit 1, [unrecognized_text s])).
Proof.
  intros argv Hlog Hs Hw. unfold parse_command_line.
  assert (Hargc : List.length argv
                  = (1 + List.length (option_words given)
                     + S (List.length rest))%nat).
  { unfold argv. cbn [List.length]. rewrite length_app. cbn [List.length]. lia. }
  replace (List.length argv)
    with (List.length given + (S (List.length rest) + S (List.length given)))%nat
    by (rewrite Hargc, option_words_length; lia).
  pose proof (parse_given given
                (S (List.length rest) + S (List.length given))
                [prog] (s :: rest) initial_options) as Hgiven.
  change ([prog] ++ option_words given ++ s :: rest) with argv in Hgiven.
  change (Z.of_nat (List.length [prog])) with 1 in Hgiven.
  rewrite Hgiven by exact Hlog. clear Hgiven.
  assert (Hat : vec_at argv (Z.of_nat (1 + List.length (option_words given)))
                = Ret s).
  { change argv with ((prog :: option_words given) ++ s :: rest).
    change (1 + List.length (option_words given))%nat
      with (List.length (prog :: option_words given)).
    apply vec_at_middle. }
  cbn [List.length Nat.add parse_args].
  cbn [List.length Nat.add] in Hat.
  replace (Z.of_nat (S (List.length (option_words given)))
           <? Z.of_nat (List.length argv)) with true
    by (symmetry; apply Z.ltb_lt; lia).
  rewrite Hat, Hlog. cbn iota. rewrite Hs, Hw.
  destruct (String.eqb s "--help"); reflexivity.
Qed.

End CommandLineFacts.

(** *** Runs on sample command lines *)


Lemma command_line_stops_at_first_other_word_witness :
  parse_command_line no_logger_option sample_atoi
    ("specbridge" :: option_words [(ScpiPort, "5030")] ++ "--help" :: ["--bogus"])
  = Some (Exit 0, [help_text]).
Proof.
  apply (command_line_stops_at_first_other_word no_logger_option sample_atoi
           "specbridge" [(ScpiPort, "5030")] "--help" ["--bogus"]).
  - intros i v. reflexivity.
  - reflexivity.
  - reflexivity.
Defined.
